(** * Admin routes of the pharmacos server: queries and analytics

    A shallow embedding of [backend/routes/admin.js]: the customer list with
    search, sort and pagination, the sales and product analytics pipelines and
    the customer status update.  The handlers are embedded as functions of the
    store contents and of the request; the operators of the document store
    (find, sort, skip, limit, the aggregation stages) are embedded next to them
    with the semantics the handlers rely on. *)

From Stdlib Require Import ZArith List Bool String Ascii Lia Permutation Sorted.
Import ListNotations.
Local Open Scope string_scope.
Local Open Scope list_scope.
Local Open Scope Z_scope.

(** ** Values of the host language *)

(** A JavaScript number, as far as the model goes: an integer, NaN or an
    infinity; a fractional page or limit is outside of it.  Quantities and
    counts are integers ([Z]); amounts are modelled where they are integers,
    and a total of amounts is a number of this type, rounded as a double
    is (see [js_double]). *)
Inductive JsNumber : Type :=
| JsInt (z : Z)
| JsNaN
| JsPosInf
| JsNegInf.

(** A value read from [req.query] (a string) or a default of the handler
    (a number). *)
Inductive JsValue : Type :=
| JsString (s : string)
| JsNum (n : JsNumber).

Definition ObjectId : Type := N.
Bind Scope N_scope with ObjectId.

(** A [Date] is its time value: milliseconds since the epoch, UTC. *)
Definition Date : Type := Z.

(** What the store layer throws. *)
Inductive Error : Type :=
| CastError (kind path : string)
| ServerError (reason : string).

Inductive Result (A : Type) : Type :=
| Ok (a : A)
| Throw (e : Error).
Arguments Ok {A} a.
Arguments Throw {A} e.

Definition bind {A B : Type} (m : Result A) (k : A -> Result B) : Result B :=
  match m with
  | Ok a => k a
  | Throw e => Throw e
  end.

Notation "x <- m ;; k" := (bind m (fun x => k))
  (at level 61, m at next level, right associativity).

(** The parts of the host the handlers call and this file does not define:
    the coercions of the language, the regular-expression engine of the
    store and the casts of the object mapper. *)
Class Runtime : Type := {
  (** [Number(s)], the coercion behind [page - 1], [* limit] and [/ limit] *)
  ToNumber : string -> JsNumber;
  (** [parseInt(s)] *)
  parseInt : string -> JsNumber;
  (** a pattern compiled with option [i]; [None] when the store rejects it *)
  RegExp_i : string -> option (string -> bool);
  (** [new Date(s)], as the instant the store receives *)
  new_Date : string -> Date;
  (** the cast of a route parameter to an [ObjectId] *)
  castObjectId : string -> option ObjectId;
  (** whether the store takes the string as the path of a sort key *)
  sort_path_ok : string -> bool;
  (** the integer the store reads a skip or limit as that is no integer, if
      it takes it at all *)
  safeNumber : JsNumber -> option Z;
  (** [LocalTime(t)]: what the wall clock of the server reads at the instant
      [t], as a time value; the offset of its time zone, daylight saving
      included, is added *)
  LocalTime : Date -> Date;
  (** [UTC(t)]: the instant at which the wall clock of the server reads [t] *)
  UTC : Date -> Date
}.

(** A fact of the host that some theorems assume: [Number] of the empty
    string is 0. *)
Definition Number_empty (RT : Runtime) : Prop :=
  ToNumber EmptyString = JsInt 0.

(** A string is truthy unless it is absent or empty. *)
Definition truthy (s : option string) : bool :=
  match s with
  | Some s => negb (String.eqb s EmptyString)
  | None => false
  end.

Definition js_neg (a : JsNumber) : JsNumber :=
  match a with
  | JsInt z => JsInt (- z)
  | JsNaN => JsNaN
  | JsPosInf => JsNegInf
  | JsNegInf => JsPosInf
  end.

Definition js_add (a b : JsNumber) : JsNumber :=
  match a, b with
  | JsNaN, _ | _, JsNaN => JsNaN
  | JsInt x, JsInt y => JsInt (x + y)
  | JsPosInf, JsNegInf | JsNegInf, JsPosInf => JsNaN
  | JsPosInf, _ | _, JsPosInf => JsPosInf
  | JsNegInf, _ | _, JsNegInf => JsNegInf
  end.

Definition js_sub (a b : JsNumber) : JsNumber := js_add a (js_neg b).

Definition js_sign (a : JsNumber) : Z :=
  match a with
  | JsInt z => Z.sgn z
  | JsNaN => 0
  | JsPosInf => 1
  | JsNegInf => -1
  end.

Definition js_mul (a b : JsNumber) : JsNumber :=
  match a, b with
  | JsNaN, _ | _, JsNaN => JsNaN
  | JsInt x, JsInt y => JsInt (x * y)
  | _, _ =>
      match js_sign a * js_sign b with
      | Z0 => JsNaN
      | Zpos _ => JsPosInf
      | Zneg _ => JsNegInf
      end
  end.

(** ** Doubles

    The numbers of the store and of the response are doubles.  The amounts
    of the orders and the prices of the line items are modelled where they
    are integers; a total that [$sum] or [$multiply] computes from them comes
    out as the double nearest to it: the integer itself below 2^53, beyond
    that the nearest number with a significand of 53 bits (a tie goes to the
    even significand), an infinity from 2^1024 on. *)
Definition round_double (z : Z) : Z :=
  let a := Z.abs z in
  if a <? 2 ^ 53 then z
  else
    let e := Z.log2 a - 52 in
    let m := a / 2 ^ e in
    let r := a mod 2 ^ e in
    let half := 2 ^ (e - 1) in
    let m' := if (r <? half) || ((r =? half) && Z.even m) then m else m + 1 in
    Z.sgn z * (m' * 2 ^ e).

Definition js_double (z : Z) : JsNumber :=
  let r := round_double z in
  if 2 ^ 1024 <=? Z.abs r then (if 0 <? z then JsPosInf else JsNegInf)
  else JsInt r.

(** The double of a running total. *)
Definition js_round (a : JsNumber) : JsNumber :=
  match a with
  | JsInt z => js_double z
  | _ => a
  end.

(** [Math.ceil(total / limit)] for an integer [total]. *)
Definition js_ceil_div (total : Z) (limit : JsNumber) : JsNumber :=
  match limit with
  | JsInt 0 =>
      if total =? 0 then JsNaN
      else if 0 <? total then JsPosInf else JsNegInf
  | JsInt l => JsInt (- ((- total) / l))
  | JsNaN => JsNaN
  | JsPosInf | JsNegInf => JsInt 0
  end.

Section Coercions.
Context {RT : Runtime}.

Definition to_number (v : JsValue) : JsNumber :=
  match v with
  | JsString s => ToNumber s
  | JsNum n => n
  end.

Definition js_parseInt (v : JsValue) : JsNumber :=
  match v with
  | JsString s => parseInt s
  | JsNum (JsInt z) => JsInt z
  | JsNum _ => JsNaN
  end.
End Coercions.

(** [s.split(":")] *)
Fixpoint split_colon_aux (cur : string) (s : string) : list string :=
  match s with
  | EmptyString => [cur]
  | String c s' =>
      if Ascii.eqb c ":"%char then cur :: split_colon_aux EmptyString s'
      else split_colon_aux (cur ++ String c EmptyString)%string s'
  end.

Definition split_colon (s : string) : list string :=
  split_colon_aux EmptyString s.

(** ** Calendar fields of a date

    [$year] and [$month] read a date in UTC; the day count is turned into a
    civil date of the proleptic Gregorian calendar. *)

Definition msPerDay : Z := 86400000.

Definition day_of (t : Date) : Z := t / msPerDay.

Definition civil_from_days (days : Z) : Z * Z * Z :=
  let z := days + 719468 in
  let era := z / 146097 in
  let doe := z - era * 146097 in
  let yoe := (doe - doe / 1460 + doe / 36524 - doe / 146096) / 365 in
  let y := yoe + era * 400 in
  let doy := doe - (365 * yoe + yoe / 4 - yoe / 100) in
  let mp := (5 * doy + 2) / 153 in
  let d := doy - (153 * mp + 2) / 5 + 1 in
  let m := if mp <? 10 then mp + 3 else mp - 9 in
  (if m <=? 2 then y + 1 else y, m, d).

Definition days_from_civil (y m d : Z) : Z :=
  let y := if m <=? 2 then y - 1 else y in
  let era := y / 400 in
  let yoe := y - era * 400 in
  let doy := (153 * (if 2 <? m then m - 3 else m + 9) + 2) / 5 + d - 1 in
  let doe := yoe * 365 + yoe / 4 - yoe / 100 + doy in
  era * 146097 + doe - 719468.

Definition year_of (t : Date) : Z := fst (fst (civil_from_days (day_of t))).
Definition month_of (t : Date) : Z := snd (fst (civil_from_days (day_of t))).
Definition date_of (t : Date) : Z := snd (civil_from_days (day_of t)).

(** The first instant of a civil day. *)
Definition date (y m d : Z) : Date := days_from_civil y m d * msPerDay.

(** [TimeWithinDay], [MakeDay] and [MakeDate] of the language, the months
    counted from 1 as above: the day number of a date of the month that may
    lie outside of the month (day 0 is the last day of the month before), and
    the time value of a day number and a time within the day. *)
Definition TimeWithinDay (t : Date) : Z := t mod msPerDay.

Definition MakeDay (year month dt : Z) : Z :=
  days_from_civil year month 1 + dt - 1.

Definition MakeDate (day time : Z) : Date := day * msPerDay + time.

(** The days from the first of March of the first year of an era to the
    first of March of its year [y], and the count of the months of a day
    number: 12 x year + month. *)
Definition year_start (y : Z) : Z := 365 * y + y / 4 - y / 100 + y / 400.

Definition month_index (days : Z) : Z :=
  12 * fst (fst (civil_from_days days)) + snd (fst (civil_from_days days)).

(** ** Documents and collections

    The model of the products is [backend/models/Product.js].  The store
    leaves the order of the groups of [$group] and of equal keys of a sort
    open; the collections are lists in their natural order, groups come out
    in the order in which their keys first occur and sorts are stable.  The
    statements below hold for the order so fixed; the one that puts the
    pages of two requests of the customer list together assumes that no two
    sort keys are equal, so that the order of the sort is the only one. *)

(** Modelled from the spec: the Customer model, which the routes import and
    the sources do not include; identity, the profile fields the search
    reads, and a status that the routes store as any string.  Other profile
    fields are not modelled and read as missing. *)
Module Customer.
Record t : Type := mk {
  _id : ObjectId;
  name : string;
  email : string;
  status : string
}.
End Customer.

(** Modelled from the spec: the Order model, which the sources do not
    include; one customer, one staff attribution, a date, an amount and a
    status. *)
Module Order.
Record t : Type := mk {
  _id : ObjectId;
  customerId : ObjectId;
  staffId : ObjectId;
  orderDate : Date;
  totalAmount : Z;
  status : string
}.
End Order.

(** Modelled from the spec: the line items of the [orderdetails]
    collection, whose model the sources do not include. *)
Module OrderDetail.
Record t : Type := mk {
  orderId : ObjectId;
  productId : ObjectId;
  quantity : Z;
  unitPrice : Z
}.
End OrderDetail.

(** Modelled from the spec: the Brand model, of which the routes populate
    the name; the sources do not include it. *)
Module Brand.
Record t : Type := mk {
  _id : ObjectId;
  name : string
}.
End Brand.

Module Product.
Record t : Type := mk {
  _id : ObjectId;
  name : string;
  function : string;
  skinGroup : string;
  ageGroup : option string;
  genderTarget : option string;
  brandId : ObjectId;
  categoryId : ObjectId;
  imageUrl : option string;
  stockQuantity : Z;
  aiFeatures : list (string * string);
  createdAt : Date;
  updatedAt : Date
}.
End Product.

(** The collections, each in its natural order. *)
Record Store : Type := {
  customers : list Customer.t;
  orders : list Order.t;
  orderdetails : list OrderDetail.t;
  products : list Product.t;
  brands : list Brand.t
}.

(** Every collection has a unique index on [_id]. *)
Definition unique_ids (st : Store) : Prop :=
  NoDup (map Customer._id (customers st)) /\
  NoDup (map Order._id (orders st)) /\
  NoDup (map Product._id (products st)).

(** ** Stages of an aggregation pipeline and operators of a query *)

Section Stages.
Context {A B K Acc : Type}.

(** [$match] *)
Definition match_stage (p : A -> bool) (rows : list A) : list A :=
  filter p rows.

(** [$lookup]: every row gets the array of the foreign documents whose
    foreign field equals its local field. *)
Definition lookup_stage (on : A -> B -> bool) (from : list B)
    (rows : list A) : list (A * list B) :=
  map (fun a => (a, filter (on a) from)) rows.

(** [$unwind]: one row per element of the array; a row whose array is
    empty yields none. *)
Definition unwind_stage (rows : list (A * list B)) : list (A * B) :=
  flat_map (fun r => map (pair (fst r)) (snd r)) rows.

(** [$group]: the rows are read in order; a row either opens the group of
    its key or is accumulated into it. *)
Fixpoint upsert (eqb : K -> K -> bool) (init : Acc) (step : Acc -> A -> Acc)
    (k : K) (a : A) (groups : list (K * Acc)) : list (K * Acc) :=
  match groups with
  | [] => [(k, step init a)]
  | (k', acc) :: rest =>
      if eqb k k' then (k', step acc a) :: rest
      else (k', acc) :: upsert eqb init step k a rest
  end.

Definition group_stage (eqb : K -> K -> bool) (key : A -> K) (init : Acc)
    (step : Acc -> A -> Acc) (rows : list A) : list (K * Acc) :=
  fold_left (fun groups a => upsert eqb init step (key a) a groups) rows [].

(** The accumulator of the group of a key, if the group is open. *)
Fixpoint assoc (eqb : K -> K -> bool) (k : K) (groups : list (K * Acc))
    : option Acc :=
  match groups with
  | [] => None
  | (k', acc) :: rest => if eqb k k' then Some acc else assoc eqb k rest
  end.

(** [$sort] and [Query.sort]: a stable sort, [leb a b] telling that [a] may
    stand before [b]. *)
Fixpoint insert_sorted (leb : A -> A -> bool) (a : A) (l : list A) : list A :=
  match l with
  | [] => [a]
  | b :: l' => if leb a b then a :: l else b :: insert_sorted leb a l'
  end.

Definition sort_stage (leb : A -> A -> bool) (rows : list A) : list A :=
  fold_right (insert_sorted leb) [] rows.

(** [$limit] *)
Definition limit_stage (n : nat) (rows : list A) : list A := firstn n rows.
End Stages.

Definition sumZ (l : list Z) : Z := fold_right Z.add 0 l.

(** ** Responses *)

Inductive Message : Type :=
| Text (s : string)
| ErrorMessage (e : Error).

Inductive Body (A : Type) : Type :=
| Json (a : A)
| JsonMessage (message : Message).
Arguments Json {A} a.
Arguments JsonMessage {A} message.

Record Response (A : Type) : Type := {
  statusCode : Z;
  body : Body A
}.
Arguments statusCode {A} r.
Arguments body {A} r.

(** [res.json(a)] *)
Definition res_json {A : Type} (a : A) : Response A :=
  {| statusCode := 200; body := Json a |}.

(** [res.status(code).json({ message })] *)
Definition res_status_message {A : Type} (code : Z) (m : Message) : Response A :=
  {| statusCode := code; body := JsonMessage m |}.

(** ** GET /analytics/sales *)

Record SalesQuery : Type := {
  startDate : option string;
  endDate : option string
}.

Module DateRange.
Record t : Type := mk { gte : Date; lte : Date }.
End DateRange.

Module MatchStage.
Record t : Type := mk {
  status : string;
  orderDate : option DateRange.t
}.
End MatchStage.

Module MonthId.
Record t : Type := mk { year : Z; month : Z }.

Definition eqb (a b : t) : bool :=
  (year a =? year b) && (month a =? month b).

(** the order of [{ "_id.year": 1, "_id.month": 1 }] *)
Definition leb (a b : t) : bool :=
  (year a <? year b) || ((year a =? year b) && (month a <=? month b)).

(** strictly earlier month *)
Definition lt (a b : t) : Prop :=
  year a < year b \/ (year a = year b /\ month a < month b).
End MonthId.

Module MonthlySales.
Record t : Type := mk {
  _id : MonthId.t;
  totalSales : JsNumber;
  orderCount : Z
}.
End MonthlySales.

Module ProductGroup.
Record t : Type := mk {
  _id : ObjectId;
  totalQuantity : Z;
  totalRevenue : JsNumber
}.
End ProductGroup.

Module TopProduct.
Record t : Type := mk {
  _id : ObjectId;
  totalQuantity : Z;
  totalRevenue : JsNumber;
  product : Product.t
}.
End TopProduct.

Record SalesAnalytics : Type := {
  salesByMonth : list MonthlySales.t;
  topSellingProducts : list TopProduct.t
}.

(** An order passes [{ $match: matchStage }]. *)
Definition matches (m : MatchStage.t) (o : Order.t) : bool :=
  String.eqb (Order.status o) (MatchStage.status m) &&
  match MatchStage.orderDate m with
  | None => true
  | Some r =>
      (DateRange.gte r <=? Order.orderDate o) &&
      (Order.orderDate o <=? DateRange.lte r)
  end.

(** The join of an order with its line items, as both pipelines write it. *)
Definition order_items (details : list OrderDetail.t) (rows : list Order.t)
    : list (Order.t * OrderDetail.t) :=
  unwind_stage
    (lookup_stage (fun o d => N.eqb (Order._id o) (OrderDetail.orderId d))
       details rows).

Definition month_id (o : Order.t) : MonthId.t :=
  {| MonthId.year := year_of (Order.orderDate o);
     MonthId.month := month_of (Order.orderDate o) |}.

(** The accumulators of the group of a product,
    [{ $sum: "$items.quantity" }] and
    [{ $sum: { $multiply: ["$items.quantity", "$items.unitPrice"] } }]: the
    quantities are integers and add up as such; every product of a quantity
    and a price is a double, and the running total of these doubles is kept
    as it is until the group is done. *)
Definition product_step (acc : Z * JsNumber) (r : Order.t * OrderDetail.t)
    : Z * JsNumber :=
  (fst acc + OrderDetail.quantity (snd r),
   js_add (snd acc)
     (js_double (OrderDetail.quantity (snd r) * OrderDetail.unitPrice (snd r)))).

Definition product_group (g : ObjectId * (Z * JsNumber)) : ProductGroup.t :=
  {| ProductGroup._id := fst g;
     ProductGroup.totalQuantity := fst (snd g);
     ProductGroup.totalRevenue := js_round (snd (snd g)) |}.

Section Sales.
Context {RT : Runtime}.

Definition matchStage_of (q : SalesQuery) : MatchStage.t :=
  let matchStage :=
    {| MatchStage.status := "completed"; MatchStage.orderDate := None |} in
  match startDate q, endDate q with
  | Some s, Some e =>
      if truthy (Some s) && truthy (Some e) then
        {| MatchStage.status := MatchStage.status matchStage;
           MatchStage.orderDate :=
             Some {| DateRange.gte := new_Date s;
                     DateRange.lte := new_Date e |} |}
      else matchStage
  | _, _ => matchStage
  end.

(** [{ $sum: "$totalAmount" }] adds the amounts of a group up, without
    loss on the way (as the store adds integers, and doubles in a
    compensated sum), and the total reaches the response as a double;
    [{ $sum: 1 }] counts. *)
Definition salesAnalytics (st : Store) (matchStage : MatchStage.t)
    : list MonthlySales.t :=
  let rows := match_stage (matches matchStage) (orders st) in
  let groups :=
    group_stage MonthId.eqb month_id (0, 0)
      (fun acc o => (fst acc + Order.totalAmount o, snd acc + 1)) rows in
  let docs :=
    map (fun g => {| MonthlySales._id := fst g;
                     MonthlySales.totalSales := js_double (fst (snd g));
                     MonthlySales.orderCount := snd (snd g) |}) groups in
  sort_stage
    (fun a b => MonthId.leb (MonthlySales._id a) (MonthlySales._id b)) docs.

Definition topProducts (st : Store) (matchStage : MatchStage.t)
    : list TopProduct.t :=
  let rows := match_stage (matches matchStage) (orders st) in
  let items := order_items (orderdetails st) rows in
  let groups :=
    group_stage N.eqb (fun r => OrderDetail.productId (snd r)) (0, JsInt 0)
      product_step items in
  let docs := map product_group groups in
  let sorted :=
    sort_stage
      (fun a b => ProductGroup.totalQuantity b <=? ProductGroup.totalQuantity a)
      docs in
  let top := limit_stage 10 sorted in
  let joined :=
    lookup_stage (fun g p => N.eqb (ProductGroup._id g) (Product._id p))
      (products st) top in
  map (fun r => {| TopProduct._id := ProductGroup._id (fst r);
                   TopProduct.totalQuantity := ProductGroup.totalQuantity (fst r);
                   TopProduct.totalRevenue := ProductGroup.totalRevenue (fst r);
                   TopProduct.product := snd r |})
    (unwind_stage joined).

Definition get_analytics_sales (st : Store) (q : SalesQuery)
    : Response SalesAnalytics :=
  let matchStage := matchStage_of q in
  res_json {| salesByMonth := salesAnalytics st matchStage;
              topSellingProducts := topProducts st matchStage |}.
End Sales.

(** ** GET /analytics/products *)

Module Populated.
(** A product after [populate("brandId", "name")]. *)
Record t : Type := mk {
  doc : Product.t;
  brand : option Brand.t
}.
End Populated.

Module ProductSales.
Record t : Type := mk {
  _id : ObjectId;
  totalSales : Z
}.
End ProductSales.

Record ProductAnalytics : Type := {
  lowStockProducts : list Populated.t;
  noSalesProducts : list Populated.t;
  productSales : list ProductSales.t
}.

Definition populate_brand (st : Store) (p : Product.t) : Populated.t :=
  {| Populated.doc := p;
     Populated.brand :=
       find (fun b => N.eqb (Brand._id b) (Product.brandId p)) (brands st) |}.

Section Products.
Context {RT : Runtime}.

(** [d.getDate()]: the date of the month on the wall clock of the server. *)
Definition getDate (d : Date) : Z := date_of (LocalTime d).

(** [d.setDate(dt)]: the wall clock keeps its year, its month and its time
    within the day and takes [dt] for the date of the month; the new value
    is the instant of that reading.  Dates are taken within the range of
    time values, where [TimeClip] changes nothing. *)
Definition setDate (d : Date) (dt : Z) : Date :=
  let t := LocalTime d in
  UTC (MakeDate (MakeDay (year_of t) (month_of t) dt) (TimeWithinDay t)).

(** [thirtyDaysAgo.setDate(thirtyDaysAgo.getDate() - 30)] on [new Date()] *)
Definition thirtyDaysAgo (now : Date) : Date := setDate now (getDate now - 30).

Definition recent_completed (now : Date) (o : Order.t) : bool :=
  (thirtyDaysAgo now <=? Order.orderDate o) &&
  String.eqb (Order.status o) "completed".

Definition productSales_of (st : Store) (now : Date) : list ProductSales.t :=
  let rows := match_stage (recent_completed now) (orders st) in
  let items := order_items (orderdetails st) rows in
  let groups :=
    group_stage N.eqb (fun r => OrderDetail.productId (snd r)) 0
      (fun acc r => acc + OrderDetail.quantity (snd r)) items in
  map (fun g => {| ProductSales._id := fst g;
                   ProductSales.totalSales := snd g |}) groups.

Definition get_analytics_products (st : Store) (now : Date)
    : Response ProductAnalytics :=
  let lowStockProducts :=
    map (populate_brand st)
      (filter (fun p => Product.stockQuantity p <? 10) (products st)) in
  let productSales := productSales_of st now in
  let soldProductIds := map ProductSales._id productSales in
  let noSalesProducts :=
    map (populate_brand st)
      (filter (fun p => negb (existsb (N.eqb (Product._id p)) soldProductIds))
         (products st)) in
  res_json {| lowStockProducts := lowStockProducts;
              noSalesProducts := noSalesProducts;
              productSales := productSales |}.
End Products.

(** ** GET /customers *)

Record CustomersQuery : Type := {
  search : option string;
  sortBy : option string;
  page : option string;
  limit : option string
}.

Module CustomerList.
Record t : Type := mk {
  customers : list Customer.t;
  totalPages : JsNumber;
  currentPage : JsNumber;
  total : Z
}.
End CustomerList.

(** [{ path: { $regex: pattern, $options: "i" } }] *)
Inductive Condition : Type :=
| Regex (path pattern : string).

(** [{}] or [{ $or: [...] }] *)
Inductive Filter : Type :=
| FilterAll
| FilterOr (conds : list Condition).

(** The values the store orders documents by. *)
Inductive BsonValue : Type :=
| BNull
| BString (s : string)
| BObjectId (n : N).

Definition bson_rank (v : BsonValue) : Z :=
  match v with
  | BNull => 0
  | BString _ => 1
  | BObjectId _ => 2
  end.

(** Values of different types are ordered by type, strings by their bytes. *)
Definition bson_leb (a b : BsonValue) : bool :=
  match a, b with
  | BString s, BString t => String.leb s t
  | BObjectId m, BObjectId n => N.leb m n
  | _, _ => bson_rank a <=? bson_rank b
  end.

(** The value of a customer at a path; a path the document lacks reads as
    null. *)
Definition customer_path (path : string) (c : Customer.t) : BsonValue :=
  if String.eqb path "_id" then BObjectId (Customer._id c)
  else if String.eqb path "name" then BString (Customer.name c)
  else if String.eqb path "email" then BString (Customer.email c)
  else if String.eqb path "status" then BString (Customer.status c)
  else BNull.

Definition filter_of (search : option string) : Filter :=
  match search with
  | Some s =>
      if truthy (Some s) then FilterOr [Regex "name" s; Regex "email" s]
      else FilterAll
  | None => FilterAll
  end.

(** [const [field, order] = sortBy.split(":"); sort[field] = order === "desc" ? -1 : 1] *)
Definition sort_of (sortBy : option string) : option (string * Z) :=
  match sortBy with
  | Some s =>
      if truthy (Some s) then
        let parts := split_colon s in
        let field := hd EmptyString parts in
        let order := nth_error parts 1 in
        Some (field,
              match order with
              | Some o => if String.eqb o "desc" then -1 else 1
              | None => 1
              end)
      else None
  | None => None
  end.

(** The order of a sort key [{ [field]: dir }]: ascending, or reversed when
    [dir] is [-1]. *)
Definition sort_leb (field : string) (dir : Z) (a b : Customer.t) : bool :=
  if dir =? -1 then bson_leb (customer_path field b) (customer_path field a)
  else bson_leb (customer_path field a) (customer_path field b).

Section Customers.
Context {RT : Runtime}.

(** [Query.sort]: no key, no sort; direction [-1] reverses the order. *)
Definition apply_sort (sort : option (string * Z)) (docs : list Customer.t)
    : Result (list Customer.t) :=
  match sort with
  | None => Ok docs
  | Some (field, dir) =>
      if sort_path_ok field then
        Ok (sort_stage (sort_leb field dir) docs)
      else Throw (ServerError "sort")
  end.

(** The store reads the skip as an integer and refuses a negative one. *)
Definition apply_skip (skip : JsNumber) (docs : list Customer.t)
    : Result (list Customer.t) :=
  match (match skip with JsInt n => Some n | _ => safeNumber skip end) with
  | Some n =>
      if n <? 0 then Throw (ServerError "skip")
      else Ok (skipn (Z.to_nat n) docs)
  | None => Throw (ServerError "skip")
  end.

(** A limit of 0 (or none) is no limit; the driver sends a negative limit
    as its absolute value. *)
Definition apply_limit (limit : option JsNumber) (docs : list Customer.t)
    : Result (list Customer.t) :=
  match limit with
  | None => Ok docs
  | Some l =>
      match (match l with JsInt n => Some n | _ => safeNumber l end) with
      | Some 0 => Ok docs
      | Some n => Ok (firstn (Z.to_nat (Z.abs n)) docs)
      | None => Throw (ServerError "limit")
      end
  end.

Definition compile_condition (c : Condition)
    : Result (Customer.t -> bool) :=
  match c with
  | Regex path pattern =>
      match RegExp_i pattern with
      | Some test =>
          Ok (fun doc =>
                match customer_path path doc with
                | BString s => test s
                | _ => false
                end)
      | None => Throw (ServerError "$regex")
      end
  end.

Fixpoint compile_or (conds : list Condition) : Result (Customer.t -> bool) :=
  match conds with
  | [] => Ok (fun _ => false)
  | c :: rest =>
      p <- compile_condition c ;;
      q <- compile_or rest ;;
      Ok (fun doc => p doc || q doc)
  end.

Definition compile_filter (f : Filter) : Result (Customer.t -> bool) :=
  match f with
  | FilterAll => Ok (fun _ => true)
  | FilterOr conds => compile_or conds
  end.

(** [Customer.find(filter)] *)
Definition find_customers (st : Store) (f : Filter)
    : Result (list Customer.t) :=
  p <- compile_filter f ;;
  Ok (filter p (customers st)).

(** [Customer.countDocuments(filter)] *)
Definition countDocuments (st : Store) (f : Filter) : Result Z :=
  docs <- find_customers st f ;;
  Ok (Z.of_nat (List.length docs)).

(** [Query.limit(v)] casts a string: the empty string to null, any other
    with [Number], failing on NaN. *)
Definition query_limit (v : JsValue) : Result (option JsNumber) :=
  match v with
  | JsString s =>
      if String.eqb s EmptyString then Ok None
      else match ToNumber s with
           | JsNaN => Throw (CastError "Number" "limit")
           | n => Ok (Some n)
           end
  | JsNum n => Ok (Some n)
  end.

Definition list_customers (st : Store) (q : CustomersQuery)
    : Result CustomerList.t :=
  let page := match page q with Some s => JsString s | None => JsNum (JsInt 1) end in
  let limit := match limit q with Some s => JsString s | None => JsNum (JsInt 10) end in
  let filter := filter_of (search q) in
  let sort := sort_of (sortBy q) in
  let skip := js_mul (js_sub (to_number page) (JsInt 1)) (to_number limit) in
  lim <- query_limit limit ;;
  found <- find_customers st filter ;;
  sorted <- apply_sort sort found ;;
  skipped <- apply_skip skip sorted ;;
  customers <- apply_limit lim skipped ;;
  total <- countDocuments st filter ;;
  Ok {| CustomerList.customers := customers;
        CustomerList.totalPages := js_ceil_div total (to_number limit);
        CustomerList.currentPage := js_parseInt page;
        CustomerList.total := total |}.

Definition get_customers (st : Store) (q : CustomersQuery)
    : Response CustomerList.t :=
  match list_customers st q with
  | Ok r => res_json r
  | Throw error => res_status_message 500 (ErrorMessage error)
  end.
End Customers.

(** ** PATCH /customers/:id/status *)

Record StatusBody : Type := {
  status : option string
}.

Definition set_status (status : option string) (c : Customer.t) : Customer.t :=
  match status with
  | Some s =>
      {| Customer._id := Customer._id c;
         Customer.name := Customer.name c;
         Customer.email := Customer.email c;
         Customer.status := s |}
  | None => c
  end.

(** The first document with the id is replaced by its update, which is
    returned ([{ new: true }]); without one the collection is left as it is
    and the result is null. *)
Fixpoint update_by_id (id : ObjectId) (status : option string)
    (docs : list Customer.t) : list Customer.t * option Customer.t :=
  match docs with
  | [] => ([], None)
  | c :: rest =>
      if N.eqb (Customer._id c) id then
        (set_status status c :: rest, Some (set_status status c))
      else
        let r := update_by_id id status rest in
        (c :: fst r, snd r)
  end.

Definition with_customers (st : Store) (cs : list Customer.t) : Store :=
  {| customers := cs;
     orders := orders st;
     orderdetails := orderdetails st;
     products := products st;
     brands := brands st |}.

Section Status.
Context {RT : Runtime}.

(** [Customer.findByIdAndUpdate(id, { status }, { new: true })] *)
Definition findByIdAndUpdate (st : Store) (id : string)
    (status : option string) : Result (Store * option Customer.t) :=
  match castObjectId id with
  | None => Throw (CastError "ObjectId" "_id")
  | Some oid =>
      let r := update_by_id oid status (customers st) in
      Ok (with_customers st (fst r), snd r)
  end.

Definition patch_customer_status (st : Store) (id : string) (b : StatusBody)
    : Store * Response Customer.t :=
  match findByIdAndUpdate st id (status b) with
  | Ok (st', Some customer) => (st', res_json customer)
  | Ok (st', None) => (st', res_status_message 404 (Text "Customer not found"))
  | Throw error => (st, res_status_message 400 (ErrorMessage error))
  end.
End Status.

(** ** Case-insensitive substring search

    What the description of the search says: the subject contains the
    search string, letters compared without case.  Strings are sequences of
    bytes and the letters are those of ASCII; the statement on the search
    is about search strings, names and emails of ASCII characters. *)

Definition lower (c : ascii) : ascii :=
  let n := N_of_ascii c in
  if (65 <=? n)%N && (n <=? 90)%N then ascii_of_N (n + 32) else c.

Fixpoint lower_string (s : string) : string :=
  match s with
  | EmptyString => EmptyString
  | String c s' => String (lower c) (lower_string s')
  end.

Fixpoint prefix_ci (p s : string) : bool :=
  match p, s with
  | EmptyString, _ => true
  | String a p', String b s' => Ascii.eqb (lower a) (lower b) && prefix_ci p' s'
  | String _ _, EmptyString => false
  end.

Fixpoint contains_ci (p s : string) : bool :=
  prefix_ci p s ||
  match s with
  | EmptyString => false
  | String _ s' => contains_ci p s'
  end.

(** The same as a proposition. *)
Definition Substring_ci (p s : string) : Prop :=
  exists pre suf : string,
    lower_string s = (pre ++ lower_string p ++ suf)%string.

(** The metacharacters of a pattern ([092] is the backslash). *)
Definition is_meta (c : ascii) : bool :=
  existsb (Ascii.eqb c)
    ["092"; "^"; "$"; "."; "|"; "?"; "*"; "+"; "("; ")"; "["; "]"; "{"; "}"]%char.

Fixpoint literal (p : string) : bool :=
  match p with
  | EmptyString => true
  | String c p' => negb (is_meta c) && literal p'
  end.

(** A string of ASCII characters, and one of printable ASCII characters
    (the codes 32 to 126). *)
Fixpoint ascii_only (s : string) : bool :=
  match s with
  | EmptyString => true
  | String c s' => (N_of_ascii c <? 128)%N && ascii_only s'
  end.

Fixpoint printable (s : string) : bool :=
  match s with
  | EmptyString => true
  | String c s' =>
      (32 <=? N_of_ascii c)%N && (N_of_ascii c <? 127)%N && printable s'
  end.

(** A fact of the store that the theorem on the search assumes: a pattern
    of printable ASCII characters without metacharacters, compiled with
    option [i], searches the subjects of ASCII characters for itself without
    regard to case.  Nothing is assumed of a pattern or a subject with other
    characters, which an engine may refuse or fold in a way of its own. *)
Definition Regex_literal (RT : Runtime) : Prop :=
  forall p : string, literal p = true -> printable p = true ->
    exists test, RegExp_i p = Some test /\
      forall s, ascii_only s = true -> test s = contains_ci p s.

(** ** A reference runtime

    An instance of [Runtime] to evaluate the handlers with.  It reads the
    literals a client sends for these parameters; the general theorems hold
    for every runtime.
    - [Number] and [parseInt]: decimal integers with an optional sign, and
      [Infinity]; other numeric literals of the language read as NaN here.
    - regular expressions: the patterns made of ordinary characters and [.]
      (any character but a line feed); a pattern with another metacharacter
      is refused here, though the store accepts many of those.
    - dates: [YYYY-MM-DD], midnight UTC; another string reads as the epoch.
    - object ids: 24 hexadecimal digits.
    - sort paths: dot-separated names, none empty, none starting with [$].
    - a skip or limit that is no integer: NaN reads as 0, an infinity as the
      nearest 64-bit integer.
    - the wall clock: the one of a server that runs on UTC. *)

Definition digit_of (c : ascii) : option Z :=
  let n := Z.of_N (N_of_ascii c) in
  if (48 <=? n) && (n <=? 57) then Some (n - 48) else None.

Fixpoint digits_value (acc : Z) (s : string) : option Z :=
  match s with
  | EmptyString => Some acc
  | String c s' =>
      match digit_of c with
      | Some d => digits_value (10 * acc + d) s'
      | None => None
      end
  end.

Definition unsigned_number (s : string) : JsNumber :=
  match s with
  | EmptyString => JsNaN
  | _ =>
      if String.eqb s "Infinity" then JsPosInf
      else match digits_value 0 s with
           | Some z => JsInt z
           | None => JsNaN
           end
  end.

Definition ref_ToNumber (s : string) : JsNumber :=
  match s with
  | EmptyString => JsInt 0
  | String "-" s' => js_neg (unsigned_number s')
  | String "+" s' => unsigned_number s'
  | _ => unsigned_number s
  end.

Definition ref_parseInt (s : string) : JsNumber :=
  match s with
  | String "-" s' =>
      match digits_value 0 s' with
      | Some z => if String.eqb s' EmptyString then JsNaN else JsInt (- z)
      | None => JsNaN
      end
  | _ =>
      match digits_value 0 s with
      | Some z => if String.eqb s EmptyString then JsNaN else JsInt z
      | None => JsNaN
      end
  end.

Inductive Atom : Type :=
| AChar (c : ascii)
| AAny.

Fixpoint parse_pattern (p : string) : option (list Atom) :=
  match p with
  | EmptyString => Some []
  | String c p' =>
      match parse_pattern p' with
      | Some atoms =>
          if Ascii.eqb c "." then Some (AAny :: atoms)
          else if is_meta c then None
          else Some (AChar c :: atoms)
      | None => None
      end
  end.

Definition atom_matches (a : Atom) (c : ascii) : bool :=
  match a with
  | AChar x => Ascii.eqb (lower x) (lower c)
  | AAny => negb (Ascii.eqb c "010")
  end.

Fixpoint match_here (atoms : list Atom) (s : string) : bool :=
  match atoms, s with
  | [], _ => true
  | a :: atoms', String c s' => atom_matches a c && match_here atoms' s'
  | _ :: _, EmptyString => false
  end.

Fixpoint match_anywhere (atoms : list Atom) (s : string) : bool :=
  match_here atoms s ||
  match s with
  | EmptyString => false
  | String _ s' => match_anywhere atoms s'
  end.

Definition ref_RegExp_i (p : string) : option (string -> bool) :=
  match parse_pattern p with
  | Some atoms => Some (match_anywhere atoms)
  | None => None
  end.

Definition ref_new_Date (s : string) : Date :=
  match digits_value 0 (substring 0 4 s),
        digits_value 0 (substring 5 2 s),
        digits_value 0 (substring 8 2 s) with
  | Some y, Some m, Some d =>
      if (String.length s =? 10)%nat
         && String.eqb (substring 4 1 s) "-" && String.eqb (substring 7 1 s) "-"
         && (1 <=? m) && (m <=? 12) && (1 <=? d) && (d <=? 31)
      then days_from_civil y m d * msPerDay
      else 0
  | _, _, _ => 0
  end.

Definition hex_digit_of (c : ascii) : option N :=
  let n := N_of_ascii c in
  if (48 <=? n)%N && (n <=? 57)%N then Some (n - 48)%N
  else if (97 <=? n)%N && (n <=? 102)%N then Some (n - 87)%N
  else if (65 <=? n)%N && (n <=? 70)%N then Some (n - 55)%N
  else None.

Fixpoint hex_value (acc : N) (s : string) : option N :=
  match s with
  | EmptyString => Some acc
  | String c s' =>
      match hex_digit_of c with
      | Some d => hex_value (16 * acc + d)%N s'
      | None => None
      end
  end.

Definition ref_castObjectId (s : string) : option ObjectId :=
  if (String.length s =? 24)%nat then hex_value 0%N s else None.

Fixpoint path_ok_aux (start : bool) (s : string) : bool :=
  match s with
  | EmptyString => negb start
  | String c s' =>
      if Ascii.eqb c "." then negb start && path_ok_aux true s'
      else if start && Ascii.eqb c "$" then false
      else path_ok_aux false s'
  end.

Definition ref_sort_path_ok (s : string) : bool := path_ok_aux true s.

Definition ref_safeNumber (n : JsNumber) : option Z :=
  match n with
  | JsInt z => Some z
  | JsNaN => Some 0
  | JsPosInf => Some (2 ^ 63 - 1)
  | JsNegInf => Some (- 2 ^ 63)
  end.

Definition ref_runtime : Runtime :=
  {| ToNumber := ref_ToNumber;
     parseInt := ref_parseInt;
     RegExp_i := ref_RegExp_i;
     new_Date := ref_new_Date;
     castObjectId := ref_castObjectId;
     sort_path_ok := ref_sort_path_ok;
     safeNumber := ref_safeNumber;
     LocalTime := fun t => t;
     UTC := fun t => t |}.


(** ** Notions of the specification

    The words of the description of the analytics, to state the results
    with. *)

Section SalesNotions.
Context {RT : Runtime}.

(** An order counts for the sales of a request: it is completed and, when
    the request gives a range (both bounds, neither empty), dated within
    it, bounds included. *)
Definition in_scope (q : SalesQuery) (o : Order.t) : Prop :=
  Order.status o = "completed" /\
  forall s e : string,
    startDate q = Some s -> endDate q = Some e ->
    s <> EmptyString -> e <> EmptyString ->
    new_Date s <= Order.orderDate o <= new_Date e.

Definition selects (q : SalesQuery) (o : Order.t) : bool :=
  String.eqb (Order.status o) "completed" &&
  match startDate q, endDate q with
  | Some s, Some e =>
      String.eqb s EmptyString || String.eqb e EmptyString ||
      ((new_Date s <=? Order.orderDate o) && (Order.orderDate o <=? new_Date e))
  | _, _ => true
  end.

(** The line items of a product in the orders that count. *)
Definition line_items (st : Store) (q : SalesQuery) (pid : ObjectId)
    : list OrderDetail.t :=
  filter
    (fun d =>
       N.eqb (OrderDetail.productId d) pid &&
       existsb (fun o => selects q o && N.eqb (Order._id o) (OrderDetail.orderId d))
         (orders st))
    (orderdetails st).
End SalesNotions.

(** The pipeline of the top products up to [$limit], before the lookup of
    the products. *)
Definition top_groups (st : Store) (m : MatchStage.t) : list ProductGroup.t :=
  limit_stage 10
    (sort_stage
       (fun a b => ProductGroup.totalQuantity b <=? ProductGroup.totalQuantity a)
       (map product_group
          (group_stage N.eqb (fun r => OrderDetail.productId (snd r)) (0, JsInt 0)
             product_step
             (order_items (orderdetails st) (filter (matches m) (orders st)))))).

(** No range at all. *)
Definition no_range : SalesQuery := {| startDate := None; endDate := None |}.

(** The instant [t] lies in the month [m] of the year [y] of the calendar
    (UTC): the month is one of the twelve, and [t] is not before the first
    instant of its first day and is before the first instant of the month
    after it. *)
Definition in_month (y m : Z) (t : Date) : bool :=
  (1 <=? m) && (m <=? 12) && (date y m 1 <=? t) &&
  (t <? (if m =? 12 then date (y + 1) 1 1 else date y (m + 1) 1)).

(** The sum of numbers of a response, as the language adds them. *)
Definition js_sum (l : list JsNumber) : JsNumber := fold_right js_add (JsInt 0) l.

(** The totals of the store are exact as doubles: the magnitudes of the
    amounts of all orders add up to less than 2^53, and so do the
    magnitudes of quantity x unitPrice of all line items. *)
Definition exact_amounts (st : Store) : Prop :=
  sumZ (map (fun o => Z.abs (Order.totalAmount o)) (orders st)) < 2 ^ 53.

Definition exact_revenues (st : Store) : Prop :=
  sumZ (map (fun d => Z.abs (OrderDetail.quantity d * OrderDetail.unitPrice d))
          (orderdetails st)) < 2 ^ 53.

Section ProductNotions.
Context {RT : Runtime}.

(** Thirty days before [now] on the calendar of the server: the instant at
    which its wall clock read what it reads at [now] less 30 days, the same
    time of day 30 dates earlier. *)
Definition thirty_days_before (now : Date) : Date :=
  UTC (LocalTime now - 30 * msPerDay).

(** A product was sold in the 30 days before [now]: a completed order dated
    in the window has a line item of it. *)
Definition sold_recently (st : Store) (now : Date) (pid : ObjectId) : Prop :=
  exists (o : Order.t) (d : OrderDetail.t),
    In o (orders st) /\ In d (orderdetails st) /\
    Order.status o = "completed" /\
    thirty_days_before now <= Order.orderDate o /\
    OrderDetail.orderId d = Order._id o /\
    OrderDetail.productId d = pid.

Definition recent_line_items (st : Store) (now : Date) (pid : ObjectId)
    : list OrderDetail.t :=
  filter
    (fun d =>
       N.eqb (OrderDetail.productId d) pid &&
       existsb
         (fun o =>
            String.eqb (Order.status o) "completed" &&
            (thirty_days_before now <=? Order.orderDate o) &&
            N.eqb (Order._id o) (OrderDetail.orderId d))
         (orders st))
    (orderdetails st).
End ProductNotions.

(** *** The customer list *)

(** The text of a sort parameter before its first colon, and the text after
    it. *)
Fixpoint before_colon (s : string) : string :=
  match s with
  | EmptyString => EmptyString
  | String c s' =>
      if Ascii.eqb c ":" then EmptyString else String c (before_colon s')
  end.

Fixpoint after_colon (s : string) : option string :=
  match s with
  | EmptyString => None
  | String c s' => if Ascii.eqb c ":" then Some s' else after_colon s'
  end.

Fixpoint no_colon (s : string) : bool :=
  match s with
  | EmptyString => true
  | String c s' => negb (Ascii.eqb c ":") && no_colon s'
  end.

(** The field a sort parameter names, and whether it asks for the
    descending order: its second part, the text between its first colon and
    the next one or the end, is [desc]. *)
Definition sort_field (s : string) : string := before_colon s.

Definition sort_descending (s : string) : bool :=
  match after_colon s with
  | Some rest => String.eqb (before_colon rest) "desc"
  | None => false
  end.

Definition sort_direction (s : string) : Z :=
  if sort_descending s then -1 else 1.

(** A page or limit parameter that stands for the integer [n]: absent, it is
    the default. *)
Definition reads_as {RT : Runtime} (v : option string) (default n : Z) : Prop :=
  match v with
  | None => n = default
  | Some s => ToNumber s = JsInt n
  end.

(** The name or the email of a customer contains the search string. *)
Definition name_or_email_contains (s : string) (c : Customer.t) : bool :=
  contains_ci s (Customer.name c) || contains_ci s (Customer.email c).

(** ** Sample data *)

Definition john : Customer.t :=
  Customer.mk 1 "John" "john@example.com" "active".
Definition bob : Customer.t :=
  Customer.mk 2 "Bob" "bob@shop" "active".
Definition alice : Customer.t :=
  Customer.mk 3 "Alice" "alice@shop" "blocked".

Definition lotion : Product.t :=
  Product.mk 10 "Day lotion" "lotion" "dry" None (Some "unisex") 1 1 None 4
    [("texture", "light")] (date 2023 11 2) (date 2023 11 2).
Definition serum : Product.t :=
  Product.mk 11 "Night serum" "serum" "oily" (Some "30+") None 1 2 None 25
    [] (date 2023 11 5) (date 2024 1 9).

(** Four orders, one of them pending; the product 12 of the last line item
    is no longer in the catalogue. *)
Definition sample_store : Store :=
  {| customers := [john; bob; alice];
     orders :=
       [ Order.mk 1 1 7 (date 2024 1 15) 100 "completed";
         Order.mk 2 2 7 (date 2024 2 3) 250 "completed";
         Order.mk 3 3 7 (date 2024 2 20) 40 "pending";
         Order.mk 4 1 7 (date 2024 2 25) 60 "completed" ];
     orderdetails :=
       [ OrderDetail.mk 1 10 3 10;
         OrderDetail.mk 2 10 1 10;
         OrderDetail.mk 2 11 5 48;
         OrderDetail.mk 3 11 1 40;
         OrderDetail.mk 4 12 2 30 ];
     products := [lotion; serum];
     brands := [Brand.mk 1 "Pharma"] |}.

(** Ten products sold in one completed order, the tenth gone from the
    catalogue. *)
Definition ten_ids : list N := map N.of_nat (seq 1 10).

Definition ten_sold_store : Store :=
  {| customers := [john];
     orders := [Order.mk 1 1 7 (date 2024 1 15) 55 "completed"];
     orderdetails :=
       map (fun i => OrderDetail.mk 1 i (Z.of_N i) 1) ten_ids;
     products :=
       map (fun i => Product.mk i "item" "other" "normal" None None 1 1 None 0
                     [] (date 2023 11 2) (date 2023 11 2))
         (removelast ten_ids);
     brands := [] |}.

(** The salesByMonth of a response, empty for an error. *)
Definition salesByMonth_of (r : Response SalesAnalytics) : list MonthlySales.t :=
  match body r with
  | Json a => salesByMonth a
  | JsonMessage _ => []
  end.

(** Two completed orders of one month whose amounts add up to 2^53 + 1,
    which is no double. *)
Definition big_total_store : Store :=
  {| customers := [john];
     orders :=
       [ Order.mk 1 1 7 (date 2024 1 15) 9007199254740992 "completed";
         Order.mk 2 1 7 (date 2024 1 20) 1 "completed" ];
     orderdetails := [];
     products := [];
     brands := [] |}.

(** Three units at the price 2^53 - 1: the product is no double. *)
Definition big_price_store : Store :=
  {| customers := [john];
     orders := [Order.mk 1 1 7 (date 2024 1 15) 0 "completed"];
     orderdetails := [OrderDetail.mk 1 10 3 9007199254740991];
     products := [lotion];
     brands := [Brand.mk 1 "Pharma"] |}.

(** Requests. *)
Definition only_start : SalesQuery :=
  {| startDate := Some "2024-02-01"; endDate := None |}.

Definition january : SalesQuery :=
  {| startDate := Some "2024-01-01"; endDate := Some "2024-01-31" |}.

Definition all_customers : CustomersQuery :=
  {| search := None; sortBy := None; page := None; limit := None |}.

Definition second_page_of_two : CustomersQuery :=
  {| search := None; sortBy := None; page := Some "2"; limit := Some "2" |}.

Definition search_jo : CustomersQuery :=
  {| search := Some "jo"; sortBy := None; page := None; limit := None |}.

Definition search_dot : CustomersQuery :=
  {| search := Some "."; sortBy := None; page := None; limit := None |}.

Definition sort_name : CustomersQuery :=
  {| search := None; sortBy := Some "name"; page := None; limit := None |}.

Definition sort_name_desc : CustomersQuery :=
  {| search := None; sortBy := Some "name:desc"; page := None; limit := None |}.

Definition limit_abc : CustomersQuery :=
  {| search := None; sortBy := None; page := None; limit := Some "abc" |}.

Definition page_abc : CustomersQuery :=
  {| search := None; sortBy := None; page := Some "abc"; limit := None |}.

Definition block : StatusBody := {| status := Some "blocked" |}.

(** ** GET /customers/:id *)

(** Modelled from the spec: the collection that [staffId] refers to, of
    which the route populates the name; its model is not among the sources
    and the collection is given to the handler beside the store. *)
Module Staff.
Record t : Type := mk {
  _id : ObjectId;
  name : string
}.
End Staff.

Module PopulatedOrder.
(** An order after [populate("staffId", "name")]. *)
Record t : Type := mk {
  doc : Order.t;
  staff : option Staff.t
}.
End PopulatedOrder.

Module CustomerDetail.
Record t : Type := mk {
  customer : Customer.t;
  orders : list PopulatedOrder.t
}.
End CustomerDetail.

Definition populate_staff (staff : list Staff.t) (o : Order.t) : PopulatedOrder.t :=
  {| PopulatedOrder.doc := o;
     PopulatedOrder.staff :=
       find (fun m => N.eqb (Staff._id m) (Order.staffId o)) staff |}.

(** [Order.find({ customerId }).sort({ orderDate: -1 }).populate("staffId", "name")] *)
Definition orders_of (st : Store) (staff : list Staff.t) (customer : Customer.t)
    : list PopulatedOrder.t :=
  map (populate_staff staff)
    (sort_stage (fun a b => Order.orderDate b <=? Order.orderDate a)
       (filter (fun o => N.eqb (Order.customerId o) (Customer._id customer))
          (orders st))).

Section CustomerDetails.
Context {RT : Runtime}.

(** [Customer.findById(id)]: the first document with the id, or null. *)
Definition findById (st : Store) (id : string) : Result (option Customer.t) :=
  match castObjectId id with
  | None => Throw (CastError "ObjectId" "_id")
  | Some oid => Ok (find (fun c => N.eqb (Customer._id c) oid) (customers st))
  end.

Definition get_customer (st : Store) (staff : list Staff.t) (id : string)
    : Response CustomerDetail.t :=
  match findById st id with
  | Ok (Some customer) =>
      res_json {| CustomerDetail.customer := customer;
                  CustomerDetail.orders := orders_of st staff customer |}
  | Ok None => res_status_message 404 (Text "Customer not found")
  | Throw error => res_status_message 500 (ErrorMessage error)
  end.
End CustomerDetails.

(** The groups of the top products before [$sort] and [$limit]. *)
Definition product_groups (st : Store) (m : MatchStage.t) : list ProductGroup.t :=
  map product_group
    (group_stage N.eqb (fun r => OrderDetail.productId (snd r)) (0, JsInt 0)
       product_step
       (order_items (orderdetails st) (filter (matches m) (orders st)))).

(** ** The Product schema

    The validators that the schema of [backend/models/Product.js] declares,
    applied to the paths given to [new Product(...)]: a path is absent or has
    a value; absent, [stockQuantity] and [aiFeatures] take their defaults. *)

Module ProductInput.
Record t : Type := mk {
  name : option string;
  function : option string;
  skinGroup : option string;
  ageGroup : option string;
  genderTarget : option string;
  brandId : option ObjectId;
  categoryId : option ObjectId;
  imageUrl : option string;
  stockQuantity : option Z;
  aiFeatures : option (list (string * string))
}.
End ProductInput.

Definition function_values : list string :=
  ["lotion"; "wash"; "cream"; "serum"; "mask"; "other"].
Definition skinGroup_values : list string :=
  ["oily"; "dry"; "combination"; "sensitive"; "normal"].
Definition genderTarget_values : list string := ["male"; "female"; "unisex"].

Inductive ValidatorError : Type :=
| RequiredError (path : string)
| EnumError (path : string)
| MinError (path : string).

(** [required: true] on a string: present and not empty. *)
Definition required_string (path : string) (v : option string)
    : list ValidatorError :=
  match v with
  | Some s => if String.eqb s EmptyString then [RequiredError path] else []
  | None => [RequiredError path]
  end.

(** [required: true] on an object id. *)
Definition required_id (path : string) (v : option ObjectId)
    : list ValidatorError :=
  match v with
  | Some _ => []
  | None => [RequiredError path]
  end.

(** [enum: values]: an absent path passes. *)
Definition enum_string (path : string) (values : list string) (v : option string)
    : list ValidatorError :=
  match v with
  | Some s => if existsb (String.eqb s) values then [] else [EnumError path]
  | None => []
  end.

(** [min: 0] *)
Definition min_zero (path : string) (v : Z) : list ValidatorError :=
  if v <? 0 then [MinError path] else [].

Definition stock_of (input : ProductInput.t) : Z :=
  match ProductInput.stockQuantity input with
  | Some n => n
  | None => 0
  end.

Definition validate_product (input : ProductInput.t) : list ValidatorError :=
  required_string "name" (ProductInput.name input) ++
  required_string "function" (ProductInput.function input) ++
  enum_string "function" function_values (ProductInput.function input) ++
  required_string "skinGroup" (ProductInput.skinGroup input) ++
  enum_string "skinGroup" skinGroup_values (ProductInput.skinGroup input) ++
  enum_string "genderTarget" genderTarget_values (ProductInput.genderTarget input) ++
  required_id "brandId" (ProductInput.brandId input) ++
  required_id "categoryId" (ProductInput.categoryId input) ++
  min_zero "stockQuantity" (stock_of input).

(** The document of a valid input, with its id and the time of its
    creation; the errors of an invalid one. *)
Definition new_product (id : ObjectId) (now : Date) (input : ProductInput.t)
    : Product.t + list ValidatorError :=
  match validate_product input,
        ProductInput.name input, ProductInput.function input,
        ProductInput.skinGroup input, ProductInput.brandId input,
        ProductInput.categoryId input with
  | [], Some name, Some function, Some skinGroup, Some brandId, Some categoryId =>
      inl {| Product._id := id;
             Product.name := name;
             Product.function := function;
             Product.skinGroup := skinGroup;
             Product.ageGroup := ProductInput.ageGroup input;
             Product.genderTarget := ProductInput.genderTarget input;
             Product.brandId := brandId;
             Product.categoryId := categoryId;
             Product.imageUrl := ProductInput.imageUrl input;
             Product.stockQuantity := stock_of input;
             Product.aiFeatures :=
               match ProductInput.aiFeatures input with
               | Some features => features
               | None => []
               end;
             Product.createdAt := now;
             Product.updatedAt := now |}
  | errors, _, _, _, _, _ => inr errors
  end.

Definition new_cream : ProductInput.t :=
  {| ProductInput.name := Some "Hand cream";
     ProductInput.function := Some "cream";
     ProductInput.skinGroup := Some "dry";
     ProductInput.ageGroup := None;
     ProductInput.genderTarget := None;
     ProductInput.brandId := Some 1%N;
     ProductInput.categoryId := Some 1%N;
     ProductInput.imageUrl := None;
     ProductInput.stockQuantity := None;
     ProductInput.aiFeatures := None |}.

(** ** The Account model

    [backend/models/Account.js] as far as it is code: the hook that hashes
    the password before a save, and the comparison of a candidate password.
    A document carries its fields and the paths modified since it was loaded
    or saved. *)

Module Account.
Record t : Type := mk {
  username : string;
  password : string;
  role : string;
  isVerified : bool;
  verificationToken : option string;
  verificationExpires : option Date
}.
End Account.

Module AccountDoc.
Record t : Type := mk {
  fields : Account.t;
  modifiedPaths : list string
}.
End AccountDoc.

(** The hashing library: [hash(password, salt)] and [compare(candidate,
    hashed)]. *)
Class Bcrypt : Type := {
  bcrypt_hash : string -> string -> Result string;
  bcrypt_compare : string -> string -> bool
}.

(** A fact of the library that the theorems on the round trip assume: a
    password compares equal to each of its hashes. *)
Definition Bcrypt_sound (B : Bcrypt) : Prop :=
  forall password salt hashed : string,
    bcrypt_hash password salt = Ok hashed ->
    bcrypt_compare password hashed = true.

(** [this.isModified(path)] *)
Definition isModified (path : string) (this : AccountDoc.t) : bool :=
  existsb (String.eqb path) (AccountDoc.modifiedPaths this).

Definition with_password (password : string) (a : Account.t) : Account.t :=
  {| Account.username := Account.username a;
     Account.password := password;
     Account.role := Account.role a;
     Account.isVerified := Account.isVerified a;
     Account.verificationToken := Account.verificationToken a;
     Account.verificationExpires := Account.verificationExpires a |}.

(** [doc.password = value]: the path is marked when the value changes. *)
Definition assign_password (value : string) (this : AccountDoc.t) : AccountDoc.t :=
  if String.eqb value (Account.password (AccountDoc.fields this)) then this
  else
    {| AccountDoc.fields := with_password value (AccountDoc.fields this);
       AccountDoc.modifiedPaths := "password" :: AccountDoc.modifiedPaths this |}.

(** [doc.username = value] *)
Definition assign_username (value : string) (this : AccountDoc.t) : AccountDoc.t :=
  if String.eqb value (Account.username (AccountDoc.fields this)) then this
  else
    {| AccountDoc.fields :=
         {| Account.username := value;
            Account.password := Account.password (AccountDoc.fields this);
            Account.role := Account.role (AccountDoc.fields this);
            Account.isVerified := Account.isVerified (AccountDoc.fields this);
            Account.verificationToken :=
              Account.verificationToken (AccountDoc.fields this);
            Account.verificationExpires :=
              Account.verificationExpires (AccountDoc.fields this) |};
       AccountDoc.modifiedPaths := "username" :: AccountDoc.modifiedPaths this |}.

(** [new Account({ username, password, role })]: [isVerified] takes its
    default and the given paths count as modified. *)
Definition new_account (username password role : string) : AccountDoc.t :=
  {| AccountDoc.fields :=
       {| Account.username := username;
          Account.password := password;
          Account.role := role;
          Account.isVerified := false;
          Account.verificationToken := None;
          Account.verificationExpires := None |};
     AccountDoc.modifiedPaths := ["username"; "password"; "role"] |}.

Section AccountHooks.
Context {B : Bcrypt}.

(** The hook of [pre("save")]; [salt] is what [bcrypt.genSalt(10)] yields
    in the run.  An error of the library goes to [next(error)]. *)
Definition pre_save (salt : Result string) (this : AccountDoc.t)
    : Result AccountDoc.t :=
  if negb (isModified "password" this) then Ok this
  else
    salt <- salt ;;
    hashed <- bcrypt_hash (Account.password (AccountDoc.fields this)) salt ;;
    Ok {| AccountDoc.fields := with_password hashed (AccountDoc.fields this);
          AccountDoc.modifiedPaths := AccountDoc.modifiedPaths this |}.

(** [doc.save()] as far as the hook goes: the hook runs, the document is
    written and its modifications are forgotten; a failing hook fails the
    save.  The validators of the schema (required paths, the roles) and the
    unique index on [username] can fail a save as well and are not part of
    this model: it tells what a save that succeeds has stored, not which
    saves succeed. *)
Definition save (salt : Result string) (this : AccountDoc.t)
    : Result AccountDoc.t :=
  hooked <- pre_save salt this ;;
  Ok {| AccountDoc.fields := AccountDoc.fields hooked;
        AccountDoc.modifiedPaths := [] |}.

(** [accountSchema.methods.comparePassword] *)
Definition comparePassword (this : AccountDoc.t) (candidatePassword : string)
    : bool :=
  bcrypt_compare candidatePassword (Account.password (AccountDoc.fields this)).
End AccountHooks.

(** A stand-in for the library, to evaluate the hook with: it marks the
    password instead of hashing it. *)
Definition marking_bcrypt : Bcrypt :=
  {| bcrypt_hash := fun password salt => Ok (String "#" password);
     bcrypt_compare := fun candidate hashed => String.eqb hashed (String "#" candidate) |}.

(** More sample data. *)
Definition sample_staff : list Staff.t := [Staff.mk 7 "Mai"].

Definition first_page_by_name : CustomersQuery :=
  {| search := None; sortBy := Some "name"; page := Some "1"; limit := Some "2" |}.

Definition second_page_by_name : CustomersQuery :=
  {| search := None; sortBy := Some "name"; page := Some "2"; limit := Some "2" |}.

Definition third_page_of_two : CustomersQuery :=
  {| search := None; sortBy := None; page := Some "3"; limit := Some "2" |}.

Definition page_zero : CustomersQuery :=
  {| search := None; sortBy := None; page := Some "0"; limit := None |}.

Definition limit_zero : CustomersQuery :=
  {| search := None; sortBy := None; page := None; limit := Some "0" |}.

Definition search_paren : CustomersQuery :=
  {| search := Some "("; sortBy := None; page := None; limit := None |}.

Definition backwards : SalesQuery :=
  {| startDate := Some "2024-02-01"; endDate := Some "2024-01-01" |}.

Definition activate : StatusBody := {| status := Some "active" |}.

(** * Facts about the operators *)

Lemma sumZ_app (l1 l2 : list Z) : sumZ (l1 ++ l2) = sumZ l1 + sumZ l2.
Proof.
  induction l1 as [|x l1 IH]; simpl; [reflexivity | rewrite IH; lia].
Qed.

Lemma fold_left_add {A : Type} (f : A -> Z) (l : list A) (z : Z) :
  fold_left (fun acc a => acc + f a) l z = z + sumZ (map f l).
Proof.
  revert z; induction l as [|a l IH]; intros z; simpl; [lia|].
  rewrite IH; lia.
Qed.

Lemma filter_nil_existsb {A : Type} (p : A -> bool) (l : list A) :
  existsb p l = false -> filter p l = [].
Proof.
  induction l as [|a l IH]; simpl; [reflexivity|].
  destruct (p a); simpl; [discriminate | exact IH].
Qed.

Section SortFacts.
Context {A : Type} (leb : A -> A -> bool).

Let le (a b : A) : Prop := leb a b = true.

Lemma insert_sorted_perm (a : A) (l : list A) :
  Permutation (a :: l) (insert_sorted leb a l).
Proof.
  induction l as [|b l IH]; simpl; [reflexivity|].
  destruct (leb a b); [reflexivity|].
  rewrite perm_swap; apply perm_skip, IH.
Qed.

Lemma sort_stage_perm (l : list A) : Permutation l (sort_stage leb l).
Proof.
  induction l as [|a l IH]; simpl; [constructor|].
  rewrite <- insert_sorted_perm; apply perm_skip, IH.
Qed.

Lemma sort_stage_in (l : list A) (a : A) : In a (sort_stage leb l) <-> In a l.
Proof.
  split; apply Permutation_in;
    [symmetry|]; apply sort_stage_perm.
Qed.

Lemma sort_stage_length (l : list A) :
  List.length (sort_stage leb l) = List.length l.
Proof. symmetry; apply Permutation_length, sort_stage_perm. Qed.

Hypothesis leb_total : forall a b, leb a b = true \/ leb b a = true.

Lemma insert_sorted_HdRel (a b : A) (l : list A) :
  le b a -> HdRel le b l -> HdRel le b (insert_sorted leb a l).
Proof.
  intros Hba Hl; destruct l as [|c l]; simpl.
  - constructor; exact Hba.
  - destruct (leb a c); constructor; [exact Hba|].
    inversion Hl; assumption.
Qed.

Lemma insert_sorted_Sorted (a : A) (l : list A) :
  Sorted le l -> Sorted le (insert_sorted leb a l).
Proof.
  induction l as [|b l IH]; intros Hs; simpl.
  - repeat constructor.
  - destruct (leb a b) eqn:Hab.
    + constructor; [exact Hs | constructor; exact Hab].
    + inversion Hs as [|? ? Hl Hb]; subst.
      constructor; [apply IH; exact Hl|].
      apply insert_sorted_HdRel; [|exact Hb].
      destruct (leb_total a b) as [H|H]; [congruence | exact H].
Qed.

Lemma sort_stage_Sorted (l : list A) : Sorted le (sort_stage leb l).
Proof.
  induction l as [|a l IH]; simpl; [constructor|].
  apply insert_sorted_Sorted, IH.
Qed.
End SortFacts.

Section GroupFacts.
Context {A K Acc : Type}.
Variables (eqb : K -> K -> bool) (key : A -> K)
          (init : Acc) (step : Acc -> A -> Acc).
Hypothesis eqb_eq : forall a b, eqb a b = true <-> a = b.

Let group := group_stage eqb key init step.

(** the rows of a key, in their order *)
Let rows_of (k : K) (rows : list A) : list A :=
  filter (fun a => eqb (key a) k) rows.

Lemma eqb_refl_K (k : K) : eqb k k = true.
Proof. apply eqb_eq; reflexivity. Qed.

Lemma eqb_sym_K (a b : K) : eqb a b = eqb b a.
Proof.
  destruct (eqb a b) eqn:E1, (eqb b a) eqn:E2; try reflexivity.
  - apply eqb_eq in E1; subst; rewrite eqb_refl_K in E2; discriminate.
  - apply eqb_eq in E2; subst; rewrite eqb_refl_K in E1; discriminate.
Qed.

Lemma assoc_upsert (k k' : K) (a : A) (g : list (K * Acc)) :
  assoc eqb k' (upsert eqb init step k a g) =
  if eqb k k' then
    Some (step (match assoc eqb k g with Some x => x | None => init end) a)
  else assoc eqb k' g.
Proof.
  induction g as [|[k0 x] g IH]; simpl.
  - rewrite (eqb_sym_K k' k); destruct (eqb k k'); reflexivity.
  - destruct (eqb k k0) eqn:E0; simpl.
    + apply eqb_eq in E0; subst k0.
      rewrite (eqb_sym_K k' k); destruct (eqb k k'); reflexivity.
    + destruct (eqb k' k0) eqn:E1.
      * apply eqb_eq in E1; subst k0. rewrite E0; reflexivity.
      * exact IH.
Qed.

Lemma upsert_keys (k k' : K) (a : A) (g : list (K * Acc)) :
  In k' (map fst (upsert eqb init step k a g)) <->
  k' = k \/ In k' (map fst g).
Proof.
  induction g as [|[k0 x] g IH]; simpl.
  - intuition.
  - destruct (eqb k k0) eqn:E0; simpl.
    + apply eqb_eq in E0; subst k0; intuition.
    + rewrite IH; intuition.
Qed.

Lemma upsert_NoDup (k : K) (a : A) (g : list (K * Acc)) :
  NoDup (map fst g) -> NoDup (map fst (upsert eqb init step k a g)).
Proof.
  induction g as [|[k0 x] g IH]; simpl; intros Hnd.
  - constructor; [intros [] | constructor].
  - inversion Hnd as [|? ? Hnin Hnd']; subst.
    destruct (eqb k k0) eqn:E0; simpl.
    + constructor; assumption.
    + constructor; [|apply IH; exact Hnd'].
      rewrite upsert_keys; intros [->|Hin]; [|contradiction].
      rewrite eqb_refl_K in E0; discriminate.
Qed.

Lemma group_snoc (rows : list A) (a : A) :
  group (rows ++ [a]) = upsert eqb init step (key a) a (group rows).
Proof. unfold group, group_stage; rewrite fold_left_app; reflexivity. Qed.

Lemma group_NoDup (rows : list A) : NoDup (map fst (group rows)).
Proof.
  induction rows as [|a rows IH] using rev_ind.
  - constructor.
  - rewrite group_snoc; apply upsert_NoDup, IH.
Qed.

Lemma group_assoc (rows : list A) (k : K) :
  assoc eqb k (group rows) =
  if existsb (fun a => eqb (key a) k) rows
  then Some (fold_left step (rows_of k rows) init)
  else None.
Proof.
  induction rows as [|a rows IH] using rev_ind; [reflexivity|].
  rewrite group_snoc, assoc_upsert, existsb_app.
  unfold rows_of; rewrite filter_app, fold_left_app; simpl.
  destruct (eqb (key a) k) eqn:E.
  - apply eqb_eq in E; subst k. rewrite IH, orb_true_r; simpl.
    destruct (existsb _ rows) eqn:Ex; [reflexivity|].
    unfold rows_of; rewrite (filter_nil_existsb _ _ Ex); reflexivity.
  - rewrite IH, orb_false_r; reflexivity.
Qed.

Lemma assoc_In (g : list (K * Acc)) (k : K) (x : Acc) :
  NoDup (map fst g) -> (In (k, x) g <-> assoc eqb k g = Some x).
Proof.
  induction g as [|[k0 y] g IH]; simpl; intros Hnd.
  - split; [intros [] | discriminate].
  - inversion Hnd as [|? ? Hnin Hnd']; subst.
    destruct (eqb k k0) eqn:E.
    + apply eqb_eq in E; subst k0. split.
      * intros [H|H]; [congruence|].
        exfalso; apply Hnin, (in_map fst _ _ H).
      * intros H; left; congruence.
    + rewrite <- (IH Hnd'). split; [|auto].
      intros [H|H]; [|exact H].
      inversion H; subst. rewrite eqb_refl_K in E; discriminate.
Qed.

(** A group is in the result exactly when some row has its key, and its
    accumulator is the fold over the rows of the key. *)
Lemma group_stage_spec (rows : list A) (k : K) (x : Acc) :
  In (k, x) (group rows) <->
  (exists a, In a rows /\ key a = k) /\
  x = fold_left step (rows_of k rows) init.
Proof.
  rewrite (assoc_In _ _ _ (group_NoDup rows)), group_assoc.
  destruct (existsb _ rows) eqn:Ex.
  - apply existsb_exists in Ex. destruct Ex as (a & Hin & Ha).
    apply eqb_eq in Ha. split.
    + intros H; split; [exists a; auto | congruence].
    + intros [_ ->]; reflexivity.
  - split; [discriminate|].
    intros [(a & Hin & Ha) _]. exfalso.
    assert (existsb (fun a => eqb (key a) k) rows = true) as Ht
      by (apply existsb_exists; exists a; split; [exact Hin | apply eqb_eq, Ha]).
    congruence.
Qed.

Lemma group_key_In (rows : list A) (a : A) :
  In a rows -> In (key a) (map fst (group rows)).
Proof.
  intros Hin.
  assert (In (key a, fold_left step (rows_of (key a) rows) init) (group rows)) as H
    by (apply group_stage_spec; split; [exists a; auto | reflexivity]).
  apply (in_map fst) in H; exact H.
Qed.

(** A measure that every row adds to is, summed over the groups, the sum
    over the rows. *)
Variables (w : Acc -> Z) (f : A -> Z).
Hypothesis w_init : w init = 0.
Hypothesis w_step : forall x a, w (step x a) = w x + f a.

Lemma upsert_sum (k : K) (a : A) (g : list (K * Acc)) :
  sumZ (map (fun e => w (snd e)) (upsert eqb init step k a g)) =
  sumZ (map (fun e => w (snd e)) g) + f a.
Proof.
  induction g as [|[k0 x] g IH]; simpl.
  - rewrite w_step, w_init; lia.
  - destruct (eqb k k0); simpl; [rewrite w_step | rewrite IH]; lia.
Qed.

Lemma group_sum (rows : list A) :
  sumZ (map (fun e => w (snd e)) (group rows)) = sumZ (map f rows).
Proof.
  induction rows as [|a rows IH] using rev_ind; [reflexivity|].
  rewrite group_snoc, upsert_sum, IH, map_app, sumZ_app; simpl; lia.
Qed.

Lemma fold_measure (l : list A) (x : Acc) :
  w (fold_left step l x) = w x + sumZ (map f l).
Proof.
  revert x; induction l as [|a l IH]; intros x; simpl; [lia|].
  rewrite IH, w_step; lia.
Qed.
End GroupFacts.

Lemma sumZ_perm (l l' : list Z) : Permutation l l' -> sumZ l = sumZ l'.
Proof.
  induction 1; simpl; lia.
Qed.

Lemma sumZ_ones {A : Type} (l : list A) :
  sumZ (map (fun _ => 1) l) = Z.of_nat (List.length l).
Proof.
  induction l as [|a l IH]; [reflexivity|].
  cbn [map sumZ fold_right List.length]; fold (sumZ (map (fun _ : A => 1) l)).
  rewrite IH; lia.
Qed.

Lemma sumZ_nonneg {A : Type} (f : A -> Z) (l : list A) :
  (forall a, 0 <= f a) -> 0 <= sumZ (map f l).
Proof.
  intros Hf; induction l as [|a l IH]; simpl; [lia|].
  specialize (Hf a). fold (sumZ (map f l)). lia.
Qed.

Lemma sumZ_abs {A : Type} (f : A -> Z) (l : list A) :
  Z.abs (sumZ (map f l)) <= sumZ (map (fun a => Z.abs (f a)) l).
Proof.
  induction l as [|a l IH]; simpl; [lia|].
  fold (sumZ (map f l)) (sumZ (map (fun a => Z.abs (f a)) l)). lia.
Qed.

Lemma sumZ_filter_le {A : Type} (f : A -> Z) (p : A -> bool) (l : list A) :
  (forall a, 0 <= f a) -> sumZ (map f (filter p l)) <= sumZ (map f l).
Proof.
  intros Hf; induction l as [|a l IH]; simpl; [lia|].
  specialize (Hf a). fold (sumZ (map f l)).
  destruct (p a); simpl; [fold (sumZ (map f (filter p l)))|]; lia.
Qed.

Lemma sumZ_In_le {A : Type} (f : A -> Z) (l : list A) (a : A) :
  (forall a, 0 <= f a) -> In a l -> f a <= sumZ (map f l).
Proof.
  intros Hf; induction l as [|b l IH]; simpl; intros Hin; [destruct Hin|].
  fold (sumZ (map f l)). assert (H0 := sumZ_nonneg f l Hf).
  destruct Hin as [->|Hin]; [lia|]. specialize (IH Hin). specialize (Hf b). lia.
Qed.

(** ** Totals within the range of exact doubles *)

Lemma round_double_exact (z : Z) : Z.abs z < 2 ^ 53 -> round_double z = z.
Proof.
  intros H. unfold round_double. cbv zeta.
  apply Z.ltb_lt in H. rewrite H. reflexivity.
Qed.

Lemma js_double_exact (z : Z) : Z.abs z < 2 ^ 53 -> js_double z = JsInt z.
Proof.
  intros H. unfold js_double. cbv zeta. rewrite (round_double_exact z H).
  assert (Hp : 2 ^ 53 < 2 ^ 1024) by (apply Z.pow_lt_mono_r; lia).
  destruct (Z.leb_spec (2 ^ 1024) (Z.abs z)) as [Hbig|_]; [|reflexivity].
  exfalso. apply (Z.lt_irrefl (2 ^ 53)).
  eapply Z.lt_le_trans; [exact Hp|].
  eapply Z.le_trans; [exact Hbig|]. apply Z.lt_le_incl, H.
Qed.

Lemma js_sum_ints (zs : list Z) : js_sum (map JsInt zs) = JsInt (sumZ zs).
Proof.
  induction zs as [|z zs IH]; [reflexivity|].
  cbn [map js_sum fold_right sumZ] in *. fold (js_sum (map JsInt zs)).
  rewrite IH. reflexivity.
Qed.

Lemma StronglySorted_strict {A K : Type} (R S : A -> A -> Prop)
    (key : A -> K) (l : list A) :
  (forall a b, R a b -> key a <> key b -> S a b) ->
  StronglySorted R l -> NoDup (map key l) -> StronglySorted S l.
Proof.
  intros HRS; induction 1 as [|a l Hs IH Hall]; simpl; intros Hnd.
  - constructor.
  - inversion Hnd as [|? ? Hnin Hnd']; subst.
    constructor; [apply IH, Hnd'|].
    rewrite Forall_forall in *; intros b Hb.
    apply HRS; [apply Hall, Hb|].
    intros Heq; apply Hnin; rewrite Heq; apply in_map, Hb.
Qed.

(** ** The calendar fields follow the time *)

Lemma yoe_bounds (doe : Z) :
  0 <= doe < 146097 ->
  let yoe := (doe - doe / 1460 + doe / 36524 - doe / 146096) / 365 in
  0 <= yoe <= 399 /\
  year_start yoe <= doe < year_start (yoe + 1) /\
  365 * yoe + yoe / 4 - yoe / 100 = year_start yoe.
Proof.
  intros H. unfold year_start. cbv zeta. Z.div_mod_to_equations. lia.
Qed.

Lemma year_start_mono (y1 y2 : Z) : y1 <= y2 -> year_start y1 <= year_start y2.
Proof. intros H. unfold year_start. Z.div_mod_to_equations. lia. Qed.

Lemma year_start_length (y : Z) : year_start (y + 1) - year_start y <= 366.
Proof. unfold year_start. Z.div_mod_to_equations. lia. Qed.

Lemma mp_bounds (doy : Z) : 0 <= doy <= 365 -> 0 <= (5 * doy + 2) / 153 <= 11.
Proof. intros H. Z.div_mod_to_equations. lia. Qed.

Lemma mp_mono (a b : Z) : a <= b -> (5 * a + 2) / 153 <= (5 * b + 2) / 153.
Proof. intros H. Z.div_mod_to_equations. lia. Qed.

(** A day number splits into an era of 400 years, a year of the era that
    starts in March, and a month of that year. *)
Lemma civil_decompose (days : Z) :
  exists era doe yoe mp,
    days + 719468 = era * 146097 + doe /\ 0 <= doe < 146097 /\
    0 <= yoe <= 399 /\ year_start yoe <= doe < year_start (yoe + 1) /\
    mp = (5 * (doe - year_start yoe) + 2) / 153 /\ 0 <= mp <= 11 /\
    month_index days = 12 * (400 * era + yoe) + mp + 3 /\
    snd (fst (civil_from_days days)) = (if mp <? 10 then mp + 3 else mp - 9).
Proof.
  unfold month_index, civil_from_days. cbv zeta. cbn [fst snd].
  set (z := days + 719468).
  set (era := z / 146097).
  set (doe := z - era * 146097).
  assert (Hdoe : 0 <= doe < 146097).
  { unfold doe, era. pose proof (Z.mod_pos_bound z 146097 ltac:(lia)).
    pose proof (Z.div_mod z 146097 ltac:(lia)). lia. }
  destruct (yoe_bounds doe Hdoe) as (Hy & Hs & He).
  set (yoe := (doe - doe / 1460 + doe / 36524 - doe / 146096) / 365) in *.
  rewrite He.
  assert (Hlen := year_start_length yoe).
  assert (Hmp := mp_bounds (doe - year_start yoe) ltac:(lia)).
  set (mp := (5 * (doe - year_start yoe) + 2) / 153) in *.
  exists era, doe, yoe, mp.
  repeat split; try lia.
  destruct (mp <? 10) eqn:E; [apply Z.ltb_lt in E | apply Z.ltb_ge in E].
  - destruct (mp + 3 <=? 2) eqn:E2; [apply Z.leb_le in E2 | apply Z.leb_gt in E2]; lia.
  - destruct (mp - 9 <=? 2) eqn:E2; [apply Z.leb_le in E2 | apply Z.leb_gt in E2]; lia.
Qed.

Lemma month_index_mono (d1 d2 : Z) : d1 <= d2 -> month_index d1 <= month_index d2.
Proof.
  intros H.
  destruct (civil_decompose d1)
    as (e1 & doe1 & y1 & mp1 & Hz1 & Hd1 & Hy1 & Hs1 & Hm1 & Hb1 & -> & _).
  destruct (civil_decompose d2)
    as (e2 & doe2 & y2 & mp2 & Hz2 & Hd2 & Hy2 & Hs2 & Hm2 & Hb2 & -> & _).
  assert (He : e1 <= e2) by nia.
  destruct (Z.eq_dec e1 e2) as [->|Hne]; [|nia].
  assert (Hdoe : doe1 <= doe2) by lia.
  destruct (Z.lt_trichotomy y1 y2) as [Hlt|[->|Hgt]].
  - lia.
  - assert (mp1 <= mp2) by (subst mp1 mp2; apply mp_mono; lia). lia.
  - assert (Hm := year_start_mono (y2 + 1) y1 ltac:(lia)). lia.
Qed.

Lemma month_of_bounds (t : Date) : 1 <= month_of t <= 12.
Proof.
  unfold month_of.
  destruct (civil_decompose (day_of t))
    as (e & doe & y & mp & _ & _ & _ & _ & _ & Hb & _ & ->).
  destruct (mp <? 10) eqn:E; [apply Z.ltb_lt in E | apply Z.ltb_ge in E]; lia.
Qed.

Lemma earlier_month_earlier_date (o1 o2 : Order.t) :
  MonthId.lt (month_id o1) (month_id o2) ->
  Order.orderDate o1 < Order.orderDate o2.
Proof.
  unfold MonthId.lt, month_id; cbn [MonthId.year MonthId.month]. intros Hlt.
  destruct (Z.lt_ge_cases (Order.orderDate o1) (Order.orderDate o2)) as [H|H];
    [exact H | exfalso].
  assert (Hd : day_of (Order.orderDate o2) <= day_of (Order.orderDate o1))
    by (unfold day_of, msPerDay; apply Z.div_le_mono; lia).
  apply month_index_mono in Hd. unfold month_index in Hd.
  fold (year_of (Order.orderDate o1)) (month_of (Order.orderDate o1))
       (year_of (Order.orderDate o2)) (month_of (Order.orderDate o2)) in Hd.
  assert (H1 := month_of_bounds (Order.orderDate o1)).
  assert (H2 := month_of_bounds (Order.orderDate o2)).
  lia.
Qed.

(** The fields of the civil date of a day number, and the day number of a
    civil date given by the same era, year and month. *)
Lemma civil_fields (days : Z) :
  exists era doe yoe mp,
    days + 719468 = era * 146097 + doe /\ 0 <= doe < 146097 /\
    0 <= yoe <= 399 /\ year_start yoe <= doe < year_start (yoe + 1) /\
    mp = (5 * (doe - year_start yoe) + 2) / 153 /\ 0 <= mp <= 11 /\
    civil_from_days days =
      (400 * era + yoe + (if mp <? 10 then 0 else 1),
       (if mp <? 10 then mp + 3 else mp - 9),
       doe - year_start yoe - (153 * mp + 2) / 5 + 1).
Proof.
  unfold civil_from_days. cbv zeta.
  set (z := days + 719468).
  set (era := z / 146097).
  set (doe := z - era * 146097).
  assert (Hdoe : 0 <= doe < 146097).
  { unfold doe, era. pose proof (Z.mod_pos_bound z 146097 ltac:(lia)).
    pose proof (Z.div_mod z 146097 ltac:(lia)). lia. }
  destruct (yoe_bounds doe Hdoe) as (Hy & Hs & He).
  set (yoe := (doe - doe / 1460 + doe / 36524 - doe / 146096) / 365) in *.
  rewrite He.
  assert (Hlen := year_start_length yoe).
  assert (Hmp := mp_bounds (doe - year_start yoe) ltac:(lia)).
  set (mp := (5 * (doe - year_start yoe) + 2) / 153) in *.
  exists era, doe, yoe, mp.
  repeat split; try lia.
  destruct (mp <? 10) eqn:E; [apply Z.ltb_lt in E | apply Z.ltb_ge in E].
  - destruct (mp + 3 <=? 2) eqn:E2; [apply Z.leb_le in E2; lia | apply Z.leb_gt in E2].
    f_equal. f_equal. lia.
  - destruct (mp - 9 <=? 2) eqn:E2; [apply Z.leb_le in E2 | apply Z.leb_gt in E2; lia].
    f_equal. f_equal. lia.
Qed.

Lemma days_from_civil_march (era yoe mp d : Z) :
  0 <= yoe <= 399 -> 0 <= mp <= 11 ->
  days_from_civil (400 * era + yoe + (if mp <? 10 then 0 else 1))
    (if mp <? 10 then mp + 3 else mp - 9) d =
  era * 146097 + year_start yoe + (153 * mp + 2) / 5 + d - 1 - 719468.
Proof.
  intros Hy Hm. unfold days_from_civil. cbv zeta.
  destruct (mp <? 10) eqn:E; [apply Z.ltb_lt in E | apply Z.ltb_ge in E].
  - destruct (mp + 3 <=? 2) eqn:E2; [apply Z.leb_le in E2; lia | apply Z.leb_gt in E2].
    destruct (2 <? mp + 3) eqn:E3; [apply Z.ltb_lt in E3 | apply Z.ltb_ge in E3; lia].
    replace (mp + 3 - 3) with mp by lia.
    replace (400 * era + yoe + 0) with (400 * era + yoe) by lia.
    assert (H : (400 * era + yoe) / 400 = era) by (Z.div_mod_to_equations; lia).
    rewrite H. unfold year_start. Z.div_mod_to_equations. lia.
  - destruct (mp - 9 <=? 2) eqn:E2; [apply Z.leb_le in E2 | apply Z.leb_gt in E2; lia].
    destruct (2 <? mp - 9) eqn:E3; [apply Z.ltb_lt in E3; lia | apply Z.ltb_ge in E3].
    replace (mp - 9 + 9) with mp by lia.
    replace (400 * era + yoe + 1 - 1) with (400 * era + yoe) by lia.
    assert (H : (400 * era + yoe) / 400 = era) by (Z.div_mod_to_equations; lia).
    rewrite H. unfold year_start. Z.div_mod_to_equations. lia.
Qed.

(** The day number of the civil date of a day number is that day number. *)
Lemma civil_round_trip (n : Z) :
  days_from_civil (fst (fst (civil_from_days n))) (snd (fst (civil_from_days n)))
    (snd (civil_from_days n)) = n.
Proof.
  destruct (civil_fields n) as (era & doe & yoe & mp & Hz & Hd & Hy & Hs & Hm & Hb & ->).
  cbn [fst snd]. rewrite days_from_civil_march by assumption. lia.
Qed.

Lemma days_from_civil_day (y m d : Z) :
  days_from_civil y m d = days_from_civil y m 1 + d - 1.
Proof. unfold days_from_civil. cbv zeta. lia. Qed.

(** A day lies between the first day of its month and the first day of the
    month after. *)
Lemma civil_in_month (n : Z) :
  let y := fst (fst (civil_from_days n)) in
  let m := snd (fst (civil_from_days n)) in
  1 <= m <= 12 /\
  days_from_civil y m 1 <= n <
    (if m =? 12 then days_from_civil (y + 1) 1 1 else days_from_civil y (m + 1) 1).
Proof.
  cbv zeta.
  destruct (civil_fields n) as (era & doe & yoe & mp & Hz & Hd & Hy & Hs & Hm & Hb & ->).
  cbn [fst snd].
  rewrite days_from_civil_march by assumption.
  set (doy := doe - year_start yoe) in *.
  assert (Hlen := year_start_length yoe).
  assert (Hlo : (153 * mp + 2) / 5 <= doy) by (subst mp; Z.div_mod_to_equations; lia).
  assert (Hhi : mp < 11 -> doy < (153 * (mp + 1) + 2) / 5)
    by (intros; subst mp; Z.div_mod_to_equations; lia).
  split; [destruct (mp <? 10) eqn:E; [apply Z.ltb_lt in E | apply Z.ltb_ge in E]; lia|].
  split; [lia|].
  destruct (Z.eq_dec mp 11) as [E11|N11].
  - (* February: the next month opens the next year of the era *)
    rewrite E11. change (11 <? 10) with false. cbv iota.
    change (11 - 9 =? 12) with false. cbv iota.
    change (11 - 9 + 1) with 3.
    destruct (Z.eq_dec yoe 399) as [E399|N399].
    + assert (Hm3 := days_from_civil_march (era + 1) 0 0 1 ltac:(lia) ltac:(lia)).
      change (0 <? 10) with true in Hm3. cbv iota in Hm3.
      replace (400 * (era + 1) + 0 + 0) with (400 * era + yoe + 1) in Hm3 by lia.
      change (0 + 3) with 3 in Hm3. rewrite Hm3.
      change ((153 * 0 + 2) / 5) with 0.
      change (year_start 0) with 0.
      assert (year_start (yoe + 1) = 146097) by (rewrite E399; reflexivity). lia.
    + assert (Hm3 := days_from_civil_march era (yoe + 1) 0 1 ltac:(lia) ltac:(lia)).
      change (0 <? 10) with true in Hm3. cbv iota in Hm3.
      replace (400 * era + (yoe + 1) + 0) with (400 * era + yoe + 1) in Hm3 by lia.
      change (0 + 3) with 3 in Hm3. rewrite Hm3.
      change ((153 * 0 + 2) / 5) with 0. lia.
  - assert (Hnext :
      (if (if mp <? 10 then mp + 3 else mp - 9) =? 12
       then days_from_civil (400 * era + yoe + (if mp <? 10 then 0 else 1) + 1) 1 1
       else days_from_civil (400 * era + yoe + (if mp <? 10 then 0 else 1))
              ((if mp <? 10 then mp + 3 else mp - 9) + 1) 1) =
      days_from_civil (400 * era + yoe + (if mp + 1 <? 10 then 0 else 1))
        (if mp + 1 <? 10 then mp + 1 + 3 else mp + 1 - 9) 1).
    { destruct (mp <? 10) eqn:E; [apply Z.ltb_lt in E | apply Z.ltb_ge in E].
      - destruct (mp + 1 <? 10) eqn:E1; [apply Z.ltb_lt in E1 | apply Z.ltb_ge in E1].
        + destruct (mp + 3 =? 12) eqn:E2; [apply Z.eqb_eq in E2; lia|].
          f_equal; lia.
        + replace mp with 9 by lia. change (9 + 3 =? 12) with true. cbv iota.
          f_equal; lia.
      - destruct (mp + 1 <? 10) eqn:E1; [apply Z.ltb_lt in E1; lia | apply Z.ltb_ge in E1].
        destruct (mp - 9 =? 12) eqn:E2; [apply Z.eqb_eq in E2; lia|].
        f_equal; lia. }
    rewrite Hnext, days_from_civil_march by lia.
    specialize (Hhi ltac:(lia)). lia.
Qed.

(** The first day of a month has the year and the month it was made of. *)
Lemma month_index_first (y m : Z) :
  1 <= m <= 12 -> month_index (days_from_civil y m 1) = 12 * y + m.
Proof.
  intros Hm.
  set (mp := if 2 <? m then m - 3 else m + 9).
  set (y' := if m <=? 2 then y - 1 else y).
  set (era := y' / 400). set (yoe := y' - era * 400).
  assert (Hyoe : 0 <= yoe <= 399) by (unfold yoe, era; Z.div_mod_to_equations; lia).
  assert (Hmp : 0 <= mp <= 11)
    by (unfold mp; destruct (2 <? m) eqn:E;
        [apply Z.ltb_lt in E | apply Z.ltb_ge in E]; lia).
  assert (Hym : y = 400 * era + yoe + (if mp <? 10 then 0 else 1) /\
                m = (if mp <? 10 then mp + 3 else mp - 9)).
  { unfold mp, yoe, y'.
    destruct (2 <? m) eqn:E; [apply Z.ltb_lt in E | apply Z.ltb_ge in E].
    - destruct (m <=? 2) eqn:E2; [apply Z.leb_le in E2; lia | apply Z.leb_gt in E2].
      destruct (m - 3 <? 10) eqn:E3; [apply Z.ltb_lt in E3 | apply Z.ltb_ge in E3]; lia.
    - destruct (m <=? 2) eqn:E2; [apply Z.leb_le in E2 | apply Z.leb_gt in E2; lia].
      destruct (m + 9 <? 10) eqn:E3; [apply Z.ltb_lt in E3 | apply Z.ltb_ge in E3]; lia. }
  destruct Hym as [Hy Hm'].
  assert (Hs : days_from_civil y m 1 =
               era * 146097 + year_start yoe + (153 * mp + 2) / 5 - 719468).
  { rewrite Hy at 1. rewrite Hm' at 1.
    rewrite days_from_civil_march by assumption. lia. }
  destruct (civil_decompose (days_from_civil y m 1))
    as (era2 & doe2 & yoe2 & mp2 & Hz2 & Hd2 & Hy2 & Hs2 & Hm2 & Hb2 & -> & _).
  assert (Hlen : year_start yoe + 365 <= year_start (yoe + 1))
    by (unfold year_start; Z.div_mod_to_equations; lia).
  assert (Hdoy : 0 <= (153 * mp + 2) / 5 <= 337) by (Z.div_mod_to_equations; lia).
  assert (Hmax : year_start (yoe + 1) <= 146097).
  { assert (H := year_start_mono (yoe + 1) 400 ltac:(lia)).
    change (year_start 400) with 146097 in H. exact H. }
  assert (Hmin : 0 <= year_start yoe).
  { assert (H := year_start_mono 0 yoe ltac:(lia)).
    change (year_start 0) with 0 in H. exact H. }
  assert (He : era2 = era) by nia.
  subst era2.
  assert (Hdoe : doe2 = year_start yoe + (153 * mp + 2) / 5) by lia.
  assert (Hyy : yoe2 = yoe).
  { destruct (Z.lt_trichotomy yoe2 yoe) as [H|[H|H]]; [|exact H|].
    - assert (H1 := year_start_mono (yoe2 + 1) yoe ltac:(lia)). lia.
    - assert (H1 := year_start_mono (yoe + 1) yoe2 ltac:(lia)). lia. }
  subst yoe2.
  assert (Hmm : mp2 = mp).
  { rewrite Hm2, Hdoe.
    replace (year_start yoe + (153 * mp + 2) / 5 - year_start yoe)
      with ((153 * mp + 2) / 5) by lia.
    clear - Hmp. Z.div_mod_to_equations. lia. }
  subst mp2.
  destruct (mp <? 10) eqn:E; [apply Z.ltb_lt in E | apply Z.ltb_ge in E]; lia.
Qed.

Lemma day_of_bounds (t : Date) :
  day_of t * msPerDay <= t < (day_of t + 1) * msPerDay.
Proof. unfold day_of, msPerDay. Z.div_mod_to_equations. lia. Qed.

(** An instant lies in the month of the calendar that [$year] and [$month]
    read off it, and in no other. *)
Lemma in_month_spec (y m : Z) (t : Date) :
  in_month y m t = true <-> y = year_of t /\ m = month_of t.
Proof.
  unfold in_month, date.
  rewrite !andb_true_iff, !Z.leb_le, Z.ltb_lt.
  assert (Ht := day_of_bounds t).
  destruct (civil_in_month (day_of t)) as (HM & Hlo & Hhi).
  fold (year_of t) (month_of t) in HM, Hlo, Hhi.
  split.
  - intros (((Hm1 & Hm2) & Hs) & He).
    assert (Hd1 : days_from_civil y m 1 <= day_of t) by (unfold msPerDay in *; nia).
    assert (Hi1 := month_index_mono _ _ Hd1).
    rewrite month_index_first in Hi1 by lia.
    assert (Hidx : month_index (day_of t) = 12 * year_of t + month_of t) by reflexivity.
    assert (Hi2 : 12 * year_of t + month_of t <= 12 * y + m).
    { destruct (Z.le_gt_cases (12 * year_of t + month_of t) (12 * y + m)) as [H|H];
        [exact H | exfalso].
      (* the month of [t] starts at the end of the month (y, m) or later *)
      assert (Hn : (if m =? 12 then days_from_civil (y + 1) 1 1
                    else days_from_civil y (m + 1) 1)
                   <= days_from_civil (year_of t) (month_of t) 1).
      { destruct (Z.le_gt_cases
                    (if m =? 12 then days_from_civil (y + 1) 1 1
                     else days_from_civil y (m + 1) 1)
                    (days_from_civil (year_of t) (month_of t) 1)) as [Hle|Hgt];
          [exact Hle | exfalso].
        assert (Hmono := month_index_mono
                           (days_from_civil (year_of t) (month_of t) 1)
                           (if m =? 12 then days_from_civil (y + 1) 1 1
                            else days_from_civil y (m + 1) 1) ltac:(lia)).
        rewrite month_index_first in Hmono by lia.
        destruct (m =? 12) eqn:E12;
          [apply Z.eqb_eq in E12 | apply Z.eqb_neq in E12];
          rewrite month_index_first in Hmono by lia.
        - assert (Heq : 12 * year_of t + month_of t = 12 * (y + 1) + 1) by lia.
          assert (year_of t = y + 1 /\ month_of t = 1) as [Hy1 Hm1'] by lia.
          rewrite Hy1, Hm1' in Hgt. lia.
        - assert (Heq : 12 * year_of t + month_of t = 12 * y + (m + 1)) by lia.
          assert (year_of t = y /\ month_of t = m + 1) as [Hy1 Hm1'] by lia.
          rewrite Hy1, Hm1' in Hgt. lia. }
      destruct (m =? 12); unfold msPerDay in *; nia. }
    lia.
  - intros [-> ->]. repeat split; try lia.
    + unfold msPerDay in *; nia.
    + destruct (month_of t =? 12); unfold msPerDay in *; nia.
Qed.

(** ** Sales by month *)

Lemma MonthId_eqb_eq (a b : MonthId.t) : MonthId.eqb a b = true <-> a = b.
Proof.
  destruct a as [ya ma], b as [yb mb]; unfold MonthId.eqb; simpl.
  rewrite andb_true_iff, !Z.eqb_eq. split.
  - intros [-> ->]; reflexivity.
  - intros H; inversion H; auto.
Qed.

Lemma MonthId_leb_total (a b : MonthId.t) :
  MonthId.leb a b = true \/ MonthId.leb b a = true.
Proof.
  unfold MonthId.leb.
  destruct (Z.ltb_spec (MonthId.year a) (MonthId.year b));
  destruct (Z.ltb_spec (MonthId.year b) (MonthId.year a));
  destruct (Z.eqb_spec (MonthId.year a) (MonthId.year b));
  destruct (Z.eqb_spec (MonthId.year b) (MonthId.year a));
  destruct (Z.leb_spec (MonthId.month a) (MonthId.month b));
  destruct (Z.leb_spec (MonthId.month b) (MonthId.month a));
  simpl; auto; lia.
Qed.

Lemma MonthId_leb_le (a b : MonthId.t) :
  MonthId.leb a b = true <-> MonthId.lt a b \/ a = b.
Proof.
  destruct a as [ya ma], b as [yb mb]; unfold MonthId.leb, MonthId.lt; simpl.
  rewrite orb_true_iff, andb_true_iff, Z.ltb_lt, Z.eqb_eq, Z.leb_le.
  split.
  - intros [H|[-> H]]; [left; left; exact H|].
    destruct (Z.eq_dec ma mb) as [->|Hne]; [right; reflexivity|].
    left; right; split; [reflexivity | lia].
  - intros [[H|[-> H]]|H]; [left; exact H | right; split; [reflexivity | lia] |].
    inversion H; subst; right; split; [reflexivity | lia].
Qed.

Lemma MonthId_leb_trans (a b c : MonthId.t) :
  MonthId.leb a b = true -> MonthId.leb b c = true -> MonthId.leb a c = true.
Proof.
  unfold MonthId.leb.
  rewrite !orb_true_iff, !andb_true_iff, !Z.ltb_lt, !Z.eqb_eq, !Z.leb_le.
  lia.
Qed.

Section SalesFacts.
Context {RT : Runtime}.

Lemma matches_selects (q : SalesQuery) (o : Order.t) :
  matches (matchStage_of q) o = selects q o.
Proof.
  unfold matches, matchStage_of, selects.
  destruct (startDate q) as [s|], (endDate q) as [e|]; simpl; try reflexivity.
  destruct (String.eqb s EmptyString), (String.eqb e EmptyString);
    reflexivity.
Qed.

Lemma selects_in_scope (q : SalesQuery) (o : Order.t) :
  selects q o = true <-> in_scope q o.
Proof.
  unfold selects, in_scope.
  rewrite andb_true_iff, String.eqb_eq.
  destruct (startDate q) as [s|], (endDate q) as [e|];
    try (split; [intros [H _]; split; [exact H | intros; discriminate]
                | intros [H _]; auto]).
  rewrite !orb_true_iff, andb_true_iff, !String.eqb_eq, !Z.leb_le.
  split.
  - intros [Hc H]; split; [exact Hc|].
    intros s' e' Hs He Hns Hne; inversion Hs; inversion He; subst.
    destruct H as [[H|H]|H]; [contradiction | contradiction | lia].
  - intros [Hc H]; split; [exact Hc|].
    destruct (string_dec s EmptyString) as [->|Hs]; [auto|].
    destruct (string_dec e EmptyString) as [->|He]; [auto|].
    right; specialize (H s e eq_refl eq_refl Hs He); lia.
Qed.

Lemma matchStage_without_range (q : SalesQuery) :
  truthy (startDate q) && truthy (endDate q) = false ->
  matchStage_of q = matchStage_of no_range.
Proof.
  unfold matchStage_of, no_range; cbn [startDate endDate].
  destruct (startDate q) as [s|], (endDate q) as [e|]; try reflexivity.
  intros ->; reflexivity.
Qed.

Lemma salesAnalytics_perm (st : Store) (m : MatchStage.t) :
  Permutation
    (map (fun g => {| MonthlySales._id := fst g;
                      MonthlySales.totalSales := js_double (fst (snd g));
                      MonthlySales.orderCount := snd (snd g) |})
       (group_stage MonthId.eqb month_id (0, 0)
          (fun acc o => (fst acc + Order.totalAmount o, snd acc + 1))
          (filter (matches m) (orders st))))
    (salesAnalytics st m).
Proof. apply sort_stage_perm. Qed.

Lemma sales_fold (l : list Order.t) :
  fold_left (fun (acc : Z * Z) (o : Order.t) =>
               (fst acc + Order.totalAmount o, snd acc + 1)) l (0, 0) =
  (sumZ (map Order.totalAmount l), Z.of_nat (List.length l)).
Proof.
  set (step := fun (acc : Z * Z) (o : Order.t) =>
                 (fst acc + Order.totalAmount o, snd acc + 1)).
  rewrite (surjective_pairing (fold_left step l (0, 0))); f_equal.
  - rewrite (fold_measure step fst Order.totalAmount); [reflexivity|].
    intros; reflexivity.
  - rewrite (fold_measure step snd (fun _ => 1)); [|intros; reflexivity].
    rewrite sumZ_ones; reflexivity.
Qed.

Lemma salesAnalytics_row (st : Store) (m : MatchStage.t)
    (row : MonthlySales.t) :
  In row (salesAnalytics st m) <->
  (exists o, In o (filter (matches m) (orders st)) /\
             month_id o = MonthlySales._id row) /\
  MonthlySales.totalSales row =
    js_double
      (sumZ (map Order.totalAmount
               (filter (fun o => MonthId.eqb (month_id o) (MonthlySales._id row))
                  (filter (matches m) (orders st))))) /\
  MonthlySales.orderCount row =
    Z.of_nat (List.length
            (filter (fun o => MonthId.eqb (month_id o) (MonthlySales._id row))
               (filter (matches m) (orders st)))).
Proof.
  set (sel := filter (matches m) (orders st)).
  set (step := fun (acc : Z * Z) (o : Order.t) =>
                 (fst acc + Order.totalAmount o, snd acc + 1)).
  assert (Hfold := sales_fold). fold step in Hfold.
  rewrite <- (Permutation_in' eq_refl (salesAnalytics_perm st m)).
  fold sel; fold step. rewrite in_map_iff. split.
  - intros ([k [ts oc]] & <- & Hin); simpl.
    apply (group_stage_spec _ _ _ _ MonthId_eqb_eq) in Hin.
    destruct Hin as [Hex Hacc]. rewrite Hfold in Hacc.
    inversion Hacc; subst; auto.
  - intros (Hex & Hts & Hoc).
    destruct row as [k ts oc]; simpl in *.
    exists (k, (sumZ (map Order.totalAmount
                       (filter (fun o => MonthId.eqb (month_id o) k) sel)), oc)).
    split; [cbn; congruence|].
    apply (group_stage_spec _ _ _ _ MonthId_eqb_eq); split; [exact Hex|].
    rewrite Hfold; congruence.
Qed.

Lemma salesAnalytics_ids_NoDup (st : Store) (m : MatchStage.t) :
  NoDup (map MonthlySales._id (salesAnalytics st m)).
Proof.
  eapply Permutation_NoDup;
    [apply Permutation_map, salesAnalytics_perm|].
  rewrite map_map; simpl.
  apply (group_NoDup _ _ _ _ MonthId_eqb_eq).
Qed.

Lemma salesAnalytics_sorted (st : Store) (m : MatchStage.t) :
  StronglySorted (fun a b => MonthId.lt (MonthlySales._id a) (MonthlySales._id b))
    (salesAnalytics st m).
Proof.
  apply (StronglySorted_strict
           (fun a b => MonthId.leb (MonthlySales._id a) (MonthlySales._id b) = true)
           _ MonthlySales._id).
  - intros a b Hle Hne. apply MonthId_leb_le in Hle.
    destruct Hle as [H|H]; [exact H | contradiction].
  - apply Sorted_StronglySorted.
    + intros a b c; apply MonthId_leb_trans.
    + apply (sort_stage_Sorted
               (fun a b => MonthId.leb (MonthlySales._id a) (MonthlySales._id b))).
      intros a b; apply MonthId_leb_total.
  - apply salesAnalytics_ids_NoDup.
Qed.

(** Within the exact range the total of a part of the orders is a double. *)
Lemma orders_total_exact (st : Store) (p p' : Order.t -> bool) :
  exact_amounts st ->
  Z.abs (sumZ (map Order.totalAmount (filter p' (filter p (orders st))))) < 2 ^ 53.
Proof.
  intros Hex. unfold exact_amounts in Hex.
  eapply Z.le_lt_trans; [apply sumZ_abs|].
  eapply Z.le_lt_trans; [apply sumZ_filter_le; intros; apply Z.abs_nonneg|].
  eapply Z.le_lt_trans; [apply sumZ_filter_le; intros; apply Z.abs_nonneg|].
  exact Hex.
Qed.

Lemma salesAnalytics_total (st : Store) (m : MatchStage.t) :
  exact_amounts st ->
  js_sum (map MonthlySales.totalSales (salesAnalytics st m)) =
  JsInt (sumZ (map Order.totalAmount (filter (matches m) (orders st)))).
Proof.
  intros Hex.
  set (step := fun (acc : Z * Z) (o : Order.t) =>
                 (fst acc + Order.totalAmount o, snd acc + 1)).
  set (groups := group_stage MonthId.eqb month_id (0, 0) step
                   (filter (matches m) (orders st))).
  assert (Hperm := Permutation_map MonthlySales.totalSales (salesAnalytics_perm st m)).
  fold step in Hperm. fold groups in Hperm.
  rewrite map_map in Hperm. cbn [MonthlySales.totalSales] in Hperm.
  assert (Hexact : map (fun g : MonthId.t * (Z * Z) => js_double (fst (snd g))) groups
                   = map JsInt (map (fun g => fst (snd g)) groups)).
  { rewrite map_map. apply map_ext_in. intros [k [ts oc]] Hin.
    apply (group_stage_spec _ _ _ _ MonthId_eqb_eq) in Hin.
    destruct Hin as [_ Hacc]. unfold step in Hacc. rewrite sales_fold in Hacc.
    inversion Hacc; subst. cbn [fst snd].
    apply js_double_exact, orders_total_exact, Hex. }
  rewrite Hexact in Hperm. apply Permutation_sym in Hperm.
  apply Permutation_map_inv in Hperm. destruct Hperm as (zs & -> & Hzs).
  rewrite js_sum_ints. f_equal.
  rewrite <- (sumZ_perm _ _ Hzs).
  apply (group_sum MonthId.eqb month_id (0, 0) step fst Order.totalAmount);
    [reflexivity | intros; reflexivity].
Qed.
End SalesFacts.

(** The claim of C1 fails on amounts whose total is no double: two
    completed orders of January 2024 with the amounts 2^53 and 1 make one
    group, whose totalSales is 2^53 and not their sum. *)
Lemma rounded_total_counterexample :
  exists r row,
    get_analytics_sales (RT := ref_runtime) big_total_store no_range = res_json r /\
    salesByMonth r = [row] /\
    map Order.totalAmount
      (filter (selects (RT := ref_runtime) no_range) (orders big_total_store))
      = [9007199254740992; 1] /\
    MonthlySales.totalSales row = JsInt 9007199254740992 /\
    MonthlySales.totalSales row <>
      JsInt (sumZ (map Order.totalAmount
                     (filter (selects (RT := ref_runtime) no_range)
                        (orders big_total_store)))).
Proof.
  eexists. eexists. split; [vm_compute; reflexivity|].
  split; [reflexivity|]. split; [reflexivity|]. split; [reflexivity|].
  vm_compute. discriminate.
Qed.

(** C1 (amended). GET /analytics/sales, the amounts of the orders being
    integers whose magnitudes add up to less than 2^53: salesByMonth is
    computed from the orders that are completed and, when a range is given,
    dated within it (bounds included); every group stands for a month of the
    calendar (year, month from 1 to 12, UTC), holds the orders of the
    request dated in that month, of which there is at least one, and has
    their summed totalAmount as totalSales and their number as orderCount;
    the groups come in ascending order of (year, month), no two for the same
    month, every such order is in exactly one of them, and the totalSales of
    all groups add up to the totalAmount of all such orders. *)
Theorem sales_by_month_correct (RT : Runtime) (st : Store) (q : SalesQuery) :
  exact_amounts st ->
  let sel := filter (selects q) (orders st) in
  let of_month (k : MonthId.t) :=
    filter (fun o => in_month (MonthId.year k) (MonthId.month k) (Order.orderDate o))
      sel in
  (forall o, In o sel <-> In o (orders st) /\ in_scope q o) /\
  exists r, get_analytics_sales st q = res_json r /\
    (forall row, In row (salesByMonth r) ->
       of_month (MonthlySales._id row) <> [] /\
       MonthlySales.totalSales row =
         JsInt (sumZ (map Order.totalAmount (of_month (MonthlySales._id row)))) /\
       MonthlySales.orderCount row =
         Z.of_nat (List.length (of_month (MonthlySales._id row)))) /\
    StronglySorted
      (fun a b => MonthId.lt (MonthlySales._id a) (MonthlySales._id b))
      (salesByMonth r) /\
    NoDup (map MonthlySales._id (salesByMonth r)) /\
    (forall o, In o sel ->
       exists row, In row (salesByMonth r) /\
         In o (of_month (MonthlySales._id row)) /\
         forall row', In row' (salesByMonth r) ->
           In o (of_month (MonthlySales._id row')) -> row' = row) /\
    js_sum (map MonthlySales.totalSales (salesByMonth r)) =
      JsInt (sumZ (map Order.totalAmount sel)).
Proof.
  intros Hex sel of_month.
  assert (Hsel : filter (matches (matchStage_of q)) (orders st) = sel)
    by (apply filter_ext; intros o; apply matches_selects).
  assert (Hkey : forall k o,
            MonthId.eqb (month_id o) k =
            in_month (MonthId.year k) (MonthId.month k) (Order.orderDate o)).
  { intros [y m] o. apply Bool.eq_iff_eq_true.
    rewrite MonthId_eqb_eq, in_month_spec. unfold month_id; cbn. split.
    - intros H; inversion H; auto.
    - intros [-> ->]; reflexivity. }
  assert (Hgroup : forall k,
            filter (fun o => MonthId.eqb (month_id o) k) sel = of_month k)
    by (intros k; apply filter_ext; intros o; apply Hkey).
  split.
  { intros o; unfold sel; rewrite filter_In, selects_in_scope; reflexivity. }
  eexists; split; [reflexivity|]; cbn [salesByMonth].
  assert (Hrow := salesAnalytics_row st (matchStage_of q)).
  rewrite Hsel in Hrow.
  assert (Hexact : forall k,
            js_double (sumZ (map Order.totalAmount (of_month k)))
            = JsInt (sumZ (map Order.totalAmount (of_month k))))
    by (intros k; apply js_double_exact, orders_total_exact, Hex).
  split; [|split; [|split; [|split]]].
  - intros row Hin.
    destruct (proj1 (Hrow row) Hin) as ((o & Ho & Hk) & Hts & Hoc).
    rewrite Hgroup in Hts, Hoc. rewrite Hexact in Hts.
    split; [|split; [exact Hts | exact Hoc]].
    intros Hnil.
    assert (In o (of_month (MonthlySales._id row))) as Hog.
    { rewrite <- Hgroup. apply filter_In; split; [exact Ho|].
      apply MonthId_eqb_eq, Hk. }
    rewrite Hnil in Hog; exact Hog.
  - apply salesAnalytics_sorted.
  - apply salesAnalytics_ids_NoDup.
  - intros o Ho.
    exists {| MonthlySales._id := month_id o;
              MonthlySales.totalSales :=
                js_double (sumZ (map Order.totalAmount (of_month (month_id o))));
              MonthlySales.orderCount :=
                Z.of_nat (List.length (of_month (month_id o))) |}.
    cbn [MonthlySales._id].
    split; [|split].
    + apply Hrow; cbn [MonthlySales._id MonthlySales.totalSales MonthlySales.orderCount].
      rewrite Hgroup. split; [exists o; auto | split; reflexivity].
    + rewrite <- Hgroup. apply filter_In; split; [exact Ho|].
      apply MonthId_eqb_eq; reflexivity.
    + intros row' Hin' Hid.
      rewrite <- Hgroup in Hid. apply filter_In in Hid.
      destruct Hid as [_ Hid]. apply MonthId_eqb_eq in Hid.
      apply Hrow in Hin'. destruct Hin' as (_ & Hts & Hoc).
      destruct row' as [k ts oc]; simpl in *; subst k.
      rewrite Hgroup in Hts, Hoc. congruence.
  - rewrite (salesAnalytics_total st (matchStage_of q) Hex), Hsel; reflexivity.
Qed.

Lemma sales_by_month_correct_witness :
  exact_amounts sample_store /\
  exists r,
    get_analytics_sales (RT := ref_runtime) sample_store no_range = res_json r /\
    salesByMonth r =
      [ {| MonthlySales._id := {| MonthId.year := 2024; MonthId.month := 1 |};
           MonthlySales.totalSales := JsInt 100;
           MonthlySales.orderCount := 1 |};
        {| MonthlySales._id := {| MonthId.year := 2024; MonthId.month := 2 |};
           MonthlySales.totalSales := JsInt 310;
           MonthlySales.orderCount := 2 |} ] /\
    js_sum (map MonthlySales.totalSales (salesByMonth r)) =
    JsInt (sumZ (map Order.totalAmount
                   (filter (selects (RT := ref_runtime) no_range)
                      (orders sample_store)))) /\
    salesByMonth_of (get_analytics_sales (RT := ref_runtime) sample_store january) =
      [ {| MonthlySales._id := {| MonthId.year := 2024; MonthId.month := 1 |};
           MonthlySales.totalSales := JsInt 100;
           MonthlySales.orderCount := 1 |} ].
Proof.
  assert (Hex : exact_amounts sample_store) by reflexivity.
  split; [exact Hex|].
  destruct (sales_by_month_correct ref_runtime sample_store no_range Hex)
    as (_ & r & Hr & _ & _ & _ & _ & Hsum).
  exists r. split; [exact Hr|]. split; [|split; [exact Hsum | reflexivity]].
  inversion Hr. reflexivity.
Defined.

(** The range is part of the match only when both bounds are given. *)
Lemma range_only_with_both_bounds (RT : Runtime) (q : SalesQuery) (r : DateRange.t) :
  MatchStage.orderDate (matchStage_of q) = Some r ->
  exists s e, startDate q = Some s /\ endDate q = Some e /\
    s <> EmptyString /\ e <> EmptyString /\
    r = {| DateRange.gte := new_Date s; DateRange.lte := new_Date e |}.
Proof.
  unfold matchStage_of.
  destruct (startDate q) as [s|], (endDate q) as [e|]; simpl; try discriminate.
  destruct (String.eqb_spec s EmptyString), (String.eqb_spec e EmptyString);
    simpl; try discriminate.
  intros H; inversion H; subst. exists s, e; auto.
Qed.

(** C9. GET /analytics/sales: when one of startDate and endDate is not
    supplied, the match stage has no date condition and the response is the
    one of a request without a range, computed from all completed orders. *)
Theorem date_range_needs_both_bounds (RT : Runtime) (st : Store) (q : SalesQuery) :
  startDate q = None \/ endDate q = None ->
  MatchStage.orderDate (matchStage_of q) = None /\
  get_analytics_sales st q = get_analytics_sales st no_range /\
  (forall o, matches (matchStage_of q) o = String.eqb (Order.status o) "completed").
Proof.
  intros H.
  assert (Ht : truthy (startDate q) && truthy (endDate q) = false)
    by (destruct H as [-> | ->]; [reflexivity | apply andb_false_r]).
  assert (Hm := matchStage_without_range q Ht).
  unfold get_analytics_sales; rewrite Hm.
  repeat split. intros o; unfold matches; simpl; apply andb_true_r.
Qed.

Lemma date_range_needs_both_bounds_witness :
  (startDate only_start = None \/ endDate only_start = None) /\
  get_analytics_sales (RT := ref_runtime) sample_store only_start =
  get_analytics_sales (RT := ref_runtime) sample_store no_range.
Proof.
  split; [right; reflexivity|].
  apply (date_range_needs_both_bounds ref_runtime sample_store only_start).
  right; reflexivity.
Defined.

(** ** Joins and flattening *)

Lemma firstn_In {A : Type} (n : nat) (l : list A) (x : A) :
  In x (firstn n l) -> In x l.
Proof.
  intros H; rewrite <- (firstn_skipn n l); apply in_or_app; left; exact H.
Qed.

Lemma StronglySorted_firstn {A : Type} (R : A -> A -> Prop) (n : nat) (l : list A) :
  StronglySorted R l -> StronglySorted R (firstn n l).
Proof.
  revert n; induction l as [|a l IH]; intros [|n] H; simpl; try constructor.
  - inversion H; subst; apply IH; assumption.
  - inversion H as [|? ? _ Hall]; subst.
    rewrite Forall_forall in *; intros x Hx.
    apply Hall, (firstn_In n), Hx.
Qed.

Lemma NoDup_firstn {A : Type} (n : nat) (l : list A) :
  NoDup l -> NoDup (firstn n l).
Proof.
  intros H; rewrite <- (firstn_skipn n l) in H.
  apply NoDup_app_remove_r in H; exact H.
Qed.

Lemma StronglySorted_app {A : Type} (R : A -> A -> Prop) (l1 l2 : list A) :
  StronglySorted R l1 -> StronglySorted R l2 ->
  (forall x y, In x l1 -> In y l2 -> R x y) ->
  StronglySorted R (l1 ++ l2).
Proof.
  induction 1 as [|a l1 Hs IH Hall]; intros H2 Hx; simpl; [exact H2|].
  constructor.
  - apply IH; [exact H2 | intros x y Hin; apply Hx; right; exact Hin].
  - rewrite Forall_forall in *; intros y Hy.
    apply in_app_or in Hy; destruct Hy as [Hy|Hy];
      [apply Hall, Hy | apply Hx; [left; reflexivity | exact Hy]].
Qed.

Lemma StronglySorted_app_inv {A : Type} (R : A -> A -> Prop) (l1 l2 : list A) :
  StronglySorted R (l1 ++ l2) ->
  forall x y, In x l1 -> In y l2 -> R x y.
Proof.
  induction l1 as [|a l1 IH]; simpl; intros Hs x y Hx Hy; [destruct Hx|].
  inversion Hs as [|? ? Hs' Hall]; subst.
  destruct Hx as [<-|Hx].
  - rewrite Forall_forall in Hall. apply Hall, in_or_app. right; exact Hy.
  - apply (IH Hs' x y Hx Hy).
Qed.

Lemma StronglySorted_all {A : Type} (R : A -> A -> Prop) (l : list A) :
  (forall x y, In x l -> In y l -> R x y) -> StronglySorted R l.
Proof.
  induction l as [|a l IH]; intros H; constructor.
  - apply IH; intros x y Hx Hy; apply H; right; assumption.
  - rewrite Forall_forall; intros y Hy; apply H; [left; reflexivity | right; exact Hy].
Qed.

Lemma map_flat_map_comm {A B C : Type} (f : B -> C) (g : A -> list B) (l : list A) :
  map f (flat_map g l) = flat_map (fun a => map f (g a)) l.
Proof.
  induction l as [|a l IH]; simpl; [reflexivity|].
  rewrite map_app, IH; reflexivity.
Qed.

Lemma unwind_lookup {A B : Type} (on : A -> B -> bool) (from : list B) (rows : list A) :
  unwind_stage (lookup_stage on from rows) =
  flat_map (fun a => map (pair a) (filter (on a) from)) rows.
Proof.
  unfold unwind_stage, lookup_stage.
  induction rows as [|a rows IH]; simpl; [reflexivity|].
  rewrite IH; reflexivity.
Qed.

Section FlatMapFacts.
Context {A B : Type} (F : A -> list B).

Lemma flat_map_length_le (l : list A) :
  (forall a, In a l -> (List.length (F a) <= 1)%nat) ->
  (List.length (flat_map F l) <= List.length l)%nat.
Proof.
  induction l as [|a l IH]; intros H; simpl; [lia|].
  rewrite length_app.
  specialize (H a (or_introl eq_refl)) as Ha.
  assert (List.length (flat_map F l) <= List.length l)%nat
    by (apply IH; intros b Hb; apply H; right; exact Hb).
  lia.
Qed.

Lemma StronglySorted_flat_map (R : A -> A -> Prop) (S : B -> B -> Prop)
    (l : list A) :
  (forall a, StronglySorted S (F a)) ->
  (forall a b x y, R a b -> In x (F a) -> In y (F b) -> S x y) ->
  StronglySorted R l -> StronglySorted S (flat_map F l).
Proof.
  intros HF HRS; induction 1 as [|a l Hs IH Hall]; simpl; [constructor|].
  apply StronglySorted_app; [apply HF | exact IH|].
  intros x y Hx Hy. apply in_flat_map in Hy. destruct Hy as (b & Hb & Hy).
  rewrite Forall_forall in Hall.
  apply (HRS a b); [apply Hall, Hb | exact Hx | exact Hy].
Qed.

Lemma NoDup_flat_map {K : Type} (key : A -> K) (key' : B -> K) (l : list A) :
  (forall a x, In x (F a) -> key' x = key a) ->
  (forall a, In a l -> (List.length (F a) <= 1)%nat) ->
  NoDup (map key l) -> NoDup (map key' (flat_map F l)).
Proof.
  intros Hkey; induction l as [|a l IH]; simpl; intros Hlen Hnd; [constructor|].
  inversion Hnd as [|? ? Hnin Hnd']; subst.
  assert (Hrest : NoDup (map key' (flat_map F l)))
    by (apply IH; [intros b Hb; apply Hlen; right; exact Hb | exact Hnd']).
  assert (Hout : ~ In (key a) (map key' (flat_map F l))).
  { intros Hin. apply in_map_iff in Hin. destruct Hin as (x & Hx & Hin).
    apply in_flat_map in Hin. destruct Hin as (b & Hb & Hxb).
    apply Hnin. rewrite <- Hx, (Hkey b x Hxb). apply in_map, Hb. }
  specialize (Hlen a (or_introl eq_refl)).
  rewrite map_app.
  destruct (F a) as [|x [|y rest]] eqn:HFa; simpl in *; [exact Hrest| |lia].
  constructor; [|exact Hrest].
  rewrite (Hkey a x); [exact Hout|]. rewrite HFa; left; reflexivity.
Qed.
End FlatMapFacts.

Lemma filter_id_length_le (P : list Product.t) (k : ObjectId) :
  NoDup (map Product._id P) ->
  (List.length (filter (fun p => N.eqb k (Product._id p)) P) <= 1)%nat.
Proof.
  induction P as [|p P IH]; simpl; intros Hnd; [lia|].
  inversion Hnd as [|? ? Hnin Hnd']; subst.
  destruct (N.eqb_spec k (Product._id p)) as [->|Hne]; simpl.
  - rewrite (filter_nil_existsb _ P); [simpl; lia|].
    destruct (existsb _ P) eqn:Ex; [|reflexivity].
    apply existsb_exists in Ex. destruct Ex as (p' & Hp' & He).
    apply N.eqb_eq in He. exfalso; apply Hnin; rewrite He; apply in_map, Hp'.
  - apply IH, Hnd'.
Qed.

Lemma existsb_filter {A : Type} (p q : A -> bool) (l : list A) :
  existsb p (filter q l) = existsb (fun x => q x && p x) l.
Proof.
  induction l as [|a l IH]; simpl; [reflexivity|].
  destruct (q a); simpl; rewrite IH; reflexivity.
Qed.

Lemma sum_filter_disjoint {A : Type} (f : A -> Z) (p q : A -> bool) (l : list A) :
  (forall a, p a = true -> q a = true -> False) ->
  sumZ (map f (filter (fun a => p a || q a) l)) =
  sumZ (map f (filter p l)) + sumZ (map f (filter q l)).
Proof.
  intros Hd; induction l as [|a l IH]; simpl; [reflexivity|].
  destruct (p a) eqn:Hp, (q a) eqn:Hq; simpl; try (rewrite IH; lia).
  exfalso; apply (Hd a); assumption.
Qed.

Section OrderItems.
Variables (details : list OrderDetail.t).

Let on (o : Order.t) (d : OrderDetail.t) : bool :=
  N.eqb (Order._id o) (OrderDetail.orderId d).

Lemma order_items_cons (o : Order.t) (rows : list Order.t) :
  order_items details (o :: rows) =
  map (pair o) (filter (on o) details) ++ order_items details rows.
Proof. reflexivity. Qed.

Lemma order_items_In (rows : list Order.t) (o : Order.t) (d : OrderDetail.t) :
  In (o, d) (order_items details rows) <->
  In o rows /\ In d details /\ OrderDetail.orderId d = Order._id o.
Proof.
  unfold order_items; rewrite unwind_lookup, in_flat_map. split.
  - intros (o' & Ho' & Hin). apply in_map_iff in Hin.
    destruct Hin as (d' & Heq & Hd'). inversion Heq; subst.
    apply filter_In in Hd'. destruct Hd' as [Hd He].
    apply N.eqb_eq in He. auto.
  - intros (Ho & Hd & He). exists o; split; [exact Ho|].
    apply in_map, filter_In; split; [exact Hd | apply N.eqb_eq; auto].
Qed.

(** Summing over the joined rows is summing over the line items whose
    order is among the rows, when no two rows share their id. *)
Lemma order_items_sum (P : OrderDetail.t -> bool) (f : OrderDetail.t -> Z)
    (rows : list Order.t) :
  NoDup (map Order._id rows) ->
  sumZ (map (fun r => f (snd r))
          (filter (fun r => P (snd r)) (order_items details rows))) =
  sumZ (map f (filter (fun d => P d && existsb (fun o => on o d) rows) details)).
Proof.
  induction rows as [|o rows IH]; intros Hnd.
  - simpl. rewrite (filter_nil_existsb _ details); [reflexivity|].
    induction details as [|d ds IHd]; simpl; [reflexivity|].
    rewrite andb_false_r; exact IHd.
  - inversion Hnd as [|? ? Hnin Hnd']; subst.
    rewrite order_items_cons, filter_app, map_app, sumZ_app, (IH Hnd').
    cbn [existsb].
    rewrite (@filter_ext _
               (fun d => P d && (on o d || existsb (fun o' => on o' d) rows))
               (fun d => (P d && on o d)
                         || (P d && existsb (fun o' => on o' d) rows)));
      [|intros d; destruct (P d), (on o d); reflexivity].
    rewrite sum_filter_disjoint.
    + f_equal. clear.
      induction details as [|d ds IHd]; simpl; [reflexivity|].
      destruct (on o d) eqn:Ho; simpl.
      * destruct (P d); simpl; rewrite IHd; [reflexivity|].
        reflexivity.
      * rewrite andb_false_r; exact IHd.
    + intros d H1 H2.
      apply andb_true_iff in H1; apply andb_true_iff in H2.
      destruct H1 as [_ H1], H2 as [_ H2].
      apply existsb_exists in H2. destruct H2 as (o' & Ho' & H2).
      unfold on in *. apply N.eqb_eq in H1; apply N.eqb_eq in H2.
      apply Hnin. rewrite H1, <- H2. apply in_map, Ho'.
Qed.
End OrderItems.

(** ** Top-selling products *)

Lemma NoDup_map_filter {A K : Type} (key : A -> K) (p : A -> bool) (l : list A) :
  NoDup (map key l) -> NoDup (map key (filter p l)).
Proof.
  induction l as [|a l IH]; simpl; intros Hnd; [constructor|].
  inversion Hnd as [|? ? Hnin Hnd']; subst.
  destruct (p a); simpl; [|apply IH, Hnd'].
  constructor; [|apply IH, Hnd'].
  intros Hin; apply Hnin.
  apply in_map_iff in Hin. destruct Hin as (x & Hx & Hin).
  apply filter_In in Hin. rewrite <- Hx; apply in_map, Hin.
Qed.

Lemma NoDup_app_disjoint {A : Type} (l1 l2 : list A) (x : A) :
  NoDup (l1 ++ l2) -> In x l1 -> In x l2 -> False.
Proof.
  induction l1 as [|a l1 IH]; simpl; intros Hnd H1 H2; [exact H1|].
  inversion Hnd as [|? ? Hnin Hnd']; subst.
  destruct H1 as [->|H1]; [|exact (IH Hnd' H1 H2)].
  apply Hnin, in_or_app; right; exact H2.
Qed.

Lemma product_fold_quantity (l : list (Order.t * OrderDetail.t)) (acc : Z * JsNumber) :
  fst (fold_left product_step l acc) =
  fst acc + sumZ (map (fun r => OrderDetail.quantity (snd r)) l).
Proof.
  apply (fold_measure product_step fst (fun r => OrderDetail.quantity (snd r))).
  intros; reflexivity.
Qed.

(** The running total of the revenue of a group stays an integer as long
    as every product of a quantity and a price is exact. *)
Lemma product_fold_revenue (l : list (Order.t * OrderDetail.t)) (n z : Z) :
  (forall r, In r l ->
     Z.abs (OrderDetail.quantity (snd r) * OrderDetail.unitPrice (snd r)) < 2 ^ 53) ->
  snd (fold_left product_step l (n, JsInt z)) =
  JsInt (z + sumZ (map (fun r => OrderDetail.quantity (snd r) * OrderDetail.unitPrice (snd r)) l)).
Proof.
  revert n z; induction l as [|r l IH]; intros n z Hl.
  - simpl. f_equal. lia.
  - cbn [fold_left]. unfold product_step at 2. cbn [fst snd].
    rewrite (js_double_exact _ (Hl r (or_introl eq_refl))). cbn [js_add].
    rewrite IH by (intros r' Hr'; apply Hl; right; exact Hr').
    cbn [map sumZ fold_right].
    fold (sumZ (map (fun r => OrderDetail.quantity (snd r) * OrderDetail.unitPrice (snd r)) l)).
    f_equal. lia.
Qed.

Section TopProductsFacts.
Context {RT : Runtime}.
Variables (st : Store) (m : MatchStage.t).

Let items : list (Order.t * OrderDetail.t) :=
  order_items (orderdetails st) (filter (matches m) (orders st)).

Let of_product (pid : ObjectId) : list (Order.t * OrderDetail.t) :=
  filter (fun r => N.eqb (OrderDetail.productId (snd r)) pid) items.

Lemma topProducts_unfold :
  topProducts st m =
  flat_map
    (fun g =>
       map (fun p => {| TopProduct._id := ProductGroup._id g;
                        TopProduct.totalQuantity := ProductGroup.totalQuantity g;
                        TopProduct.totalRevenue := ProductGroup.totalRevenue g;
                        TopProduct.product := p |})
         (filter (fun p => N.eqb (ProductGroup._id g) (Product._id p)) (products st)))
    (top_groups st m).
Proof.
  unfold topProducts; rewrite unwind_lookup, map_flat_map_comm.
  apply flat_map_ext; intros g; rewrite map_map; reflexivity.
Qed.

Lemma top_groups_sorted_groups :
  top_groups st m =
  firstn 10
    (sort_stage
       (fun a b => ProductGroup.totalQuantity b <=? ProductGroup.totalQuantity a)
       (product_groups st m)).
Proof. reflexivity. Qed.

(** A group stands for a product with a line item among the joined rows,
    and holds the totals of the rows of the product. *)
Lemma product_groups_In (g : ProductGroup.t) :
  In g (product_groups st m) <->
  (exists r, In r items /\ OrderDetail.productId (snd r) = ProductGroup._id g) /\
  ProductGroup.totalQuantity g =
    sumZ (map (fun r => OrderDetail.quantity (snd r)) (of_product (ProductGroup._id g))) /\
  ProductGroup.totalRevenue g =
    js_round (snd (fold_left product_step (of_product (ProductGroup._id g)) (0, JsInt 0))).
Proof.
  unfold product_groups. fold items. rewrite in_map_iff. split.
  - intros ([k acc] & <- & Hin). cbn [product_group ProductGroup._id
                                       ProductGroup.totalQuantity
                                       ProductGroup.totalRevenue fst snd].
    apply (group_stage_spec _ _ _ _ N.eqb_eq) in Hin.
    destruct Hin as [Hex Hacc]. fold (of_product k) in Hacc.
    split; [exact Hex|]. rewrite Hacc, product_fold_quantity. split; reflexivity.
  - intros (Hex & Htq & Htr).
    exists (ProductGroup._id g,
            fold_left product_step (of_product (ProductGroup._id g)) (0, JsInt 0)).
    split.
    + destruct g as [k tq tr].
      cbn [ProductGroup._id ProductGroup.totalQuantity ProductGroup.totalRevenue] in *.
      unfold product_group; cbn [fst snd].
      rewrite product_fold_quantity, Htq, Htr. reflexivity.
    + apply (group_stage_spec _ _ _ _ N.eqb_eq). split; [exact Hex | reflexivity].
Qed.

Lemma product_groups_NoDup : NoDup (map ProductGroup._id (product_groups st m)).
Proof.
  unfold product_groups. rewrite map_map.
  apply (group_NoDup _ _ _ _ N.eqb_eq).
Qed.

Lemma product_groups_sorted :
  StronglySorted
    (fun a b => ProductGroup.totalQuantity b <= ProductGroup.totalQuantity a)
    (sort_stage
       (fun a b => ProductGroup.totalQuantity b <=? ProductGroup.totalQuantity a)
       (product_groups st m)).
Proof.
  apply Sorted_StronglySorted; [intros a b c; lia|].
  assert (H : Sorted
                (fun a b => (ProductGroup.totalQuantity b <=? ProductGroup.totalQuantity a) = true)
                (sort_stage
                   (fun a b => ProductGroup.totalQuantity b <=? ProductGroup.totalQuantity a)
                   (product_groups st m))).
  { apply (sort_stage_Sorted
             (fun a b => ProductGroup.totalQuantity b <=? ProductGroup.totalQuantity a)).
    intros a b.
    destruct (Z.leb_spec (ProductGroup.totalQuantity b) (ProductGroup.totalQuantity a));
      [left; reflexivity | right; apply Z.leb_le; lia]. }
  induction H as [|a l' _ IH Hd]; constructor; [exact IH|].
  destruct Hd; constructor. apply Z.leb_le; assumption.
Qed.

Lemma top_groups_product_groups (g : ProductGroup.t) :
  In g (top_groups st m) -> In g (product_groups st m).
Proof.
  rewrite top_groups_sorted_groups. intros Hin.
  apply firstn_In, sort_stage_in in Hin. exact Hin.
Qed.

Lemma top_groups_In (g : ProductGroup.t) :
  In g (top_groups st m) ->
  (exists r, In r items /\ OrderDetail.productId (snd r) = ProductGroup._id g) /\
  ProductGroup.totalQuantity g =
    sumZ (map (fun r => OrderDetail.quantity (snd r)) (of_product (ProductGroup._id g))) /\
  ProductGroup.totalRevenue g =
    js_round (snd (fold_left product_step (of_product (ProductGroup._id g)) (0, JsInt 0))).
Proof.
  intros Hin. apply product_groups_In, top_groups_product_groups, Hin.
Qed.

(** A group that the limit leaves out comes after ten groups of other
    products, none of which sold less. *)
Lemma left_out_group (g : ProductGroup.t) :
  In g (product_groups st m) -> ~ In g (top_groups st m) ->
  List.length (top_groups st m) = 10%nat /\
  forall h, In h (top_groups st m) ->
    ProductGroup._id h <> ProductGroup._id g /\
    ProductGroup.totalQuantity g <= ProductGroup.totalQuantity h.
Proof.
  rewrite top_groups_sorted_groups.
  set (sorted := sort_stage
                   (fun a b => ProductGroup.totalQuantity b <=? ProductGroup.totalQuantity a)
                   (product_groups st m)).
  intros Hg Hout.
  assert (Hgs : In g sorted) by (apply sort_stage_in; exact Hg).
  rewrite <- (firstn_skipn 10 sorted) in Hgs.
  apply in_app_or in Hgs. destruct Hgs as [Hgs|Hgs]; [contradiction|].
  assert (Hsorted : StronglySorted
                      (fun a b => ProductGroup.totalQuantity b <= ProductGroup.totalQuantity a)
                      (firstn 10 sorted ++ skipn 10 sorted))
    by (rewrite firstn_skipn; apply product_groups_sorted).
  assert (Hnd : NoDup (map ProductGroup._id (firstn 10 sorted ++ skipn 10 sorted))).
  { rewrite firstn_skipn.
    eapply Permutation_NoDup; [apply Permutation_map, sort_stage_perm|].
    apply product_groups_NoDup. }
  split.
  - rewrite length_firstn.
    assert (Hlen : (1 <= List.length (skipn 10 sorted))%nat)
      by (destruct (skipn 10 sorted); [destruct Hgs | simpl; lia]).
    rewrite length_skipn in Hlen. lia.
  - intros h Hh. split.
    + intros Heq. rewrite map_app in Hnd.
      apply (NoDup_app_disjoint _ _ (ProductGroup._id g) Hnd).
      * rewrite <- Heq. apply in_map, Hh.
      * apply in_map, Hgs.
    + apply (StronglySorted_app_inv _ _ _ Hsorted _ _ Hh Hgs).
Qed.

Lemma top_groups_NoDup : NoDup (map ProductGroup._id (top_groups st m)).
Proof.
  unfold top_groups, limit_stage.
  rewrite <- firstn_map; apply NoDup_firstn.
  eapply Permutation_NoDup; [apply Permutation_map, sort_stage_perm|].
  rewrite map_map; simpl. apply (group_NoDup _ _ _ _ N.eqb_eq).
Qed.

Lemma top_groups_sorted :
  StronglySorted
    (fun a b => ProductGroup.totalQuantity b <= ProductGroup.totalQuantity a)
    (top_groups st m).
Proof.
  unfold top_groups, limit_stage. apply StronglySorted_firstn.
  apply Sorted_StronglySorted; [intros a b c; lia|].
  eapply Sorted_ind with (P := fun l => Sorted _ l);
    [| |apply (sort_stage_Sorted
                 (fun a b => ProductGroup.totalQuantity b <=? ProductGroup.totalQuantity a))].
  - constructor.
  - intros a l _ IH Hd; constructor; [exact IH|].
    destruct Hd; constructor. apply Z.leb_le; assumption.
  - intros a b; simpl. destruct (Z.leb_spec (ProductGroup.totalQuantity b) (ProductGroup.totalQuantity a));
      [left; reflexivity | right; apply Z.leb_le; lia].
Qed.

Lemma top_groups_length : (List.length (top_groups st m) <= 10)%nat.
Proof. unfold top_groups, limit_stage; apply firstn_le_length. Qed.

Lemma topProducts_In (row : TopProduct.t) :
  In row (topProducts st m) <->
  In {| ProductGroup._id := TopProduct._id row;
        ProductGroup.totalQuantity := TopProduct.totalQuantity row;
        ProductGroup.totalRevenue := TopProduct.totalRevenue row |} (top_groups st m) /\
  In (TopProduct.product row) (products st) /\
  Product._id (TopProduct.product row) = TopProduct._id row.
Proof.
  rewrite topProducts_unfold, in_flat_map. split.
  - intros ([k tq tr] & Hg & Hin). apply in_map_iff in Hin.
    destruct Hin as (p & <- & Hp). apply filter_In in Hp; simpl in *.
    destruct Hp as [Hp He]. apply N.eqb_eq in He. auto.
  - intros (Hg & Hp & He). eexists; split; [exact Hg|].
    apply in_map_iff. exists (TopProduct.product row); simpl.
    split; [destruct row; reflexivity|].
    apply filter_In; split; [exact Hp | apply N.eqb_eq; auto].
Qed.

Lemma topProducts_sorted :
  StronglySorted
    (fun a b => TopProduct.totalQuantity b <= TopProduct.totalQuantity a)
    (topProducts st m).
Proof.
  rewrite topProducts_unfold.
  apply (StronglySorted_flat_map _
           (fun a b => ProductGroup.totalQuantity b <= ProductGroup.totalQuantity a)).
  - intros g. apply StronglySorted_all. intros x y Hx Hy.
    apply in_map_iff in Hx; apply in_map_iff in Hy.
    destruct Hx as (? & <- & _), Hy as (? & <- & _); simpl; lia.
  - intros a b x y Hab Hx Hy.
    apply in_map_iff in Hx; apply in_map_iff in Hy.
    destruct Hx as (? & <- & _), Hy as (? & <- & _); simpl; exact Hab.
  - apply top_groups_sorted.
Qed.

Hypothesis products_unique : NoDup (map Product._id (products st)).

Lemma topProducts_length : (List.length (topProducts st m) <= 10)%nat.
Proof.
  rewrite topProducts_unfold.
  etransitivity; [apply flat_map_length_le | apply top_groups_length].
  intros g _. rewrite length_map. apply filter_id_length_le, products_unique.
Qed.

Lemma topProducts_NoDup : NoDup (map TopProduct._id (topProducts st m)).
Proof.
  rewrite topProducts_unfold.
  apply (NoDup_flat_map _ ProductGroup._id).
  - intros g x Hx. apply in_map_iff in Hx. destruct Hx as (? & <- & _); reflexivity.
  - intros g _. rewrite length_map. apply filter_id_length_le, products_unique.
  - apply top_groups_NoDup.
Qed.
End TopProductsFacts.

Lemma existsb_pointwise {A : Type} (p q : A -> bool) (l : list A) :
  (forall a, p a = q a) -> existsb p l = existsb q l.
Proof.
  intros H; induction l as [|a l IH]; simpl; [reflexivity|].
  rewrite H, IH; reflexivity.
Qed.

Ltac solve_NoDup :=
  repeat (constructor; [simpl; intuition discriminate|]); constructor.

Lemma sample_store_unique : unique_ids sample_store.
Proof. repeat split; simpl; solve_NoDup. Qed.

Lemma ten_sold_store_unique : unique_ids ten_sold_store.
Proof. repeat split; simpl; solve_NoDup. Qed.

Section LineItems.
Context {RT : Runtime}.
Variables (st : Store) (q : SalesQuery).

Lemma line_items_joined (pid : ObjectId) :
  filter
    (fun d =>
       N.eqb (OrderDetail.productId d) pid &&
       existsb (fun o => N.eqb (Order._id o) (OrderDetail.orderId d))
         (filter (matches (matchStage_of q)) (orders st)))
    (orderdetails st) =
  line_items st q pid.
Proof.
  apply filter_ext; intros d. f_equal.
  rewrite existsb_filter. apply existsb_pointwise.
  intros o; rewrite matches_selects; reflexivity.
Qed.

Lemma line_items_In (pid : ObjectId) (d : OrderDetail.t) :
  In d (line_items st q pid) <->
  OrderDetail.productId d = pid /\
  exists o, In (o, d) (order_items (orderdetails st)
                         (filter (matches (matchStage_of q)) (orders st))).
Proof.
  unfold line_items. rewrite filter_In, andb_true_iff, N.eqb_eq, existsb_exists.
  split.
  - intros (Hd & Hp & o & Ho & H). apply andb_true_iff in H.
    destruct H as [Hs He]. apply N.eqb_eq in He.
    split; [exact Hp|]. exists o. apply order_items_In.
    rewrite filter_In, matches_selects. auto.
  - intros (Hp & o & H). apply order_items_In in H.
    destruct H as (Ho & Hd & He). apply filter_In in Ho.
    rewrite matches_selects in Ho. destruct Ho as [Ho Hs].
    split; [exact Hd | split; [exact Hp|]].
    exists o; split; [exact Ho|].
    apply andb_true_iff; split; [exact Hs | apply N.eqb_eq; auto].
Qed.

Hypothesis orders_unique : NoDup (map Order._id (orders st)).

Let joined : list (Order.t * OrderDetail.t) :=
  order_items (orderdetails st) (filter (matches (matchStage_of q)) (orders st)).

(** The quantity of a group is that of the line items of its product. *)
Lemma group_quantity (pid : ObjectId) :
  sumZ (map (fun r => OrderDetail.quantity (snd r))
          (filter (fun r => N.eqb (OrderDetail.productId (snd r)) pid) joined)) =
  sumZ (map OrderDetail.quantity (line_items st q pid)).
Proof.
  unfold joined.
  rewrite (order_items_sum _ (fun d => N.eqb (OrderDetail.productId d) pid)
             OrderDetail.quantity _ (NoDup_map_filter _ _ _ orders_unique)).
  rewrite line_items_joined. reflexivity.
Qed.

(** Within the exact range the revenue of a group is that of the line items
    of its product. *)
Lemma group_revenue (pid : ObjectId) :
  exact_revenues st ->
  js_round
    (snd (fold_left product_step
            (filter (fun r => N.eqb (OrderDetail.productId (snd r)) pid) joined)
            (0, JsInt 0))) =
  JsInt (sumZ (map (fun d => OrderDetail.quantity d * OrderDetail.unitPrice d)
                 (line_items st q pid))).
Proof.
  intros Hex. unfold exact_revenues in Hex.
  set (f := fun d => OrderDetail.quantity d * OrderDetail.unitPrice d) in *.
  assert (Hpos : forall d, 0 <= Z.abs (f d)) by (intros; apply Z.abs_nonneg).
  rewrite product_fold_revenue.
  - cbn [Z.add js_round].
    change (fun r : Order.t * OrderDetail.t =>
              OrderDetail.quantity (snd r) * OrderDetail.unitPrice (snd r))
      with (fun r : Order.t * OrderDetail.t => f (snd r)).
    unfold joined.
    rewrite (order_items_sum _ (fun d => N.eqb (OrderDetail.productId d) pid)
               f _ (NoDup_map_filter _ _ _ orders_unique)).
    rewrite line_items_joined.
    apply js_double_exact.
    eapply Z.le_lt_trans; [apply sumZ_abs|].
    eapply Z.le_lt_trans; [apply sumZ_filter_le, Hpos | exact Hex].
  - intros [o d] Hr. apply filter_In in Hr. destruct Hr as [Hr _].
    apply order_items_In in Hr. destruct Hr as (_ & Hd & _). cbn [snd].
    eapply Z.le_lt_trans; [|exact Hex].
    apply (sumZ_In_le (fun d => Z.abs (f d)) _ d Hpos Hd).
Qed.
End LineItems.




(** C10. GET /analytics/sales: every entry of topSellingProducts carries an
    existing Product document with the entry's productId; a group among the
    ten whose product is not in the Products collection has no entry, the
    response being a success all the same, so that the list can have fewer
    than 10 entries while 10 distinct products have sales in completed
    orders. *)
Theorem top_products_resolve_or_drop :
  (forall (RT : Runtime) (st : Store) (q : SalesQuery),
     exists r, get_analytics_sales st q = res_json r /\
       (forall row, In row (topSellingProducts r) ->
          In (TopProduct.product row) (products st) /\
          Product._id (TopProduct.product row) = TopProduct._id row) /\
       (forall g, In g (top_groups st (matchStage_of q)) ->
          ~ In (ProductGroup._id g) (map Product._id (products st)) ->
          ~ In (ProductGroup._id g) (map TopProduct._id (topSellingProducts r)))) /\
  (exists r,
     get_analytics_sales (RT := ref_runtime) ten_sold_store no_range = res_json r /\
     unique_ids ten_sold_store /\
     NoDup ten_ids /\ List.length ten_ids = 10%nat /\
     (forall pid, In pid ten_ids ->
        line_items (RT := ref_runtime) ten_sold_store no_range pid <> []) /\
     List.length (topSellingProducts r) = 9%nat /\
     ~ In 10%N (map TopProduct._id (topSellingProducts r))).
Proof.
  split.
  - intros RT st q. eexists; split; [reflexivity|]; cbn [topSellingProducts].
    split.
    + intros row Hin. apply topProducts_In in Hin. tauto.
    + intros g _ Hnot Hin. apply Hnot.
      apply in_map_iff in Hin. destruct Hin as (row & <- & Hrow).
      apply topProducts_In in Hrow. destruct Hrow as (_ & Hp & <-).
      apply in_map, Hp.
  - eexists; split; [reflexivity|].
    split; [exact ten_sold_store_unique|].
    split; [unfold ten_ids; simpl; solve_NoDup|].
    split; [reflexivity|].
    split.
    + intros pid Hin. unfold ten_ids in Hin; simpl in Hin.
      repeat (destruct Hin as [<-|Hin]; [vm_compute; discriminate|]).
      destruct Hin.
    + split; [vm_compute; reflexivity|].
      vm_compute. intuition discriminate.
Qed.

(** ** Product analytics *)

Section ProductSalesFacts.
Context {RT : Runtime}.
Variables (st : Store) (now : Date).

Let items : list (Order.t * OrderDetail.t) :=
  order_items (orderdetails st) (filter (recent_completed now) (orders st)).

(** [setDate(getDate() - 30)] keeps what the wall clock reads but for the
    day, which it moves back by 30. *)
Lemma thirtyDaysAgo_spec : thirtyDaysAgo now = thirty_days_before now.
Proof.
  unfold thirtyDaysAgo, setDate, getDate, thirty_days_before. cbv zeta.
  set (t := LocalTime now). f_equal.
  unfold MakeDate, MakeDay, TimeWithinDay, date_of, year_of, month_of.
  replace (days_from_civil (fst (fst (civil_from_days (day_of t))))
             (snd (fst (civil_from_days (day_of t)))) 1
           + (snd (civil_from_days (day_of t)) - 30) - 1)
    with (days_from_civil (fst (fst (civil_from_days (day_of t))))
            (snd (fst (civil_from_days (day_of t))))
            (snd (civil_from_days (day_of t))) - 30)
    by (rewrite (days_from_civil_day _ _ (snd (civil_from_days (day_of t)))); lia).
  rewrite civil_round_trip.
  assert (H := Z.div_mod t msPerDay ltac:(discriminate)).
  unfold day_of, msPerDay in *. lia.
Qed.

(** On a clock with a fixed offset to UTC the window opens 30 x 24 hours
    before [now]. *)
Lemma thirty_days_fixed_offset (c : Z) :
  (forall t, LocalTime t = t + c) -> (forall t, UTC t = t - c) ->
  thirty_days_before now = now - 30 * msPerDay.
Proof.
  intros Hl Hu. unfold thirty_days_before. rewrite Hl, Hu. lia.
Qed.

Lemma recent_completed_spec (o : Order.t) :
  recent_completed now o = true <->
  Order.status o = "completed" /\ thirty_days_before now <= Order.orderDate o.
Proof.
  unfold recent_completed. rewrite thirtyDaysAgo_spec.
  rewrite andb_true_iff, Z.leb_le, String.eqb_eq; tauto.
Qed.

Lemma sold_recently_items (pid : ObjectId) :
  sold_recently st now pid <->
  exists r, In r items /\ OrderDetail.productId (snd r) = pid.
Proof.
  unfold sold_recently, items. split.
  - intros (o & d & Ho & Hd & Hs & Ht & He & Hp).
    exists (o, d); split; [|exact Hp].
    apply order_items_In; split; [|auto].
    apply filter_In; split; [exact Ho | apply recent_completed_spec; auto].
  - intros ([o d] & Hin & Hp). apply order_items_In in Hin.
    destruct Hin as (Ho & Hd & He). apply filter_In in Ho.
    destruct Ho as [Ho Hr]. apply recent_completed_spec in Hr.
    exists o, d; tauto.
Qed.

Lemma productSales_In (row : ProductSales.t) :
  In row (productSales_of st now) <->
  (exists r, In r items /\ OrderDetail.productId (snd r) = ProductSales._id row) /\
  ProductSales.totalSales row =
    sumZ (map (fun r => OrderDetail.quantity (snd r))
            (filter (fun r => N.eqb (OrderDetail.productId (snd r)) (ProductSales._id row))
               items)).
Proof.
  unfold productSales_of; fold items. rewrite in_map_iff.
  split.
  - intros ([k x] & <- & Hin); simpl.
    apply (group_stage_spec _ _ _ _ N.eqb_eq) in Hin.
    rewrite fold_left_add in Hin. destruct Hin as [Hex ->]. auto.
  - intros (Hex & Hsum). destruct row as [k x]; simpl in *.
    exists (k, x); split; [reflexivity|].
    apply (group_stage_spec _ _ _ _ N.eqb_eq); split; [exact Hex|].
    rewrite fold_left_add; exact Hsum.
Qed.

Lemma productSales_ids (pid : ObjectId) :
  In pid (map ProductSales._id (productSales_of st now)) <->
  sold_recently st now pid.
Proof.
  rewrite sold_recently_items, in_map_iff. split.
  - intros (row & <- & Hin). apply productSales_In in Hin. apply Hin.
  - intros Hex.
    eexists {| ProductSales._id := pid; ProductSales.totalSales := _ |}.
    split; [reflexivity|]. apply productSales_In; simpl; split; [exact Hex | reflexivity].
Qed.

Lemma productSales_NoDup :
  NoDup (map ProductSales._id (productSales_of st now)).
Proof.
  unfold productSales_of. rewrite map_map; simpl.
  apply (group_NoDup _ _ _ _ N.eqb_eq).
Qed.

Lemma recent_line_items_joined (pid : ObjectId) :
  filter
    (fun d =>
       N.eqb (OrderDetail.productId d) pid &&
       existsb (fun o => N.eqb (Order._id o) (OrderDetail.orderId d))
         (filter (recent_completed now) (orders st)))
    (orderdetails st) =
  recent_line_items st now pid.
Proof.
  apply filter_ext; intros d. f_equal.
  rewrite existsb_filter. apply existsb_pointwise.
  intros o; unfold recent_completed. rewrite thirtyDaysAgo_spec.
  rewrite (andb_comm (_ <=? _)); reflexivity.
Qed.
End ProductSalesFacts.



(** ** The customer list *)

Lemma append_snoc (a : string) (c : ascii) (b : string) :
  ((a ++ String c EmptyString) ++ b)%string = (a ++ String c b)%string.
Proof.
  induction a as [|x a IH]; simpl; [reflexivity | rewrite IH; reflexivity].
Qed.

Lemma append_empty_r (a : string) : (a ++ EmptyString)%string = a.
Proof.
  induction a as [|x a IH]; simpl; [reflexivity | rewrite IH; reflexivity].
Qed.

Lemma split_colon_aux_spec (s cur : string) :
  split_colon_aux cur s =
  (cur ++ before_colon s)%string ::
  match after_colon s with
  | Some rest => split_colon_aux EmptyString rest
  | None => []
  end.
Proof.
  revert cur; induction s as [|c s IH]; intros cur; simpl.
  - rewrite append_empty_r; reflexivity.
  - destruct (Ascii.eqb c ":").
    + rewrite append_empty_r; reflexivity.
    + rewrite IH, append_snoc; reflexivity.
Qed.

Lemma sort_of_spec (s : string) :
  s <> EmptyString ->
  sort_of (Some s) = Some (sort_field s, sort_direction s).
Proof.
  intros Hs. unfold sort_of, truthy.
  destruct (String.eqb_spec s EmptyString) as [->|_]; [contradiction|].
  cbn [negb]. unfold split_colon, sort_field, sort_direction, sort_descending.
  rewrite split_colon_aux_spec; simpl.
  destruct (after_colon s) as [rest|]; [|reflexivity].
  rewrite split_colon_aux_spec; simpl. reflexivity.
Qed.

Lemma before_colon_app (field rest : string) :
  no_colon field = true ->
  before_colon (field ++ String ":" rest) = field /\
  after_colon (field ++ String ":" rest) = Some rest.
Proof.
  induction field as [|c f IH]; simpl; intros H; [auto|].
  apply andb_true_iff in H. destruct H as [Hc Hf].
  apply negb_true_iff in Hc. rewrite Hc.
  destruct (IH Hf) as [-> ->]. auto.
Qed.

Lemma before_colon_no_colon (s : string) :
  no_colon s = true -> before_colon s = s /\ after_colon s = None.
Proof.
  induction s as [|c s IH]; simpl; intros H; [auto|].
  apply andb_true_iff in H. destruct H as [Hc Hs].
  apply negb_true_iff in Hc. rewrite Hc.
  destruct (IH Hs) as [-> ->]. auto.
Qed.

(** A parameter [field:order] names [field] and is descending exactly when
    [order] is [desc]; one without a colon names itself, ascending. *)
Lemma sort_field_order (field order : string) :
  no_colon field = true -> no_colon order = true ->
  sort_field (field ++ String ":" order) = field /\
  sort_direction (field ++ String ":" order) =
    (if String.eqb order "desc" then -1 else 1).
Proof.
  intros Hf Ho. unfold sort_field, sort_direction, sort_descending.
  destruct (before_colon_app field order Hf) as [-> ->].
  destruct (before_colon_no_colon order Ho) as [-> _]. auto.
Qed.

(** Of a parameter with more colons the parts after the second are not
    read. *)
Lemma sort_field_order_rest (field order rest : string) :
  no_colon field = true -> no_colon order = true ->
  sort_field (field ++ String ":" (order ++ String ":" rest)) = field /\
  sort_direction (field ++ String ":" (order ++ String ":" rest)) =
    (if String.eqb order "desc" then -1 else 1).
Proof.
  intros Hf Ho. unfold sort_field, sort_direction, sort_descending.
  destruct (before_colon_app field (order ++ String ":" rest) Hf) as [-> ->].
  destruct (before_colon_app order rest Ho) as [-> _]. auto.
Qed.

Lemma sort_field_alone (s : string) :
  no_colon s = true -> sort_field s = s /\ sort_direction s = 1.
Proof.
  intros H. unfold sort_field, sort_direction, sort_descending.
  destruct (before_colon_no_colon s H) as [-> ->]. auto.
Qed.

Lemma bson_leb_total (a b : BsonValue) :
  bson_leb a b = true \/ bson_leb b a = true.
Proof.
  destruct a, b; simpl; auto.
  - apply String.leb_total.
  - destruct (N.leb_spec n n0); [left; reflexivity | right; apply N.leb_le; lia].
Qed.

Lemma sort_leb_total (field : string) (dir : Z) (a b : Customer.t) :
  sort_leb field dir a b = true \/ sort_leb field dir b a = true.
Proof.
  unfold sort_leb; destruct (dir =? -1); apply bson_leb_total.
Qed.

Section CustomersFacts.
Context {RT : Runtime}.

Lemma apply_sort_perm (sort : option (string * Z)) (docs sorted : list Customer.t) :
  apply_sort sort docs = Ok sorted -> Permutation docs sorted.
Proof.
  unfold apply_sort. destruct sort as [[field dir]|].
  - destruct (sort_path_ok field); [|discriminate].
    intros H; inversion H; subst. apply sort_stage_perm.
  - intros H; inversion H; subst. reflexivity.
Qed.

Lemma apply_sort_Sorted (field : string) (dir : Z) (docs sorted : list Customer.t) :
  apply_sort (Some (field, dir)) docs = Ok sorted ->
  Sorted (fun a b => sort_leb field dir a b = true) sorted.
Proof.
  unfold apply_sort. destruct (sort_path_ok field); [|discriminate].
  intros H; inversion H; subst.
  apply (sort_stage_Sorted (sort_leb field dir)), sort_leb_total.
Qed.

Lemma apply_skip_inv (skip : JsNumber) (docs l : list Customer.t) :
  apply_skip skip docs = Ok l -> exists m, l = skipn m docs.
Proof.
  unfold apply_skip.
  destruct (match skip with JsInt n => Some n | _ => safeNumber skip end) as [n|];
    [|discriminate].
  destruct (n <? 0); [discriminate|].
  intros H; inversion H; subst. eexists; reflexivity.
Qed.

Lemma apply_limit_inv (limit : option JsNumber) (docs l : list Customer.t) :
  apply_limit limit docs = Ok l -> exists n, l = firstn n docs.
Proof.
  unfold apply_limit.
  assert (Hall : docs = firstn (List.length docs) docs)
    by (symmetry; apply firstn_all).
  destruct limit as [lim|]; [|intros H; inversion H; subst; eexists; exact Hall].
  destruct (match lim with JsInt n => Some n | _ => safeNumber lim end) as [n|];
    [|discriminate].
  destruct n; intros H; inversion H; subst; eexists;
    try reflexivity; exact Hall.
Qed.

Variables (st : Store) (q : CustomersQuery).

Lemma get_customers_json (r : CustomerList.t) :
  get_customers st q = res_json r <-> list_customers st q = Ok r.
Proof.
  unfold get_customers. destruct (list_customers st q) as [r'|e].
  - split; intros H; inversion H; reflexivity.
  - split; intros H; discriminate.
Qed.

Lemma get_customers_status :
  statusCode (get_customers st q) = 200 \/ statusCode (get_customers st q) = 500.
Proof.
  unfold get_customers. destruct (list_customers st q); [left | right]; reflexivity.
Qed.

(** What a returned list is made of: the customers the filter selects,
    sorted, a number of them skipped and a number of the rest kept. *)
Lemma list_customers_inv (r : CustomerList.t) :
  list_customers st q = Ok r ->
  exists pred sorted n m,
    compile_filter (filter_of (search q)) = Ok pred /\
    apply_sort (sort_of (sortBy q)) (filter pred (customers st)) = Ok sorted /\
    CustomerList.customers r = firstn n (skipn m sorted) /\
    CustomerList.total r = Z.of_nat (List.length (filter pred (customers st))).
Proof.
  unfold list_customers, countDocuments, find_customers.
  destruct (query_limit _) as [lim|]; [cbn [bind] | discriminate].
  destruct (compile_filter _) as [pred|]; [cbn [bind] | discriminate].
  destruct (apply_sort _ _) as [sorted|] eqn:Hsort; [cbn [bind] | discriminate].
  destruct (apply_skip _ _) as [skipped|] eqn:Hskip; [cbn [bind] | discriminate].
  destruct (apply_limit _ _) as [kept|] eqn:Hlim; [cbn [bind] | discriminate].
  intros H; inversion H; subst; cbn.
  apply apply_skip_inv in Hskip. destruct Hskip as [m ->].
  apply apply_limit_inv in Hlim. destruct Hlim as [n ->].
  exists pred, sorted, n, m. auto.
Qed.
End CustomersFacts.

Lemma ceil_div_bounds (total l : Z) :
  1 <= l ->
  exists n, js_ceil_div total (JsInt l) = JsInt n /\ (n - 1) * l < total <= n * l.
Proof.
  intros Hl. exists (- ((- total) / l)). split.
  - destruct l; try lia; reflexivity.
  - assert (H := Z.div_mod (- total) l ltac:(lia)).
    assert (H' := Z.mod_pos_bound (- total) l ltac:(lia)). nia.
Qed.

Section Pagination.
Context {RT : Runtime}.
Variables (st : Store) (q : CustomersQuery) (p l : Z).
Hypothesis number_empty : Number_empty RT.
Hypothesis page_is : reads_as (page q) 1 p.
Hypothesis limit_is : reads_as (limit q) 10 l.
Hypothesis page_pos : 1 <= p.
Hypothesis limit_pos : 1 <= l.

Lemma list_customers_page (pred : Customer.t -> bool) (sorted : list Customer.t) :
  compile_filter (filter_of (search q)) = Ok pred ->
  apply_sort (sort_of (sortBy q)) (filter pred (customers st)) = Ok sorted ->
  list_customers st q =
  Ok {| CustomerList.customers :=
          firstn (Z.to_nat l) (skipn (Z.to_nat ((p - 1) * l)) sorted);
        CustomerList.totalPages :=
          js_ceil_div (Z.of_nat (List.length (filter pred (customers st)))) (JsInt l);
        CustomerList.currentPage :=
          js_parseInt
            match page q with Some s => JsString s | None => JsNum (JsInt 1) end;
        CustomerList.total := Z.of_nat (List.length (filter pred (customers st))) |}.
Proof.
  intros Hc Hs. unfold list_customers; cbv zeta.
  set (pageV := match page q with Some s => JsString s | None => JsNum (JsInt 1) end).
  set (limitV := match limit q with Some s => JsString s | None => JsNum (JsInt 10) end).
  assert (Hpv : to_number pageV = JsInt p).
  { unfold pageV, reads_as in *. destruct (page q); simpl; congruence. }
  assert (Hlv : to_number limitV = JsInt l).
  { unfold limitV, reads_as in *. destruct (limit q); simpl; congruence. }
  assert (Hql : query_limit limitV = Ok (Some (JsInt l))).
  { unfold limitV, reads_as in *. destruct (limit q) as [s|]; simpl.
    - destruct (String.eqb_spec s EmptyString) as [->|_].
      + unfold Number_empty in number_empty.
        rewrite number_empty in limit_is. inversion limit_is; lia.
      + rewrite limit_is; reflexivity.
    - subst l; reflexivity. }
  rewrite Hpv, Hlv, Hql; cbn [bind].
  unfold countDocuments, find_customers. rewrite Hc; cbn [bind].
  rewrite Hs; cbn [bind].
  replace (js_mul (js_sub (JsInt p) (JsInt 1)) (JsInt l)) with (JsInt ((p - 1) * l))
    by (simpl; f_equal; lia).
  unfold apply_skip.
  destruct (Z.ltb_spec ((p - 1) * l) 0) as [Hneg|_]; [nia|]; cbn [bind].
  unfold apply_limit. destruct l as [|l'|l'] eqn:El; try lia; cbn [bind].
  reflexivity.
Qed.
End Pagination.

(** C4. GET /customers with page >= 1 and limit >= 1 (absent, page is 1 and
    limit 10): the returned list is the matching customers, in the order of
    the sort, without the first (page - 1) x limit and cut after limit; it
    has at most limit customers; total is the count of the matching
    customers and totalPages is the least integer not below total / limit.
    A list is returned whenever the store takes the filter and the sort. *)
Theorem customers_pagination (RT : Runtime) (st : Store) (q : CustomersQuery)
    (p l : Z) :
  Number_empty RT ->
  reads_as (page q) 1 p -> reads_as (limit q) 10 l ->
  1 <= p -> 1 <= l ->
  (forall r, get_customers st q = res_json r ->
     exists pred sorted,
       compile_filter (filter_of (search q)) = Ok pred /\
       apply_sort (sort_of (sortBy q)) (filter pred (customers st)) = Ok sorted /\
       Permutation (filter pred (customers st)) sorted /\
       CustomerList.customers r =
         firstn (Z.to_nat l) (skipn (Z.to_nat ((p - 1) * l)) sorted) /\
       (List.length (CustomerList.customers r) <= Z.to_nat l)%nat /\
       CustomerList.total r = Z.of_nat (List.length (filter pred (customers st))) /\
       exists n, CustomerList.totalPages r = JsInt n /\
                 (n - 1) * l < CustomerList.total r <= n * l) /\
  (forall pred sorted,
     compile_filter (filter_of (search q)) = Ok pred ->
     apply_sort (sort_of (sortBy q)) (filter pred (customers st)) = Ok sorted ->
     exists r, get_customers st q = res_json r).
Proof.
  intros Hne Hp Hl Hp1 Hl1. split.
  - intros r Hr. apply get_customers_json in Hr.
    destruct (list_customers_inv st q r Hr) as (pred & sorted & _ & _ & Hc & Hs & _).
    rewrite (list_customers_page st q p l Hne Hp Hl Hp1 Hl1 pred sorted Hc Hs) in Hr.
    inversion Hr; subst r; cbn.
    exists pred, sorted.
    split; [exact Hc|]. split; [exact Hs|].
    split; [apply (apply_sort_perm _ _ _ Hs)|].
    split; [reflexivity|].
    split; [apply firstn_le_length|].
    split; [reflexivity|].
    apply ceil_div_bounds, Hl1.
  - intros pred sorted Hc Hs. eexists.
    apply get_customers_json.
    apply (list_customers_page st q p l Hne Hp Hl Hp1 Hl1 pred sorted Hc Hs).
Qed.

Lemma customers_pagination_witness :
  Number_empty ref_runtime /\
  reads_as (RT := ref_runtime) (page second_page_of_two) 1 2 /\
  reads_as (RT := ref_runtime) (limit second_page_of_two) 10 2 /\
  1 <= 2 /\
  exists r, get_customers (RT := ref_runtime) sample_store second_page_of_two = res_json r.
Proof.
  assert (Hne : Number_empty ref_runtime) by reflexivity.
  assert (Hp : reads_as (RT := ref_runtime) (page second_page_of_two) 1 2) by reflexivity.
  assert (Hl : reads_as (RT := ref_runtime) (limit second_page_of_two) 10 2) by reflexivity.
  repeat split; try assumption; try lia.
  apply (proj2 (customers_pagination ref_runtime sample_store second_page_of_two 2 2 Hne Hp Hl
                  ltac:(lia) ltac:(lia))
           (fun _ => true) (customers sample_store));
    reflexivity.
Defined.

(** ** Search *)

Lemma prefix_ci_spec (p s : string) :
  prefix_ci p s = true <->
  exists suf, lower_string s = (lower_string p ++ suf)%string.
Proof.
  revert s; induction p as [|a p IH]; intros s; simpl.
  - split; [intros _; exists (lower_string s); reflexivity | reflexivity].
  - destruct s as [|b s]; simpl.
    + split; [discriminate | intros [suf H]; discriminate].
    + rewrite andb_true_iff, Ascii.eqb_eq, IH. split.
      * intros [-> [suf ->]]. exists suf; reflexivity.
      * intros [suf H]. inversion H; subst. split; [reflexivity | exists suf; assumption].
Qed.

Lemma contains_ci_spec (p s : string) :
  contains_ci p s = true <-> Substring_ci p s.
Proof.
  unfold Substring_ci. induction s as [|b s IH].
  - simpl. rewrite orb_false_r, prefix_ci_spec. split.
    + intros [suf H]. exists EmptyString, suf. exact H.
    + intros (pre & suf & H). destruct pre; [exists suf; exact H | discriminate].
  - cbn [contains_ci]. rewrite orb_true_iff, prefix_ci_spec, IH. split.
    + intros [[suf H] | (pre & suf & H)].
      * exists EmptyString, suf. exact H.
      * exists (String (lower b) pre), suf. simpl. rewrite H. reflexivity.
    + intros (pre & suf & H). destruct pre as [|c pre].
      * left. exists suf. exact H.
      * right. simpl in H. inversion H; subst. exists pre, suf. assumption.
Qed.

Lemma literal_parse (p : string) :
  literal p = true ->
  parse_pattern p = Some (map AChar (list_ascii_of_string p)).
Proof.
  induction p as [|c p IH]; simpl; [reflexivity|].
  rewrite andb_true_iff, negb_true_iff. intros [Hc Hp].
  rewrite (IH Hp), Hc.
  destruct (Ascii.eqb_spec c "."%char) as [->|_]; [discriminate | reflexivity].
Qed.

Lemma match_here_literal (p s : string) :
  match_here (map AChar (list_ascii_of_string p)) s = prefix_ci p s.
Proof.
  revert s; induction p as [|a p IH]; intros s; simpl; [reflexivity|].
  destruct s as [|b s]; [reflexivity|]. rewrite IH; reflexivity.
Qed.

Lemma match_anywhere_literal (p s : string) :
  match_anywhere (map AChar (list_ascii_of_string p)) s = contains_ci p s.
Proof.
  induction s as [|b s IH]; cbn [match_anywhere contains_ci];
    rewrite match_here_literal; [reflexivity | rewrite IH; reflexivity].
Qed.

Lemma ref_runtime_regex_literal : Regex_literal ref_runtime.
Proof.
  intros p Hp _. cbn [RegExp_i ref_runtime]. unfold ref_RegExp_i.
  rewrite (literal_parse p Hp). eexists; split; [reflexivity|].
  intros s _; apply match_anywhere_literal.
Qed.

Section SearchFacts.
Context {RT : Runtime}.
Hypothesis regex_literal : Regex_literal RT.

Lemma compile_search (s : string) :
  s <> EmptyString -> literal s = true -> printable s = true ->
  exists pred,
    compile_filter (filter_of (Some s)) = Ok pred /\
    forall c,
      ascii_only (Customer.name c) = true -> ascii_only (Customer.email c) = true ->
      pred c = name_or_email_contains s c.
Proof.
  intros Hs Hlit Hascii. unfold filter_of, truthy.
  destruct (String.eqb_spec s EmptyString) as [->|_]; [contradiction|].
  cbn [negb compile_filter compile_or compile_condition].
  destruct (regex_literal s Hlit Hascii) as (test & -> & Htest).
  cbn [bind]. eexists; split; [reflexivity|].
  intros c Hn He; unfold name_or_email_contains; cbn.
  rewrite (Htest _ Hn), (Htest _ He), orb_false_r; reflexivity.
Qed.
End SearchFacts.

Lemma skipn_In {A : Type} (n : nat) (l : list A) (x : A) :
  In x (skipn n l) -> In x l.
Proof.
  intros H; rewrite <- (firstn_skipn n l); apply in_or_app; right; exact H.
Qed.




(** ** Sort *)

(** The claim of C6 fails on a sortBy that is not of the form field:order:
    [name], without a colon, is not ignored; the customers come sorted by
    name and not in store order. *)
Lemma sort_without_order_counterexample :
  no_colon "name" = true /\
  customers sample_store = [john; bob; alice] /\
  exists r,
    get_customers (RT := ref_runtime) sample_store sort_name = res_json r /\
    CustomerList.customers r = [alice; bob; john] /\
    CustomerList.customers r <> customers sample_store.
Proof.
  split; [reflexivity|]. split; [reflexivity|].
  eexists; split; [vm_compute; reflexivity|].
  split; [reflexivity | discriminate].
Qed.

(** C6 (amended). GET /customers: when sortBy is absent or empty the list
    is a part of the matching customers in store order; otherwise it is a
    part of the matching customers sorted on the field that sortBy names,
    the text before its first colon: in descending order exactly when the
    text between that colon and the next one (or the end of sortBy) is desc,
    in ascending order otherwise, also when sortBy has no colon at all.  For
    field:order the field is [field] and the order is descending exactly
    when [order] is desc, and so it is for field:order:rest, whatever the
    rest. *)
Theorem customers_sorted_on_field (RT : Runtime) (st : Store)
    (q : CustomersQuery) (r : CustomerList.t) :
  get_customers st q = res_json r ->
  (exists pred n m,
     compile_filter (filter_of (search q)) = Ok pred /\
     ((sortBy q = None \/ sortBy q = Some EmptyString) ->
      CustomerList.customers r = firstn n (skipn m (filter pred (customers st)))) /\
     (forall s, sortBy q = Some s -> s <> EmptyString ->
      exists sorted,
        Permutation (filter pred (customers st)) sorted /\
        Sorted (fun a b => sort_leb (sort_field s) (sort_direction s) a b = true) sorted /\
        CustomerList.customers r = firstn n (skipn m sorted))) /\
  (forall field order, no_colon field = true -> no_colon order = true ->
     sort_field (field ++ String ":" order) = field /\
     (sort_direction (field ++ String ":" order) = -1 <-> order = "desc") /\
     (sort_direction (field ++ String ":" order) = 1 <-> order <> "desc")) /\
  (forall field order rest, no_colon field = true -> no_colon order = true ->
     sort_field (field ++ String ":" (order ++ String ":" rest)) = field /\
     (sort_direction (field ++ String ":" (order ++ String ":" rest)) = -1
      <-> order = "desc") /\
     (sort_direction (field ++ String ":" (order ++ String ":" rest)) = 1
      <-> order <> "desc")) /\
  (forall s, no_colon s = true -> sort_field s = s /\ sort_direction s = 1) /\
  (forall field a b,
     sort_leb field 1 a b = bson_leb (customer_path field a) (customer_path field b) /\
     sort_leb field (-1) a b = bson_leb (customer_path field b) (customer_path field a)).
Proof.
  intros Hr. apply get_customers_json in Hr.
  destruct (list_customers_inv st q r Hr)
    as (pred & sorted & n & m & Hc & Hsort & Hcust & _).
  split; [|split; [|split; [|split]]].
  - exists pred, n, m. split; [exact Hc|]. split.
    + intros Hs.
      assert (sort_of (sortBy q) = None) as Hnone
        by (destruct Hs as [-> | ->]; reflexivity).
      rewrite Hnone in Hsort. inversion Hsort; subst. exact Hcust.
    + intros s Hs Hne. rewrite Hs, (sort_of_spec s Hne) in Hsort.
      exists sorted. split; [apply (apply_sort_perm _ _ _ Hsort)|].
      split; [apply (apply_sort_Sorted _ _ _ _ Hsort) | exact Hcust].
  - intros field order Hf Ho.
    destruct (sort_field_order field order Hf Ho) as [-> ->].
    split; [reflexivity|].
    destruct (String.eqb_spec order "desc"); split; split;
      intros; try reflexivity; try congruence; try discriminate.
  - intros field order rest Hf Ho.
    destruct (sort_field_order_rest field order rest Hf Ho) as [-> ->].
    split; [reflexivity|].
    destruct (String.eqb_spec order "desc"); split; split;
      intros; try reflexivity; try congruence; try discriminate.
  - apply sort_field_alone.
  - intros field a b; split; reflexivity.
Qed.

Lemma customers_sorted_on_field_witness :
  exists r,
    get_customers (RT := ref_runtime) sample_store sort_name_desc = res_json r /\
    CustomerList.customers r = [john; bob; alice] /\
    (exists sorted,
       Sorted (fun a b => sort_leb "name" (-1) a b = true) sorted /\
       exists n m, CustomerList.customers r = firstn n (skipn m sorted)) /\
    (sort_direction "name:desc:x" = -1 <-> "desc" = "desc").
Proof.
  eexists; split; [vm_compute; reflexivity|].
  split; [reflexivity|].
  destruct (customers_sorted_on_field ref_runtime sample_store sort_name_desc _ eq_refl)
    as ((pred & n & m & _ & _ & Hs) & _ & Hrest & _).
  split.
  - destruct (Hs "name:desc" eq_refl ltac:(discriminate)) as (sorted & _ & Hsorted & Hc).
    exists sorted; split; [exact Hsorted|]. exists n, m. exact Hc.
  - exact (proj1 (proj2 (Hrest "name" "desc" "x" eq_refl eq_refl))).
Defined.

(** ** Page and limit that are no numbers *)

(** The claim of C8 fails: a limit that is no number is answered 500, and a
    page that is no number is not answered 400 either. *)
Lemma non_numeric_limit_counterexample :
  ToNumber (Runtime := ref_runtime) "abc" = JsNaN /\
  statusCode (get_customers (RT := ref_runtime) sample_store limit_abc) = 500 /\
  statusCode (get_customers (RT := ref_runtime) sample_store page_abc) <> 400.
Proof.
  split; [reflexivity|]. split; [reflexivity|]. vm_compute; discriminate.
Qed.

(** C8 (amended). GET /customers never answers 400: the handler does not
    validate page and limit, and its response is a success (200) or the
    internal error (500) raised by the query.  A limit that is present and no
    number fails the cast of the query builder and is answered 500. *)
Theorem customers_never_bad_request (RT : Runtime) (st : Store)
    (q : CustomersQuery) :
  (statusCode (get_customers st q) = 200 \/
   statusCode (get_customers st q) = 500) /\
  statusCode (get_customers st q) <> 400 /\
  (Number_empty RT ->
   forall s, limit q = Some s -> ToNumber s = JsNaN ->
     get_customers st q =
     res_status_message 500 (ErrorMessage (CastError "Number" "limit"))).
Proof.
  split; [apply get_customers_status|].
  split; [destruct (get_customers_status st q) as [-> | ->]; discriminate|].
  intros Hne s Hl Hnan.
  unfold get_customers, list_customers; cbv zeta. rewrite Hl.
  unfold query_limit.
  destruct (String.eqb_spec s EmptyString) as [->|_].
  - unfold Number_empty in Hne. rewrite Hne in Hnan. discriminate.
  - rewrite Hnan. reflexivity.
Qed.

Lemma customers_never_bad_request_witness :
  Number_empty ref_runtime /\
  limit limit_abc = Some "abc" /\
  ToNumber (Runtime := ref_runtime) "abc" = JsNaN /\
  get_customers (RT := ref_runtime) sample_store limit_abc =
  res_status_message 500 (ErrorMessage (CastError "Number" "limit")).
Proof.
  assert (Hne : Number_empty ref_runtime) by reflexivity.
  split; [exact Hne|]. split; [reflexivity|]. split; [reflexivity|].
  exact (proj2 (proj2 (customers_never_bad_request ref_runtime sample_store limit_abc))
           Hne "abc" eq_refl eq_refl).
Defined.

(** ** Status update *)

Lemma with_customers_same (st : Store) : with_customers st (customers st) = st.
Proof. destruct st; reflexivity. Qed.

Lemma update_by_id_missing (id : ObjectId) (status : option string)
    (docs : list Customer.t) :
  ~ In id (map Customer._id docs) ->
  update_by_id id status docs = (docs, None).
Proof.
  induction docs as [|c docs IH]; simpl; intros Hnin; [reflexivity|].
  destruct (N.eqb_spec (Customer._id c) id) as [He|_].
  - exfalso; apply Hnin; left; exact He.
  - rewrite IH; [reflexivity | intros H; apply Hnin; right; exact H].
Qed.

Lemma update_by_id_found (id : ObjectId) (status : option string)
    (pre post : list Customer.t) (c : Customer.t) :
  ~ In id (map Customer._id pre) -> Customer._id c = id ->
  update_by_id id status (pre ++ c :: post) =
  (pre ++ set_status status c :: post, Some (set_status status c)).
Proof.
  intros Hpre Hc. induction pre as [|x pre IH]; simpl.
  - rewrite Hc, N.eqb_refl; reflexivity.
  - destruct (N.eqb_spec (Customer._id x) id) as [He|_].
    + exfalso; apply Hpre; left; exact He.
    + rewrite IH; [reflexivity | intros H; apply Hpre; right; exact H].
Qed.

Lemma first_with_id (id : ObjectId) (docs : list Customer.t) :
  In id (map Customer._id docs) ->
  exists pre c post,
    docs = pre ++ c :: post /\ Customer._id c = id /\
    ~ In id (map Customer._id pre).
Proof.
  induction docs as [|x docs IH]; simpl; [intros []|].
  destruct (N.eq_dec (Customer._id x) id) as [He|Hne].
  - intros _. exists [], x, docs. auto.
  - intros [H|H]; [contradiction|].
    destruct (IH H) as (pre & c & post & -> & Hc & Hpre).
    exists (x :: pre), c, post. split; [reflexivity|]. split; [exact Hc|].
    simpl; intros [H'|H']; [contradiction | exact (Hpre H')].
Qed.

(** The claim of C7 fails on an id that is no object id: it resolves to no
    customer and the answer is 400, not 404. *)
Lemma malformed_id_counterexample :
  castObjectId (Runtime := ref_runtime) "abc" = None /\
  statusCode (snd (patch_customer_status (RT := ref_runtime) sample_store "abc" block))
    = 400 /\
  fst (patch_customer_status (RT := ref_runtime) sample_store "abc" block)
    = sample_store.
Proof. repeat split. Qed.

(** C7 (amended). PATCH /customers/:id/status with a status (active,
    blocked or any other): when the id is an object id of a customer, the
    customer is replaced in the store by its copy with the new status, which
    is returned, nothing else changing; when the id is an object id of no
    customer, the answer is 404 and the store is unchanged; when the id is
    no object id, the answer is 400 and the store is unchanged. *)
Theorem customer_status_update (RT : Runtime) (st : Store) (id s : string) :
  match castObjectId id with
  | Some oid =>
      (In oid (map Customer._id (customers st)) ->
       exists pre c post,
         customers st = pre ++ c :: post /\
         Customer._id c = oid /\ ~ In oid (map Customer._id pre) /\
         Customer.status (set_status (Some s) c) = s /\
         Customer._id (set_status (Some s) c) = oid /\
         patch_customer_status st id {| status := Some s |} =
         (with_customers st (pre ++ set_status (Some s) c :: post),
          res_json (set_status (Some s) c))) /\
      (~ In oid (map Customer._id (customers st)) ->
       patch_customer_status st id {| status := Some s |} =
       (st, res_status_message 404 (Text "Customer not found")))
  | None =>
      patch_customer_status st id {| status := Some s |} =
      (st, res_status_message 400 (ErrorMessage (CastError "ObjectId" "_id")))
  end.
Proof.
  unfold patch_customer_status, findByIdAndUpdate; cbn [status].
  destruct (castObjectId id) as [oid|]; [|reflexivity].
  split.
  - intros Hin.
    destruct (first_with_id oid (customers st) Hin) as (pre & c & post & Hdocs & Hc & Hpre).
    exists pre, c, post.
    split; [exact Hdocs|]. split; [exact Hc|]. split; [exact Hpre|].
    split; [reflexivity|]. split; [exact Hc|].
    rewrite Hdocs, (update_by_id_found oid (Some s) pre post c Hpre Hc).
    reflexivity.
  - intros Hnin. rewrite (update_by_id_missing oid (Some s) _ Hnin); cbn.
    rewrite with_customers_same; reflexivity.
Qed.

Lemma customer_status_update_witness :
  castObjectId (Runtime := ref_runtime) "000000000000000000000002" = Some 2%N /\
  In 2%N (map Customer._id (customers sample_store)) /\
  exists c,
    snd (patch_customer_status (RT := ref_runtime) sample_store
           "000000000000000000000002" block) = res_json c /\
    Customer.status c = "blocked".
Proof.
  split; [reflexivity|]. split; [right; left; reflexivity|].
  assert (H := customer_status_update ref_runtime sample_store
                 "000000000000000000000002" "blocked").
  cbn [castObjectId ref_runtime] in H.
  change (ref_castObjectId "000000000000000000000002") with (Some 2%N) in H.
  destruct H as [H _].
  destruct (H (or_intror (or_introl eq_refl))) as (pre & c & post & _ & _ & _ & Hs & _ & Hp).
  exists (set_status (Some "blocked") c). unfold block. rewrite Hp. split; [reflexivity | exact Hs].
Defined.

(** ** The scenario of January 2024 *)

(** ** Calendar fields and doubles on known values *)

Lemma calendar_fields_examples :
  days_from_civil 1970 1 1 = 0 /\
  days_from_civil 2000 3 1 = 11017 /\
  date 2024 1 1 = 1704067200000 /\
  in_month 2024 2 (date 2024 2 29 + msPerDay - 1) = true /\
  in_month 2024 2 (date 2024 3 1) = false /\
  in_month 2023 12 (date 2024 1 1 - 1) = true /\
  in_month 2024 13 (date 2025 1 1) = false /\
  round_double 9007199254740993 = 9007199254740992 /\
  round_double 9007199254740995 = 9007199254740996 /\
  round_double (-27021597764222973) = -27021597764222972 /\
  js_double (2 ^ 1024) = JsPosInf /\
  civil_from_days 0 = (1970, 1, 1) /\
  civil_from_days (-1) = (1969, 12, 31) /\
  civil_from_days 11016 = (2000, 2, 29) /\
  civil_from_days 19782 = (2024, 2, 29) /\
  civil_from_days 47540 = (2100, 2, 28) /\
  civil_from_days 47541 = (2100, 3, 1) /\
  (year_of (date 2024 1 15), month_of (date 2024 1 15)) = (2024, 1) /\
  (year_of (date 2024 12 31 + msPerDay - 1), month_of (date 2024 12 31 + msPerDay - 1))
    = (2024, 12) /\
  (year_of (date 2024 12 31 + msPerDay), month_of (date 2024 12 31 + msPerDay))
    = (2025, 1).
Proof. repeat split. Qed.

(** * Further properties of the routes *)

(** ** Customer details *)

Lemma find_by_id_In (oid : ObjectId) (docs : list Customer.t) :
  In oid (map Customer._id docs) <->
  exists c, find (fun c => N.eqb (Customer._id c) oid) docs = Some c.
Proof.
  induction docs as [|x docs IH]; simpl.
  - split; [intros [] | intros [c H]; discriminate].
  - destruct (N.eqb_spec (Customer._id x) oid) as [He|Hne].
    + split; [intros _; exists x; reflexivity | intros _; left; exact He].
    + rewrite <- IH. split; [intros [H|H]; [contradiction | exact H] | auto].
Qed.

Lemma find_by_id_sound (oid : ObjectId) (docs : list Customer.t) (c : Customer.t) :
  find (fun c => N.eqb (Customer._id c) oid) docs = Some c ->
  In c docs /\ Customer._id c = oid.
Proof.
  intros H. apply find_some in H. destruct H as [Hin He].
  apply N.eqb_eq in He. auto.
Qed.

Lemma orders_of_docs (st : Store) (staff : list Staff.t) (c : Customer.t) :
  map PopulatedOrder.doc (orders_of st staff c) =
  sort_stage (fun a b => Order.orderDate b <=? Order.orderDate a)
    (filter (fun o => N.eqb (Order.customerId o) (Customer._id c)) (orders st)).
Proof. unfold orders_of. rewrite map_map. apply map_id. Qed.

Lemma date_desc_sorted (l : list Order.t) :
  StronglySorted (fun a b => Order.orderDate b <= Order.orderDate a)
    (sort_stage (fun a b => Order.orderDate b <=? Order.orderDate a) l).
Proof.
  apply Sorted_StronglySorted; [intros a b c; lia|].
  assert (H : Sorted (fun a b => (Order.orderDate b <=? Order.orderDate a) = true)
                (sort_stage (fun a b => Order.orderDate b <=? Order.orderDate a) l)).
  { apply (sort_stage_Sorted (fun a b => Order.orderDate b <=? Order.orderDate a)).
    intros a b.
    destruct (Z.leb_spec (Order.orderDate b) (Order.orderDate a));
      [left; reflexivity | right; apply Z.leb_le; lia]. }
  induction H as [|a l' _ IH Hd]; constructor; [exact IH|].
  destruct Hd; constructor. apply Z.leb_le; assumption.
Qed.

(** X1. GET /customers/:id with the object id of a customer answers 200
    with the first customer of that id and with that customer's orders, all
    of them and no other, the latest first, each with the staff member of its
    staffId, or null when there is none. *)
Theorem customer_detail_found (RT : Runtime) (st : Store) (staff : list Staff.t)
    (id : string) (oid : ObjectId) :
  castObjectId id = Some oid ->
  In oid (map Customer._id (customers st)) ->
  exists r,
    get_customer st staff id = res_json r /\
    In (CustomerDetail.customer r) (customers st) /\
    Customer._id (CustomerDetail.customer r) = oid /\
    Permutation
      (map PopulatedOrder.doc (CustomerDetail.orders r))
      (filter (fun o => N.eqb (Order.customerId o) oid) (orders st)) /\
    StronglySorted
      (fun a b => Order.orderDate b <= Order.orderDate a)
      (map PopulatedOrder.doc (CustomerDetail.orders r)) /\
    forall po, In po (CustomerDetail.orders r) ->
      match PopulatedOrder.staff po with
      | Some m =>
          In m staff /\ Staff._id m = Order.staffId (PopulatedOrder.doc po)
      | None =>
          ~ In (Order.staffId (PopulatedOrder.doc po)) (map Staff._id staff)
      end.
Proof.
  intros Hcast Hin.
  apply find_by_id_In in Hin. destruct Hin as [c Hc].
  destruct (find_by_id_sound oid _ c Hc) as [Hcin Hcid].
  unfold get_customer, findById. rewrite Hcast, Hc.
  eexists; split; [reflexivity|]; cbn [CustomerDetail.customer CustomerDetail.orders].
  split; [exact Hcin|]. split; [exact Hcid|].
  rewrite orders_of_docs, Hcid.
  split; [symmetry; apply sort_stage_perm|].
  split; [apply date_desc_sorted|].
  intros po Hpo. unfold orders_of in Hpo. apply in_map_iff in Hpo.
  destruct Hpo as (o & <- & _). cbn.
  destruct (find _ staff) as [m|] eqn:Hf.
  - apply find_some in Hf. destruct Hf as [Hm He].
    apply N.eqb_eq in He. auto.
  - intros Hs. apply in_map_iff in Hs. destruct Hs as (m & Hm & Hmin).
    assert (Hfalse := find_none _ _ Hf m Hmin). cbn in Hfalse.
    rewrite Hm, N.eqb_refl in Hfalse. discriminate.
Qed.

Lemma customer_detail_found_witness :
  castObjectId (Runtime := ref_runtime) "000000000000000000000001" = Some 1%N /\
  In 1%N (map Customer._id (customers sample_store)) /\
  exists r,
    get_customer (RT := ref_runtime) sample_store sample_staff
      "000000000000000000000001" = res_json r /\
    CustomerDetail.customer r = john /\
    map (fun po => Order._id (PopulatedOrder.doc po)) (CustomerDetail.orders r)
      = [4%N; 1%N].
Proof.
  assert (Hc : castObjectId (Runtime := ref_runtime) "000000000000000000000001" = Some 1%N)
    by reflexivity.
  assert (Hi : In 1%N (map Customer._id (customers sample_store))) by (left; reflexivity).
  split; [exact Hc|]. split; [exact Hi|].
  destruct (customer_detail_found ref_runtime sample_store sample_staff
              "000000000000000000000001" 1%N Hc Hi) as (r & Hr & _).
  exists r. split; [exact Hr|].
  inversion Hr. split; reflexivity.
Defined.

(** X2. GET /customers/:id answers 500 exactly when the id is no object id,
    404 exactly when it is the object id of no customer and 200 exactly when
    it is the object id of a customer; PATCH /customers/:id/status answers
    the id that is no object id with 400 instead. *)
Theorem customer_detail_status (RT : Runtime) (st : Store) (staff : list Staff.t)
    (id : string) (b : StatusBody) :
  (statusCode (get_customer st staff id) = 500 <-> castObjectId id = None) /\
  (statusCode (get_customer st staff id) = 404 <->
   exists oid, castObjectId id = Some oid /\
               ~ In oid (map Customer._id (customers st))) /\
  (statusCode (get_customer st staff id) = 200 <->
   exists oid, castObjectId id = Some oid /\
               In oid (map Customer._id (customers st))) /\
  (statusCode (snd (patch_customer_status st id b)) = 400 <->
   castObjectId id = None).
Proof.
  unfold get_customer, findById, patch_customer_status, findByIdAndUpdate.
  destruct (castObjectId id) as [oid|].
  - assert (Hpatch : statusCode
              (snd (let (st', o) := (with_customers st
                                       (fst (update_by_id oid (status b) (customers st))),
                                     snd (update_by_id oid (status b) (customers st))) in
                    match o with
                    | Some customer => (st', res_json customer)
                    | None => (st', res_status_message 404 (Text "Customer not found"))
                    end)) <> 400).
    { cbn. destruct (snd (update_by_id oid (status b) (customers st))); cbn; discriminate. }
    destruct (find _ (customers st)) as [c|] eqn:Hf; cbn [statusCode res_json res_status_message].
    + assert (Hin : In oid (map Customer._id (customers st)))
        by (apply find_by_id_In; exists c; exact Hf).
      split; [split; discriminate|].
      split; [split; [discriminate|]|].
      { intros (oid' & Ho & Hn). inversion Ho; subst. contradiction. }
      split; [split; [intros _; exists oid; auto | reflexivity]|].
      split; [intros H; contradiction | discriminate].
    + assert (Hnin : ~ In oid (map Customer._id (customers st))).
      { intros Hin. apply find_by_id_In in Hin. destruct Hin as [c Hc]. congruence. }
      split; [split; discriminate|].
      split; [split; [intros _; exists oid; auto | reflexivity]|].
      split; [split; [discriminate|]|].
      { intros (oid' & Ho & Hi). inversion Ho; subst. contradiction. }
      split; [intros H; contradiction | discriminate].
  - cbn. split; [split; reflexivity|].
    split; [split; [discriminate | intros (oid & Ho & _); discriminate]|].
    split; [split; [discriminate | intros (oid & Ho & _); discriminate]|].
    split; reflexivity.
Qed.

(** ** Status update, continued *)

Lemma set_status_id (s : option string) (c : Customer.t) :
  Customer._id (set_status s c) = Customer._id c /\
  Customer.name (set_status s c) = Customer.name c /\
  Customer.email (set_status s c) = Customer.email c.
Proof. destruct s; repeat split. Qed.

Lemma update_by_id_fields (id : ObjectId) (s : option string) (docs : list Customer.t) :
  map Customer._id (fst (update_by_id id s docs)) = map Customer._id docs /\
  map Customer.name (fst (update_by_id id s docs)) = map Customer.name docs /\
  map Customer.email (fst (update_by_id id s docs)) = map Customer.email docs.
Proof.
  induction docs as [|c docs IH]; simpl; [auto|].
  destruct (N.eqb (Customer._id c) id); simpl.
  - destruct (set_status_id s c) as (-> & -> & ->). auto.
  - destruct IH as (-> & -> & ->). auto.
Qed.

Lemma update_by_id_find (id : ObjectId) (s : option string) (docs : list Customer.t) :
  find (fun c => N.eqb (Customer._id c) id) (fst (update_by_id id s docs)) =
  option_map (set_status s) (find (fun c => N.eqb (Customer._id c) id) docs) /\
  snd (update_by_id id s docs) =
  option_map (set_status s) (find (fun c => N.eqb (Customer._id c) id) docs).
Proof.
  induction docs as [|c docs IH]; simpl; [auto|].
  destruct (N.eqb (Customer._id c) id) eqn:E; simpl.
  - destruct (set_status_id s c) as (-> & _). rewrite E. auto.
  - rewrite E. exact IH.
Qed.

Lemma update_by_id_twice (id : ObjectId) (s1 s2 : string) (docs : list Customer.t) :
  update_by_id id (Some s2) (fst (update_by_id id (Some s1) docs)) =
  update_by_id id (Some s2) docs.
Proof.
  induction docs as [|c docs IH]; simpl; [reflexivity|].
  destruct (N.eqb (Customer._id c) id) eqn:E; simpl; rewrite E.
  - reflexivity.
  - rewrite IH. reflexivity.
Qed.

Lemma patch_store (RT : Runtime) (st : Store) (id : string) (b : StatusBody) :
  fst (patch_customer_status st id b) =
  match castObjectId id with
  | Some oid => with_customers st (fst (update_by_id oid (status b) (customers st)))
  | None => st
  end.
Proof.
  unfold patch_customer_status, findByIdAndUpdate.
  destruct (castObjectId id) as [oid|]; [|reflexivity].
  destruct (snd (update_by_id oid (status b) (customers st))); reflexivity.
Qed.

(** X3. After a PATCH that found its customer, GET /customers/:id of the
    same id returns that customer with the new status and with the name, the
    email and the orders that were there before. *)
Theorem patch_then_get (RT : Runtime) (st : Store) (staff : list Staff.t)
    (id s : string) (oid : ObjectId) :
  castObjectId id = Some oid ->
  In oid (map Customer._id (customers st)) ->
  exists before after,
    get_customer st staff id = res_json before /\
    get_customer (fst (patch_customer_status st id {| status := Some s |})) staff id
      = res_json after /\
    snd (patch_customer_status st id {| status := Some s |})
      = res_json (CustomerDetail.customer after) /\
    Customer.status (CustomerDetail.customer after) = s /\
    Customer._id (CustomerDetail.customer after) = oid /\
    Customer.name (CustomerDetail.customer after)
      = Customer.name (CustomerDetail.customer before) /\
    Customer.email (CustomerDetail.customer after)
      = Customer.email (CustomerDetail.customer before) /\
    CustomerDetail.orders after = CustomerDetail.orders before.
Proof.
  intros Hcast Hin.
  apply find_by_id_In in Hin. destruct Hin as [c Hc].
  destruct (find_by_id_sound oid _ c Hc) as [_ Hcid].
  destruct (update_by_id_find oid (Some s) (customers st)) as [Hfind Hres].
  rewrite Hc in Hfind, Hres. cbn [option_map] in Hfind, Hres.
  exists {| CustomerDetail.customer := c;
            CustomerDetail.orders := orders_of st staff c |},
         {| CustomerDetail.customer := set_status (Some s) c;
            CustomerDetail.orders := orders_of st staff c |}.
  split; [unfold get_customer, findById; rewrite Hcast, Hc; reflexivity|].
  split.
  { rewrite patch_store, Hcast. cbn [status].
    unfold get_customer, findById. rewrite Hcast.
    cbn [customers with_customers]. rewrite Hfind. reflexivity. }
  split.
  { unfold patch_customer_status, findByIdAndUpdate. rewrite Hcast.
    cbn [status]. rewrite Hres. reflexivity. }
  cbn. auto.
Qed.

Lemma patch_then_get_witness :
  castObjectId (Runtime := ref_runtime) "000000000000000000000002" = Some 2%N /\
  In 2%N (map Customer._id (customers sample_store)) /\
  exists after,
    get_customer (RT := ref_runtime)
      (fst (patch_customer_status (RT := ref_runtime) sample_store
              "000000000000000000000002" {| status := Some "blocked" |}))
      sample_staff "000000000000000000000002" = res_json after /\
    Customer.status (CustomerDetail.customer after) = "blocked".
Proof.
  assert (Hc : castObjectId (Runtime := ref_runtime) "000000000000000000000002" = Some 2%N)
    by reflexivity.
  assert (Hi : In 2%N (map Customer._id (customers sample_store)))
    by (right; left; reflexivity).
  split; [exact Hc|]. split; [exact Hi|].
  destruct (patch_then_get ref_runtime sample_store sample_staff
              "000000000000000000000002" "blocked" 2%N Hc Hi)
    as (before & after & _ & Hget & _ & Hs & _).
  exists after. split; [exact Hget | exact Hs].
Defined.

(** X4. PATCH /customers/:id/status, whatever the id and the body, changes
    nothing but the status of customers: the orders, line items, products and
    brands stay, and so do the ids, names and emails of the customers, in
    their order; ids that were unique stay unique and both analytics answer
    as before. *)
Theorem patch_changes_status_only (RT : Runtime) (st : Store) (id : string)
    (b : StatusBody) (q : SalesQuery) (now : Date) :
  orders (fst (patch_customer_status st id b)) = orders st /\
  orderdetails (fst (patch_customer_status st id b)) = orderdetails st /\
  products (fst (patch_customer_status st id b)) = products st /\
  brands (fst (patch_customer_status st id b)) = brands st /\
  map Customer._id (customers (fst (patch_customer_status st id b)))
    = map Customer._id (customers st) /\
  map Customer.name (customers (fst (patch_customer_status st id b)))
    = map Customer.name (customers st) /\
  map Customer.email (customers (fst (patch_customer_status st id b)))
    = map Customer.email (customers st) /\
  (unique_ids st -> unique_ids (fst (patch_customer_status st id b))) /\
  get_analytics_sales (fst (patch_customer_status st id b)) q
    = get_analytics_sales st q /\
  get_analytics_products (fst (patch_customer_status st id b)) now
    = get_analytics_products st now.
Proof.
  rewrite patch_store.
  destruct (castObjectId id) as [oid|].
  - destruct (update_by_id_fields oid (status b) (customers st)) as (Hid & Hn & He).
    cbn [orders orderdetails products brands customers with_customers].
    repeat split; try assumption.
    + unfold unique_ids in *; cbn [customers orders products with_customers].
      rewrite Hid. tauto.
    + unfold unique_ids in *; cbn [customers orders products with_customers]. tauto.
    + unfold unique_ids in *; cbn [customers orders products with_customers]. tauto.
  - repeat split; apply H.
Qed.

(** X5. Of two PATCH requests for the same id, one after the other, the
    second decides: the store and the answer are those of the second request
    alone. *)
Theorem patch_last_write_wins (RT : Runtime) (st : Store) (id s1 s2 : string) :
  patch_customer_status
    (fst (patch_customer_status st id {| status := Some s1 |})) id
    {| status := Some s2 |} =
  patch_customer_status st id {| status := Some s2 |}.
Proof.
  rewrite patch_store. cbn [status].
  unfold patch_customer_status, findByIdAndUpdate.
  destruct (castObjectId id) as [oid|]; [|reflexivity].
  cbn [status customers with_customers].
  rewrite update_by_id_twice.
  destruct (update_by_id oid (Some s2) (customers st)) as [docs [c|]]; reflexivity.
Qed.

(** ** The customer list, continued *)

Lemma firstn_then_firstn {A : Type} (a b : nat) (l : list A) :
  firstn a l ++ firstn b (skipn a l) = firstn (a + b) l.
Proof.
  revert l; induction a as [|a IH]; intros l; [reflexivity|].
  destruct l as [|x l]; simpl.
  - rewrite firstn_nil. reflexivity.
  - rewrite IH. reflexivity.
Qed.

Lemma firstn_skipn_adjacent {A : Type} (a b k : nat) (l : list A) :
  firstn a (skipn k l) ++ firstn b (skipn (k + a) l) =
  firstn (a + b) (skipn k l).
Proof.
  rewrite (Nat.add_comm k a), <- skipn_skipn. apply firstn_then_firstn.
Qed.

Section ListResponses.
Context {RT : Runtime}.
Variables (st : Store) (q : CustomersQuery).

Lemma list_customers_totalPages (r : CustomerList.t) :
  list_customers st q = Ok r ->
  CustomerList.totalPages r =
  js_ceil_div (CustomerList.total r)
    (to_number match limit q with Some s => JsString s | None => JsNum (JsInt 10) end).
Proof.
  unfold list_customers, countDocuments, find_customers.
  destruct (query_limit _) as [lim|]; [cbn [bind] | discriminate].
  destruct (compile_filter _) as [pred|]; [cbn [bind] | discriminate].
  destruct (apply_sort _ _) as [sorted|]; [cbn [bind] | discriminate].
  destruct (apply_skip _ _) as [skipped|]; [cbn [bind] | discriminate].
  destruct (apply_limit _ _) as [kept|]; [cbn [bind] | discriminate].
  intros H; inversion H; reflexivity.
Qed.

Lemma query_limit_number (l : Z) :
  Number_empty RT -> reads_as (limit q) 10 l -> l <> 0 ->
  query_limit match limit q with Some s => JsString s | None => JsNum (JsInt 10) end
    = Ok (Some (JsInt l)) /\
  to_number match limit q with Some s => JsString s | None => JsNum (JsInt 10) end
    = JsInt l.
Proof.
  unfold reads_as, Number_empty. intros Hne Hl Hl0.
  destruct (limit q) as [s|]; simpl.
  - destruct (String.eqb_spec s EmptyString) as [->|_].
    + rewrite Hne in Hl. inversion Hl; lia.
    + rewrite Hl. auto.
  - subst l. auto.
Qed.

Lemma page_number (p : Z) :
  reads_as (page q) 1 p ->
  to_number match page q with Some s => JsString s | None => JsNum (JsInt 1) end
    = JsInt p.
Proof.
  unfold reads_as. destruct (page q); simpl; congruence.
Qed.
End ListResponses.

(** *** The order of the sort keys *)

Lemma string_compare_trans (a b c : string) :
  String.compare a b <> Gt -> String.compare b c <> Gt -> String.compare a c <> Gt.
Proof.
  revert b c; induction a as [|x a IH]; intros [|y b] [|z c]; simpl;
    try congruence.
  unfold Ascii.compare.
  destruct (N.compare_spec (N_of_ascii x) (N_of_ascii y)) as [Hxy|Hxy|Hxy];
    destruct (N.compare_spec (N_of_ascii y) (N_of_ascii z)) as [Hyz|Hyz|Hyz];
    destruct (N.compare_spec (N_of_ascii x) (N_of_ascii z)) as [Hxz|Hxz|Hxz];
    try congruence; try lia.
  apply IH.
Qed.

Lemma string_leb_trans (a b c : string) :
  String.leb a b = true -> String.leb b c = true -> String.leb a c = true.
Proof.
  unfold String.leb. intros Hab Hbc.
  assert (H := string_compare_trans a b c).
  destruct (String.compare a b); try discriminate;
    destruct (String.compare b c); try discriminate;
    destruct (String.compare a c); try reflexivity;
    exfalso; apply H; congruence.
Qed.

Lemma bson_leb_trans (a b c : BsonValue) :
  bson_leb a b = true -> bson_leb b c = true -> bson_leb a c = true.
Proof.
  destruct a, b, c; cbn; intros H1 H2; try reflexivity; try discriminate.
  - apply (string_leb_trans _ _ _ H1 H2).
  - apply N.leb_le in H1, H2. apply N.leb_le. lia.
Qed.

Lemma bson_leb_antisym (a b : BsonValue) :
  bson_leb a b = true -> bson_leb b a = true -> a = b.
Proof.
  destruct a, b; cbn; intros H1 H2; try reflexivity; try discriminate.
  - f_equal. apply String.leb_antisym; assumption.
  - apply N.leb_le in H1, H2. f_equal. lia.
Qed.

Lemma sort_leb_trans (field : string) (dir : Z) (a b c : Customer.t) :
  sort_leb field dir a b = true -> sort_leb field dir b c = true ->
  sort_leb field dir a c = true.
Proof.
  unfold sort_leb. destruct (dir =? -1); intros H1 H2;
    [apply (bson_leb_trans _ _ _ H2 H1) | apply (bson_leb_trans _ _ _ H1 H2)].
Qed.

Lemma sort_leb_antisym (field : string) (dir : Z) (a b : Customer.t) :
  sort_leb field dir a b = true -> sort_leb field dir b a = true ->
  customer_path field a = customer_path field b.
Proof.
  unfold sort_leb. destruct (dir =? -1); intros H1 H2;
    [apply (bson_leb_antisym _ _ H2 H1) | apply (bson_leb_antisym _ _ H1 H2)].
Qed.

(** When no two elements have the same key, and two elements that may
    stand before each other have the same key, a list has one sorted
    arrangement only. *)
Lemma sorted_perm_unique {A K : Type} (R : A -> A -> Prop) (key : A -> K)
    (l1 l2 : list A) :
  (forall a b, R a b -> R b a -> key a = key b) ->
  NoDup (map key l1) -> Permutation l1 l2 ->
  StronglySorted R l1 -> StronglySorted R l2 -> l1 = l2.
Proof.
  intros Hanti. revert l2.
  induction l1 as [|a l1 IH]; intros l2 Hnd Hperm Hs1 Hs2.
  - apply Permutation_nil in Hperm. subst; reflexivity.
  - destruct l2 as [|b l2];
      [apply Permutation_sym, Permutation_nil in Hperm; discriminate|].
    inversion Hnd as [|? ? Hnin Hnd']; subst.
    inversion Hs1 as [|? ? Hs1' Hall1]; subst.
    inversion Hs2 as [|? ? Hs2' Hall2]; subst.
    rewrite Forall_forall in Hall1, Hall2.
    assert (Hab : a = b).
    { assert (Ha : In a (b :: l2))
        by (apply (Permutation_in _ Hperm); left; reflexivity).
      assert (Hb : In b (a :: l1))
        by (apply (Permutation_in _ (Permutation_sym Hperm)); left; reflexivity).
      destruct Ha as [Ha|Ha]; [symmetry; exact Ha|].
      destruct Hb as [Hb|Hb]; [exact Hb|].
      exfalso. apply Hnin.
      rewrite (Hanti a b (Hall1 b Hb) (Hall2 a Ha)). apply in_map, Hb. }
    subst b. f_equal.
    apply IH; [exact Hnd' | apply (Permutation_cons_inv Hperm) | exact Hs1' | exact Hs2'].
Qed.

(** X6. Two requests to GET /customers that differ in the page only and
    sort on a field in which no two customers agree, the second asking for
    the page after the first one's: the customers of the first followed by
    those of the second are the next 2 x limit matching customers in the
    order of the sort, which is the only arrangement of the matching
    customers in that order; the pages neither overlap nor leave a customer
    out, and both report the same total and totalPages. *)
Theorem consecutive_pages (RT : Runtime) (st : Store) (q1 q2 : CustomersQuery)
    (s : string) (p l : Z) (r1 r2 : CustomerList.t) :
  Number_empty RT ->
  search q2 = search q1 -> limit q2 = limit q1 ->
  sortBy q1 = Some s -> sortBy q2 = Some s -> s <> EmptyString ->
  NoDup (map (customer_path (sort_field s)) (customers st)) ->
  reads_as (page q1) 1 p -> reads_as (page q2) 1 (p + 1) ->
  reads_as (limit q1) 10 l -> 1 <= p -> 1 <= l ->
  get_customers st q1 = res_json r1 ->
  get_customers st q2 = res_json r2 ->
  let in_order (a b : Customer.t) :=
    sort_leb (sort_field s) (sort_direction s) a b = true in
  exists pred sorted,
    compile_filter (filter_of (search q1)) = Ok pred /\
    apply_sort (sort_of (sortBy q1)) (filter pred (customers st)) = Ok sorted /\
    Permutation (filter pred (customers st)) sorted /\
    StronglySorted in_order sorted /\
    (forall sorted', Permutation (filter pred (customers st)) sorted' ->
       StronglySorted in_order sorted' -> sorted' = sorted) /\
    CustomerList.customers r1 ++ CustomerList.customers r2 =
      firstn (Z.to_nat l + Z.to_nat l) (skipn (Z.to_nat ((p - 1) * l)) sorted) /\
    CustomerList.total r2 = CustomerList.total r1 /\
    CustomerList.totalPages r2 = CustomerList.totalPages r1.
Proof.
  intros Hne Hs Hlim Hsb1 Hsb2 Hsne Hkeys Hp1 Hp2 Hl Hp Hlpos Hr1 Hr2 in_order.
  apply get_customers_json in Hr1. apply get_customers_json in Hr2.
  destruct (list_customers_inv st q1 r1 Hr1) as (pred & sorted & _ & _ & Hc & Hsort & _).
  assert (Hl2 : reads_as (limit q2) 10 l) by (rewrite Hlim; exact Hl).
  rewrite (list_customers_page st q1 p l Hne Hp1 Hl Hp Hlpos pred sorted Hc Hsort) in Hr1.
  assert (Hc2 : compile_filter (filter_of (search q2)) = Ok pred) by (rewrite Hs; exact Hc).
  assert (Hsort2 : apply_sort (sort_of (sortBy q2)) (filter pred (customers st)) = Ok sorted)
    by (rewrite Hsb2, <- Hsb1; exact Hsort).
  rewrite (list_customers_page st q2 (p + 1) l Hne Hp2 Hl2 ltac:(lia) Hlpos
             pred sorted Hc2 Hsort2) in Hr2.
  inversion Hr1; subst r1. inversion Hr2; subst r2. cbn.
  assert (Hperm := apply_sort_perm _ _ _ Hsort).
  assert (Hsorted : StronglySorted in_order sorted).
  { apply Sorted_StronglySorted; [intros a b c; apply sort_leb_trans|].
    assert (Hsort' := Hsort). rewrite Hsb1, (sort_of_spec s Hsne) in Hsort'.
    apply (apply_sort_Sorted _ _ _ _ Hsort'). }
  exists pred, sorted.
  split; [exact Hc|]. split; [exact Hsort|]. split; [exact Hperm|].
  split; [exact Hsorted|]. split.
  - intros sorted' Hperm' Hsorted'. symmetry.
    apply (sorted_perm_unique in_order (customer_path (sort_field s))).
    + intros a b; apply sort_leb_antisym.
    + eapply Permutation_NoDup; [apply Permutation_map, Hperm|].
      apply NoDup_map_filter, Hkeys.
    + apply (Permutation_trans (Permutation_sym Hperm) Hperm').
    + exact Hsorted.
    + exact Hsorted'.
  - split; [|split; reflexivity].
    replace (Z.to_nat ((p + 1 - 1) * l))
      with (Z.to_nat ((p - 1) * l) + Z.to_nat l)%nat.
    + apply firstn_skipn_adjacent.
    + rewrite <- Z2Nat.inj_add; [f_equal; ring | nia | lia].
Qed.

Lemma consecutive_pages_witness :
  Number_empty ref_runtime /\
  NoDup (map (customer_path (sort_field "name")) (customers sample_store)) /\
  reads_as (RT := ref_runtime) (page first_page_by_name) 1 1 /\
  reads_as (RT := ref_runtime) (page second_page_by_name) 1 (1 + 1) /\
  reads_as (RT := ref_runtime) (limit first_page_by_name) 10 2 /\
  exists r1 r2,
    get_customers (RT := ref_runtime) sample_store first_page_by_name = res_json r1 /\
    get_customers (RT := ref_runtime) sample_store second_page_by_name = res_json r2 /\
    CustomerList.customers r1 = [alice; bob] /\
    CustomerList.customers r2 = [john] /\
    CustomerList.total r2 = CustomerList.total r1.
Proof.
  assert (Hne : Number_empty ref_runtime) by reflexivity.
  assert (Hk : NoDup (map (customer_path (sort_field "name")) (customers sample_store)))
    by (vm_compute; solve_NoDup).
  assert (H1 : reads_as (RT := ref_runtime) (page first_page_by_name) 1 1) by reflexivity.
  assert (H2 : reads_as (RT := ref_runtime) (page second_page_by_name) 1 (1 + 1)) by reflexivity.
  assert (Hl : reads_as (RT := ref_runtime) (limit first_page_by_name) 10 2) by reflexivity.
  split; [exact Hne|]. split; [exact Hk|].
  split; [exact H1|]. split; [exact H2|]. split; [exact Hl|].
  eexists; eexists. split; [reflexivity|]. split; [reflexivity|].
  split; [reflexivity|]. split; [reflexivity|].
  destruct (consecutive_pages ref_runtime sample_store first_page_by_name
              second_page_by_name "name" 1 2 _ _ Hne eq_refl eq_refl eq_refl eq_refl
              ltac:(discriminate) Hk H1 H2 Hl ltac:(lia) ltac:(lia) eq_refl eq_refl)
    as (pred & sorted & _ & _ & _ & _ & _ & _ & Htot & _).
  exact Htot.
Defined.

(** X7. GET /customers with page >= 1 and limit >= 1: the number of
    customers returned is limit, or what is left of the total after the
    (page - 1) x limit skipped, or none; the page is not empty exactly when
    it is at most totalPages. *)
Theorem page_size (RT : Runtime) (st : Store) (q : CustomersQuery) (p l : Z)
    (r : CustomerList.t) :
  Number_empty RT ->
  reads_as (page q) 1 p -> reads_as (limit q) 10 l -> 1 <= p -> 1 <= l ->
  get_customers st q = res_json r ->
  Z.of_nat (List.length (CustomerList.customers r)) =
    Z.max 0 (Z.min l (CustomerList.total r - (p - 1) * l)) /\
  exists n, CustomerList.totalPages r = JsInt n /\
            (CustomerList.customers r <> [] <-> p <= n).
Proof.
  intros Hne Hp Hl Hp1 Hl1 Hr. apply get_customers_json in Hr.
  destruct (list_customers_inv st q r Hr) as (pred & sorted & _ & _ & Hc & Hs & _).
  rewrite (list_customers_page st q p l Hne Hp Hl Hp1 Hl1 pred sorted Hc Hs) in Hr.
  inversion Hr; subst r; cbn.
  assert (Hlen : List.length sorted = List.length (filter pred (customers st)))
    by (symmetry; apply Permutation_length, (apply_sort_perm _ _ _ Hs)).
  rewrite <- Hlen.
  assert (Hsize : Z.of_nat (List.length
                    (firstn (Z.to_nat l) (skipn (Z.to_nat ((p - 1) * l)) sorted))) =
                  Z.max 0 (Z.min l (Z.of_nat (List.length sorted) - (p - 1) * l))).
  { rewrite length_firstn, length_skipn.
    assert (0 <= (p - 1) * l) by nia. lia. }
  split; [exact Hsize|].
  destruct (ceil_div_bounds (Z.of_nat (List.length sorted)) l Hl1) as (n & Hn & Hb).
  exists n. split; [exact Hn|].
  rewrite <- length_zero_iff_nil.
  assert (Hz : List.length (firstn (Z.to_nat l) (skipn (Z.to_nat ((p - 1) * l)) sorted)) <> 0%nat
               <-> 0 < Z.min l (Z.of_nat (List.length sorted) - (p - 1) * l)) by lia.
  rewrite Hz. split; intros H; nia.
Qed.

Lemma page_size_witness :
  Number_empty ref_runtime /\
  reads_as (RT := ref_runtime) (page third_page_of_two) 1 3 /\
  reads_as (RT := ref_runtime) (limit third_page_of_two) 10 2 /\
  exists r,
    get_customers (RT := ref_runtime) sample_store third_page_of_two = res_json r /\
    Z.of_nat (List.length (CustomerList.customers r)) =
      Z.max 0 (Z.min 2 (CustomerList.total r - (3 - 1) * 2)).
Proof.
  assert (Hne : Number_empty ref_runtime) by reflexivity.
  assert (Hp : reads_as (RT := ref_runtime) (page third_page_of_two) 1 3) by reflexivity.
  assert (Hl : reads_as (RT := ref_runtime) (limit third_page_of_two) 10 2) by reflexivity.
  split; [exact Hne|]. split; [exact Hp|]. split; [exact Hl|].
  eexists. split; [reflexivity|].
  exact (proj1 (page_size ref_runtime sample_store third_page_of_two 3 2 _ Hne Hp Hl
                  ltac:(lia) ltac:(lia) eq_refl)).
Defined.

(** X8. GET /customers with a page of 0 or less and a limit >= 1 is
    answered 500: the skip is negative and the store refuses it. *)
Theorem non_positive_page_fails (RT : Runtime) (st : Store) (q : CustomersQuery)
    (p l : Z) :
  Number_empty RT ->
  reads_as (page q) 1 p -> reads_as (limit q) 10 l -> p <= 0 -> 1 <= l ->
  statusCode (get_customers st q) = 500 /\
  forall r, get_customers st q <> res_json r.
Proof.
  intros Hne Hp Hl Hp0 Hl1.
  assert (H : exists e, list_customers st q = Throw e).
  { unfold list_customers; cbv zeta.
    destruct (query_limit_number q l Hne Hl ltac:(lia)) as [-> ->].
    rewrite (page_number q p Hp). cbn [bind].
    unfold find_customers.
    destruct (compile_filter _) as [pred|e]; [cbn [bind] | eexists; reflexivity].
    destruct (apply_sort _ _) as [sorted|e]; [cbn [bind] | eexists; reflexivity].
    replace (js_mul (js_sub (JsInt p) (JsInt 1)) (JsInt l)) with (JsInt ((p - 1) * l))
      by (simpl; f_equal; lia).
    unfold apply_skip.
    destruct (Z.ltb_spec ((p - 1) * l) 0) as [_|Hge]; [|nia].
    eexists; reflexivity. }
  destruct H as [e He]. unfold get_customers. rewrite He.
  split; [reflexivity | discriminate].
Qed.

Lemma non_positive_page_fails_witness :
  Number_empty ref_runtime /\
  reads_as (RT := ref_runtime) (page page_zero) 1 0 /\
  reads_as (RT := ref_runtime) (limit page_zero) 10 10 /\
  statusCode (get_customers (RT := ref_runtime) sample_store page_zero) = 500.
Proof.
  assert (Hne : Number_empty ref_runtime) by reflexivity.
  assert (Hp : reads_as (RT := ref_runtime) (page page_zero) 1 0) by reflexivity.
  assert (Hl : reads_as (RT := ref_runtime) (limit page_zero) 10 10) by reflexivity.
  split; [exact Hne|]. split; [exact Hp|]. split; [exact Hl|].
  exact (proj1 (non_positive_page_fails ref_runtime sample_store page_zero 0 10
                  Hne Hp Hl ltac:(lia) ltac:(lia))).
Defined.

(** X9. GET /customers with a limit that is the number 0 and any integer
    page: nothing is skipped and nothing is cut, the list is all matching
    customers in the order of the sort; totalPages is no number then,
    infinite when there are matching customers and NaN when there are none. *)
Theorem zero_limit_lists_all (RT : Runtime) (st : Store) (q : CustomersQuery)
    (p : Z) (s : string) (r : CustomerList.t) :
  reads_as (page q) 1 p ->
  limit q = Some s -> ToNumber s = JsInt 0 ->
  get_customers st q = res_json r ->
  exists pred,
    compile_filter (filter_of (search q)) = Ok pred /\
    apply_sort (sort_of (sortBy q)) (filter pred (customers st))
      = Ok (CustomerList.customers r) /\
    Permutation (filter pred (customers st)) (CustomerList.customers r) /\
    CustomerList.total r = Z.of_nat (List.length (CustomerList.customers r)) /\
    CustomerList.totalPages r =
      (if CustomerList.total r =? 0 then JsNaN else JsPosInf).
Proof.
  intros Hp Hl Hs0 Hr. apply get_customers_json in Hr.
  assert (Htp := list_customers_totalPages st q r Hr).
  rewrite Hl in Htp. cbn [to_number] in Htp. rewrite Hs0 in Htp.
  revert Hr. unfold list_customers; cbv zeta.
  rewrite (page_number q p Hp), Hl. cbn [to_number]. rewrite Hs0.
  assert (Hq : exists lim, query_limit (JsString s) = Ok lim /\
                           (lim = None \/ lim = Some (JsInt 0))).
  { unfold query_limit. destruct (String.eqb s EmptyString); [eauto|].
    rewrite Hs0; eauto. }
  destruct Hq as (lim & -> & Hlim). cbn [bind].
  unfold countDocuments, find_customers.
  destruct (compile_filter _) as [pred|]; [cbn [bind] | discriminate].
  destruct (apply_sort _ _) as [sorted|] eqn:Hsort; [cbn [bind] | discriminate].
  replace (js_mul (js_sub (JsInt p) (JsInt 1)) (JsInt 0)) with (JsInt 0)
    by (simpl; f_equal; lia).
  cbn [apply_skip Z.ltb Z.compare Z.to_nat skipn bind].
  assert (Hal : apply_limit lim sorted = Ok sorted)
    by (destruct Hlim as [-> | ->]; reflexivity).
  rewrite Hal. cbn [bind]. intros H; inversion H; subst r; cbn in *.
  exists pred. split; [reflexivity|]. split; [exact Hsort|].
  assert (Hperm := apply_sort_perm _ _ _ Hsort).
  split; [exact Hperm|].
  split; [f_equal; apply Permutation_length, Hperm|].
  destruct (List.length (filter pred (customers st))); reflexivity.
Qed.

Lemma zero_limit_lists_all_witness :
  reads_as (RT := ref_runtime) (page limit_zero) 1 1 /\
  limit limit_zero = Some "0" /\
  ToNumber (Runtime := ref_runtime) "0" = JsInt 0 /\
  exists r,
    get_customers (RT := ref_runtime) sample_store limit_zero = res_json r /\
    CustomerList.totalPages r = JsPosInf.
Proof.
  assert (Hp : reads_as (RT := ref_runtime) (page limit_zero) 1 1) by reflexivity.
  split; [exact Hp|]. split; [reflexivity|]. split; [reflexivity|].
  eexists. split; [reflexivity|].
  destruct (zero_limit_lists_all ref_runtime sample_store limit_zero 1 "0" _
              Hp eq_refl eq_refl eq_refl) as (pred & _ & _ & _ & _ & Htp).
  exact Htp.
Defined.

(** X10. GET /customers with a search string that the store rejects as a
    pattern is answered 500, whatever the other parameters; no list is
    returned. *)
Theorem rejected_pattern_fails (RT : Runtime) (st : Store) (q : CustomersQuery)
    (s : string) :
  search q = Some s -> s <> EmptyString -> RegExp_i s = None ->
  statusCode (get_customers st q) = 500 /\
  forall r, get_customers st q <> res_json r.
Proof.
  intros Hs Hne Hre.
  assert (H : exists e, list_customers st q = Throw e).
  { unfold list_customers; cbv zeta.
    destruct (query_limit _) as [lim|e]; [cbn [bind] | eexists; reflexivity].
    unfold find_customers. rewrite Hs. unfold filter_of, truthy.
    destruct (String.eqb_spec s EmptyString) as [->|_]; [contradiction|].
    cbn [negb compile_filter compile_or compile_condition]. rewrite Hre.
    eexists; reflexivity. }
  destruct H as [e He]. unfold get_customers. rewrite He.
  split; [reflexivity | discriminate].
Qed.

Lemma rejected_pattern_fails_witness :
  search search_paren = Some "(" /\ "(" <> EmptyString /\
  RegExp_i (Runtime := ref_runtime) "(" = None /\
  statusCode (get_customers (RT := ref_runtime) sample_store search_paren) = 500.
Proof.
  assert (Hne : "(" <> EmptyString) by discriminate.
  split; [reflexivity|]. split; [exact Hne|]. split; [reflexivity|].
  exact (proj1 (rejected_pattern_fails ref_runtime sample_store search_paren "("
                  eq_refl Hne eq_refl)).
Defined.

(** X11. Two requests to GET /customers with the same search that both
    return a list report the same total, whatever their sortBy, page and
    limit, and the same totalPages when their limit is the same too. *)
Theorem total_depends_on_search (RT : Runtime) (st : Store)
    (q1 q2 : CustomersQuery) (r1 r2 : CustomerList.t) :
  search q2 = search q1 ->
  get_customers st q1 = res_json r1 ->
  get_customers st q2 = res_json r2 ->
  CustomerList.total r2 = CustomerList.total r1 /\
  (limit q2 = limit q1 ->
   CustomerList.totalPages r2 = CustomerList.totalPages r1).
Proof.
  intros Hs Hr1 Hr2.
  apply get_customers_json in Hr1. apply get_customers_json in Hr2.
  destruct (list_customers_inv st q1 r1 Hr1) as (pred1 & _ & _ & _ & Hc1 & _ & _ & Ht1).
  destruct (list_customers_inv st q2 r2 Hr2) as (pred2 & _ & _ & _ & Hc2 & _ & _ & Ht2).
  rewrite Hs, Hc1 in Hc2. inversion Hc2; subst pred2.
  assert (Ht : CustomerList.total r2 = CustomerList.total r1) by congruence.
  split; [exact Ht|]. intros Hl.
  rewrite (list_customers_totalPages st q1 r1 Hr1),
          (list_customers_totalPages st q2 r2 Hr2), Hl, Ht.
  reflexivity.
Qed.

Lemma total_depends_on_search_witness :
  search second_page_of_two = search sort_name_desc /\
  exists r1 r2,
    get_customers (RT := ref_runtime) sample_store sort_name_desc = res_json r1 /\
    get_customers (RT := ref_runtime) sample_store second_page_of_two = res_json r2 /\
    CustomerList.total r2 = CustomerList.total r1.
Proof.
  split; [reflexivity|].
  eexists; eexists. split; [reflexivity|]. split; [reflexivity|].
  exact (proj1 (total_depends_on_search ref_runtime sample_store sort_name_desc
                  second_page_of_two _ _ eq_refl eq_refl eq_refl)).
Defined.

Lemma NoDup_skipn {A : Type} (n : nat) (l : list A) :
  NoDup l -> NoDup (skipn n l).
Proof.
  intros H; rewrite <- (firstn_skipn n l) in H.
  apply NoDup_app_remove_l in H; exact H.
Qed.

(** X12. Every customer that GET /customers returns is a customer of the
    store; when the ids of the store are unique no customer is returned
    twice; the list is never longer than the total, and the total never
    exceeds the number of customers of the store. *)
Theorem listed_customers_are_stored (RT : Runtime) (st : Store)
    (q : CustomersQuery) (r : CustomerList.t) :
  get_customers st q = res_json r ->
  (forall c, In c (CustomerList.customers r) -> In c (customers st)) /\
  (NoDup (map Customer._id (customers st)) ->
   NoDup (map Customer._id (CustomerList.customers r))) /\
  Z.of_nat (List.length (CustomerList.customers r)) <= CustomerList.total r /\
  CustomerList.total r <= Z.of_nat (List.length (customers st)).
Proof.
  intros Hr. apply get_customers_json in Hr.
  destruct (list_customers_inv st q r Hr)
    as (pred & sorted & n & m & _ & Hsort & Hcust & Htot).
  apply apply_sort_perm in Hsort. rewrite Hcust, Htot.
  split; [|split; [|split]].
  - intros c Hin. apply firstn_In, skipn_In in Hin.
    apply (Permutation_in _ (Permutation_sym Hsort)), filter_In in Hin. apply Hin.
  - intros Hnd. rewrite <- firstn_map, <- skipn_map.
    apply NoDup_firstn, NoDup_skipn.
    apply (Permutation_NoDup (Permutation_map Customer._id Hsort)).
    apply NoDup_map_filter, Hnd.
  - rewrite length_firstn, length_skipn, (Permutation_length Hsort). lia.
  - apply Nat2Z.inj_le, filter_length_le.
Qed.

Lemma listed_customers_are_stored_witness :
  exists r,
    get_customers (RT := ref_runtime) sample_store search_jo = res_json r /\
    forall c, In c (CustomerList.customers r) -> In c (customers sample_store).
Proof.
  eexists. split; [reflexivity|].
  exact (proj1 (listed_customers_are_stored ref_runtime sample_store search_jo _ eq_refl)).
Defined.

(** X13. GET /customers without a search string, or with an empty one,
    selects every customer: the total is the number of customers of the
    store and the list is a part of the whole collection, sorted. *)
Theorem no_search_selects_all (RT : Runtime) (st : Store) (q : CustomersQuery)
    (r : CustomerList.t) :
  search q = None \/ search q = Some EmptyString ->
  get_customers st q = res_json r ->
  CustomerList.total r = Z.of_nat (List.length (customers st)) /\
  exists sorted n m,
    apply_sort (sort_of (sortBy q)) (customers st) = Ok sorted /\
    Permutation (customers st) sorted /\
    CustomerList.customers r = firstn n (skipn m sorted).
Proof.
  intros Hs Hr. apply get_customers_json in Hr.
  destruct (list_customers_inv st q r Hr)
    as (pred & sorted & n & m & Hc & Hsort & Hcust & Htot).
  assert (Hf : filter_of (search q) = FilterAll)
    by (destruct Hs as [-> | ->]; reflexivity).
  rewrite Hf in Hc. inversion Hc; subst pred.
  assert (Hall : forall l : list Customer.t, filter (fun _ => true) l = l).
  { intros l. induction l as [|c l IH]; simpl; [reflexivity | rewrite IH; reflexivity]. }
  rewrite Hall in *.
  split; [exact Htot|].
  exists sorted, n, m. split; [exact Hsort|].
  split; [apply (apply_sort_perm _ _ _ Hsort) | exact Hcust].
Qed.

Lemma no_search_selects_all_witness :
  (search all_customers = None \/ search all_customers = Some EmptyString) /\
  exists r,
    get_customers (RT := ref_runtime) sample_store all_customers = res_json r /\
    CustomerList.total r = Z.of_nat (List.length (customers sample_store)).
Proof.
  split; [left; reflexivity|].
  eexists. split; [reflexivity|].
  exact (proj1 (no_search_selects_all ref_runtime sample_store all_customers _
                  (or_introl eq_refl) eq_refl)).
Defined.

(** ** Sales analytics, continued *)

Lemma filter_true {A : Type} (l : list A) : filter (fun _ => true) l = l.
Proof.
  induction l as [|a l IH]; simpl; [reflexivity | rewrite IH; reflexivity].
Qed.

Section SalesCounts.
Context {RT : Runtime}.
Variables (st : Store) (m : MatchStage.t).

Lemma salesAnalytics_counts :
  sumZ (map MonthlySales.orderCount (salesAnalytics st m)) =
  Z.of_nat (List.length (filter (matches m) (orders st))).
Proof.
  rewrite <- (sumZ_perm _ _
                (Permutation_map MonthlySales.orderCount (salesAnalytics_perm st m))).
  rewrite map_map; simpl.
  rewrite (group_sum MonthId.eqb month_id (0, 0) _ snd (fun _ => 1));
    [apply sumZ_ones | reflexivity | intros; reflexivity].
Qed.

Lemma no_match_no_results :
  filter (matches m) (orders st) = [] ->
  salesAnalytics st m = [] /\ topProducts st m = [].
Proof.
  intros H. unfold salesAnalytics, topProducts, match_stage. rewrite H.
  split; reflexivity.
Qed.

End SalesCounts.

(** X14. GET /analytics/sales: every group of salesByMonth counts at least
    one order, and the orderCount of all groups add up to the number of
    completed orders of the request. *)
Theorem sales_order_counts (RT : Runtime) (st : Store) (q : SalesQuery) :
  exists r,
    get_analytics_sales st q = res_json r /\
    (forall row, In row (salesByMonth r) -> 1 <= MonthlySales.orderCount row) /\
    sumZ (map MonthlySales.orderCount (salesByMonth r)) =
      Z.of_nat (List.length (filter (selects q) (orders st))).
Proof.
  eexists; split; [reflexivity|]; cbn [salesByMonth].
  assert (Hsel : filter (matches (matchStage_of q)) (orders st)
                 = filter (selects q) (orders st))
    by (apply filter_ext; intros o; apply matches_selects).
  split.
  - intros row Hin. apply salesAnalytics_row in Hin.
    destruct Hin as ((o & Ho & Hk) & _ & ->).
    assert (Hin : In o (filter (fun o => MonthId.eqb (month_id o) (MonthlySales._id row))
                          (filter (matches (matchStage_of q)) (orders st))))
      by (apply filter_In; split; [exact Ho | apply MonthId_eqb_eq, Hk]).
    destruct (filter _ (filter _ _)); [destruct Hin | simpl List.length; lia].
  - rewrite salesAnalytics_counts, Hsel. reflexivity.
Qed.

(** X15. GET /analytics/sales with a range whose start is after its end
    selects no order: salesByMonth and topSellingProducts are empty, and the
    answer is a success. *)
Theorem backwards_range_is_empty (RT : Runtime) (st : Store) (q : SalesQuery)
    (s e : string) :
  startDate q = Some s -> endDate q = Some e ->
  s <> EmptyString -> e <> EmptyString ->
  new_Date e < new_Date s ->
  get_analytics_sales st q =
  res_json {| salesByMonth := []; topSellingProducts := [] |}.
Proof.
  intros Hs He Hsn Hen Hlt.
  assert (Hnone : filter (matches (matchStage_of q)) (orders st) = []).
  { apply filter_nil_existsb.
    destruct (existsb _ _) eqn:Ex; [|reflexivity].
    apply existsb_exists in Ex. destruct Ex as (o & _ & Ho).
    rewrite matches_selects in Ho. apply selects_in_scope in Ho.
    destruct Ho as [_ Hr]. specialize (Hr s e Hs He Hsn Hen). lia. }
  unfold get_analytics_sales.
  destruct (no_match_no_results st (matchStage_of q) Hnone) as [-> ->].
  reflexivity.
Qed.

Lemma backwards_range_is_empty_witness :
  startDate backwards = Some "2024-02-01" /\ endDate backwards = Some "2024-01-01" /\
  new_Date (Runtime := ref_runtime) "2024-01-01"
    < new_Date (Runtime := ref_runtime) "2024-02-01" /\
  get_analytics_sales (RT := ref_runtime) sample_store backwards =
  res_json {| salesByMonth := []; topSellingProducts := [] |}.
Proof.
  assert (Hlt : new_Date (Runtime := ref_runtime) "2024-01-01"
                < new_Date (Runtime := ref_runtime) "2024-02-01") by reflexivity.
  split; [reflexivity|]. split; [reflexivity|]. split; [exact Hlt|].
  exact (backwards_range_is_empty ref_runtime sample_store backwards
           "2024-02-01" "2024-01-01" eq_refl eq_refl
           ltac:(discriminate) ltac:(discriminate) Hlt).
Defined.

(** X16. GET /analytics/sales: a product with sales that the limit of 10
    leaves out sold no more units than any product of topSellingProducts;
    when at most 10 products have sales none is left out, and every one of
    them that is still a Product document is in the list. *)
Theorem top_ten_sell_most (RT : Runtime) (st : Store) (q : SalesQuery) :
  exists r,
    get_analytics_sales st q = res_json r /\
    (forall row g,
       In row (topSellingProducts r) ->
       In g (product_groups st (matchStage_of q)) ->
       ~ In g (top_groups st (matchStage_of q)) ->
       ProductGroup.totalQuantity g <= TopProduct.totalQuantity row) /\
    ((List.length (product_groups st (matchStage_of q)) <= 10)%nat ->
     forall g, In g (product_groups st (matchStage_of q)) ->
       In g (top_groups st (matchStage_of q)) /\
       (In (ProductGroup._id g) (map Product._id (products st)) ->
        In (ProductGroup._id g) (map TopProduct._id (topSellingProducts r)))).
Proof.
  eexists; split; [reflexivity|]; cbn [topSellingProducts].
  set (m := matchStage_of q).
  set (sorted := sort_stage
                   (fun a b => ProductGroup.totalQuantity b <=? ProductGroup.totalQuantity a)
                   (product_groups st m)).
  assert (Hsorted : StronglySorted
                      (fun a b => ProductGroup.totalQuantity b <= ProductGroup.totalQuantity a)
                      (firstn 10 sorted ++ skipn 10 sorted))
    by (rewrite firstn_skipn; apply product_groups_sorted).
  assert (Htop : top_groups st m = firstn 10 sorted) by reflexivity.
  split.
  - intros row g Hrow Hg Hout.
    apply topProducts_In in Hrow. destruct Hrow as (Hh & _).
    rewrite Htop in Hh, Hout.
    assert (Hgs : In g sorted) by (apply sort_stage_in; exact Hg).
    rewrite <- (firstn_skipn 10 sorted) in Hgs.
    apply in_app_or in Hgs. destruct Hgs as [Hgs|Hgs]; [contradiction|].
    apply (StronglySorted_app_inv _ _ _ Hsorted _ _ Hh Hgs).
  - intros Hlen g Hg.
    assert (Hin : In g (top_groups st m)).
    { rewrite Htop, firstn_all2;
        [apply sort_stage_in; exact Hg | unfold sorted; rewrite sort_stage_length; exact Hlen]. }
    split; [exact Hin|]. intros Hp.
    apply in_map_iff in Hp. destruct Hp as (p & Hid & Hp).
    apply in_map_iff.
    exists {| TopProduct._id := ProductGroup._id g;
              TopProduct.totalQuantity := ProductGroup.totalQuantity g;
              TopProduct.totalRevenue := ProductGroup.totalRevenue g;
              TopProduct.product := p |}.
    split; [reflexivity|]. apply topProducts_In; cbn.
    split; [destruct g; exact Hin | auto].
Qed.

Lemma StronglySorted_weaken {A : Type} (R S : A -> A -> Prop) (l : list A) :
  (forall a b, R a b -> S a b) -> StronglySorted R l -> StronglySorted S l.
Proof.
  intros HRS; induction 1 as [|a l Hs IH Hall]; constructor; [exact IH|].
  rewrite Forall_forall in *; intros b Hb; apply HRS, Hall, Hb.
Qed.

(** X17. GET /analytics/sales: the month of every group of salesByMonth is
    between 1 and 12, and the groups come in the order of time: every order
    of a group is dated before every order of each group after it. *)
Theorem sales_months_chronological (RT : Runtime) (st : Store) (q : SalesQuery) :
  exists r,
    get_analytics_sales st q = res_json r /\
    (forall row, In row (salesByMonth r) ->
       1 <= MonthId.month (MonthlySales._id row) <= 12) /\
    StronglySorted
      (fun a b =>
         forall o1 o2,
           month_id o1 = MonthlySales._id a -> month_id o2 = MonthlySales._id b ->
           Order.orderDate o1 < Order.orderDate o2)
      (salesByMonth r).
Proof.
  eexists; split; [reflexivity|]; cbn [salesByMonth]. split.
  - intros row Hin. apply salesAnalytics_row in Hin.
    destruct Hin as ((o & _ & <-) & _). apply month_of_bounds.
  - apply (StronglySorted_weaken
             (fun a b => MonthId.lt (MonthlySales._id a) (MonthlySales._id b)));
      [|apply salesAnalytics_sorted].
    intros a b Hlt o1 o2 H1 H2. apply earlier_month_earlier_date.
    rewrite H1, H2. exact Hlt.
Qed.

(** ** Product analytics, continued *)



Lemma populate_brand_spec (st : Store) (p : Product.t) :
  Populated.doc (populate_brand st p) = p /\
  match Populated.brand (populate_brand st p) with
  | Some b => In b (brands st) /\ Brand._id b = Product.brandId p
  | None => ~ In (Product.brandId p) (map Brand._id (brands st))
  end.
Proof.
  split; [reflexivity|]. cbn.
  destruct (find _ (brands st)) as [b|] eqn:Hf.
  - apply find_some in Hf. destruct Hf as [Hb He]. apply N.eqb_eq in He. auto.
  - intros Hin. apply in_map_iff in Hin. destruct Hin as (b & Hb & Hin).
    assert (Hfalse := find_none _ _ Hf b Hin). cbn in Hfalse.
    rewrite Hb, N.eqb_refl in Hfalse. discriminate.
Qed.

(** X19. GET /analytics/products: lowStockProducts holds exactly the
    Product documents with a stockQuantity below 10, in store order; every
    product of lowStockProducts and of noSalesProducts carries the brand of
    its brandId, or null when the store has no such brand. *)
Theorem low_stock_products (RT : Runtime) (st : Store) (now : Date) :
  exists r,
    get_analytics_products st now = res_json r /\
    map Populated.doc (lowStockProducts r)
      = filter (fun p => Product.stockQuantity p <? 10) (products st) /\
    (forall p, In p (map Populated.doc (lowStockProducts r)) <->
       In p (products st) /\ Product.stockQuantity p < 10) /\
    (forall pp, In pp (lowStockProducts r) \/ In pp (noSalesProducts r) ->
       match Populated.brand pp with
       | Some b =>
           In b (brands st) /\ Brand._id b = Product.brandId (Populated.doc pp)
       | None =>
           ~ In (Product.brandId (Populated.doc pp)) (map Brand._id (brands st))
       end).
Proof.
  eexists; split; [reflexivity|]; cbn [lowStockProducts noSalesProducts].
  assert (Hdocs : forall l, map Populated.doc (map (populate_brand st) l) = l)
    by (intros l; rewrite map_map; apply map_id).
  split; [apply Hdocs|]. split.
  - intros p. rewrite Hdocs, filter_In, Z.ltb_lt. reflexivity.
  - intros pp [Hin|Hin]; apply in_map_iff in Hin;
      destruct Hin as (p & <- & _); apply populate_brand_spec.
Qed.

(** ** The password of an account *)

Lemma marking_bcrypt_sound : Bcrypt_sound marking_bcrypt.
Proof.
  intros password salt hashed H. cbn in *. inversion H; subst.
  apply String.eqb_refl.
Qed.

Section AccountFacts.
Context {B : Bcrypt}.

Lemma save_modified (salt : Result string) (this : AccountDoc.t) :
  isModified "password" this = true ->
  save salt this =
  (s <- salt ;;
   hashed <- bcrypt_hash (Account.password (AccountDoc.fields this)) s ;;
   Ok {| AccountDoc.fields := with_password hashed (AccountDoc.fields this);
         AccountDoc.modifiedPaths := [] |}).
Proof.
  intros H. unfold save, pre_save. rewrite H. cbn [negb].
  destruct salt as [s|e]; [cbn [bind] | reflexivity].
  destruct (bcrypt_hash _ s); reflexivity.
Qed.

End AccountFacts.

(** X20. Saving an account whose password was set hashes it once: the
    stored password is a hash of the password given, comparePassword accepts
    that password (the library accepting the hashes it makes), and the other
    fields are stored as they were. *)
Theorem saved_password_compares (B : Bcrypt) (this d : AccountDoc.t)
    (salt : string) :
  Bcrypt_sound B ->
  isModified "password" this = true ->
  save (Ok salt) this = Ok d ->
  bcrypt_hash (Account.password (AccountDoc.fields this)) salt
    = Ok (Account.password (AccountDoc.fields d)) /\
  comparePassword d (Account.password (AccountDoc.fields this)) = true /\
  isModified "password" d = false /\
  Account.username (AccountDoc.fields d) = Account.username (AccountDoc.fields this) /\
  Account.role (AccountDoc.fields d) = Account.role (AccountDoc.fields this) /\
  Account.isVerified (AccountDoc.fields d) = Account.isVerified (AccountDoc.fields this).
Proof.
  intros Hsound Hmod Hsave. rewrite (save_modified _ _ Hmod) in Hsave.
  cbn [bind] in Hsave.
  destruct (bcrypt_hash _ salt) as [hashed|] eqn:Hh; [cbn [bind] in Hsave | discriminate].
  inversion Hsave; subst d; cbn.
  split; [reflexivity|].
  split; [unfold comparePassword; cbn; apply (Hsound _ _ _ Hh)|].
  repeat split.
Qed.

Lemma saved_password_compares_witness :
  Bcrypt_sound marking_bcrypt /\
  isModified "password" (new_account "mai" "secret" "staff") = true /\
  exists d,
    save (B := marking_bcrypt) (Ok "salt") (new_account "mai" "secret" "staff") = Ok d /\
    comparePassword (B := marking_bcrypt) d "secret" = true.
Proof.
  split; [exact marking_bcrypt_sound|]. split; [reflexivity|].
  eexists. split; [reflexivity|].
  exact (proj1 (proj2 (saved_password_compares marking_bcrypt
                         (new_account "mai" "secret" "staff") _ "salt"
                         marking_bcrypt_sound eq_refl eq_refl))).
Defined.

(** X22. The hook of pre-save hands an error to next() only when the
    password was set and the library fails, at the salt or at the hash, and
    the error is then the one of the library; when the password was not set
    the hook asks for no salt and leaves the document as it is. *)
Theorem hook_fails_with_library (B : Bcrypt) (this : AccountDoc.t)
    (salt : Result string) (e : Error) :
  (pre_save salt this = Throw e <->
   isModified "password" this = true /\
   (salt = Throw e \/
    exists s, salt = Ok s /\
              bcrypt_hash (Account.password (AccountDoc.fields this)) s = Throw e)) /\
  (isModified "password" this = false -> pre_save salt this = Ok this).
Proof.
  unfold pre_save. split.
  - destruct (isModified "password" this) eqn:Hmod; cbn [negb].
    + destruct salt as [s|e']; cbn [bind].
      * destruct (bcrypt_hash _ s) as [h|e'] eqn:Hh; cbn [bind].
        -- split; [discriminate|].
           intros [_ [H|(s' & Hs & Hh')]]; [discriminate|].
           inversion Hs; subst. congruence.
        -- split.
           ++ intros H; inversion H; subst. split; [reflexivity|]. right. exists s. auto.
           ++ intros [_ [H|(s' & Hs & Hh')]]; [discriminate|].
              inversion Hs; subst. congruence.
      * split.
        -- intros H; inversion H; subst. auto.
        -- intros [_ [H|(s' & Hs & _)]]; [inversion H; reflexivity | discriminate].
    + split; [discriminate|]. intros [H _]; discriminate.
  - intros ->. reflexivity.
Qed.

(** ** Products that pass the schema *)

Lemma app_nil_both {A : Type} (l1 l2 : list A) : l1 ++ l2 = [] -> l1 = [] /\ l2 = [].
Proof. destruct l1; simpl; [auto | discriminate]. Qed.

Lemma enum_string_ok (path : string) (values : list string) (s : string) :
  enum_string path values (Some s) = [] -> In s values.
Proof.
  unfold enum_string. destruct (existsb _ values) eqn:Ex; [|discriminate].
  intros _. apply existsb_exists in Ex. destruct Ex as (x & Hx & He).
  apply String.eqb_eq in He. subst; exact Hx.
Qed.

Lemma required_string_ok (path s : string) :
  required_string path (Some s) = [] -> s <> EmptyString.
Proof.
  unfold required_string. destruct (String.eqb_spec s EmptyString); [discriminate | auto].
Qed.

(** X23. A product that the validators of the schema accept has a name, a
    function and a skinGroup of the declared values, a genderTarget of the
    declared values if it has one, and a stockQuantity that is not negative;
    created without a stockQuantity it has none in stock and is among the
    lowStockProducts of every store that holds it. *)
Theorem valid_product_invariants (RT : Runtime) (id : ObjectId) (created : Date)
    (input : ProductInput.t) (p : Product.t) :
  new_product id created input = inl p ->
  Product.name p <> EmptyString /\
  In (Product.function p) function_values /\
  In (Product.skinGroup p) skinGroup_values /\
  (forall g, Product.genderTarget p = Some g -> In g genderTarget_values) /\
  0 <= Product.stockQuantity p /\
  (ProductInput.stockQuantity input = None ->
   Product.stockQuantity p = 0 /\
   forall st now, In p (products st) ->
     exists r, get_analytics_products st now = res_json r /\
               In p (map Populated.doc (lowStockProducts r))).
Proof.
  unfold new_product.
  destruct (validate_product input) as [|e es] eqn:Hv;
    [|destruct (ProductInput.name input), (ProductInput.function input),
               (ProductInput.skinGroup input), (ProductInput.brandId input),
               (ProductInput.categoryId input); discriminate].
  unfold validate_product in Hv.
  destruct (ProductInput.name input) as [name|] eqn:Hn; [|discriminate].
  destruct (ProductInput.function input) as [fn|] eqn:Hf; [|discriminate].
  destruct (ProductInput.skinGroup input) as [sg|] eqn:Hs; [|discriminate].
  destruct (ProductInput.brandId input) as [bid|] eqn:Hb; [|discriminate].
  destruct (ProductInput.categoryId input) as [cid|] eqn:Hc; [|discriminate].
  intros H; inversion H; subst p; cbn.
  apply app_nil_both in Hv. destruct Hv as [Hname Hv].
  apply app_nil_both in Hv. destruct Hv as [_ Hv].
  apply app_nil_both in Hv. destruct Hv as [Hfn Hv].
  apply app_nil_both in Hv. destruct Hv as [_ Hv].
  apply app_nil_both in Hv. destruct Hv as [Hsg Hv].
  apply app_nil_both in Hv. destruct Hv as [Hgt Hv].
  apply app_nil_both in Hv. destruct Hv as [_ Hv].
  apply app_nil_both in Hv. destruct Hv as [_ Hmin].
  assert (Hstock : 0 <= stock_of input).
  { unfold min_zero in Hmin.
    destruct (Z.ltb_spec (stock_of input) 0); [discriminate | assumption]. }
  split; [apply (required_string_ok _ _ Hname)|].
  split; [apply (enum_string_ok _ _ _ Hfn)|].
  split; [apply (enum_string_ok _ _ _ Hsg)|].
  split; [intros g Hg; rewrite Hg in Hgt; apply (enum_string_ok _ _ _ Hgt)|].
  split; [exact Hstock|].
  intros Hnone.
  assert (H0 : stock_of input = 0) by (unfold stock_of; rewrite Hnone; reflexivity).
  split; [exact H0|].
  intros st now Hin. eexists; split; [reflexivity|]. cbn [lowStockProducts].
  rewrite map_map, map_id. apply filter_In. split; [exact Hin|].
  cbn. rewrite H0. reflexivity.
Qed.

Lemma valid_product_invariants_witness :
  exists p,
    new_product 13%N (date 2024 3 1) new_cream = inl p /\
    Product.stockQuantity p = 0 /\
    In (Product.function p) function_values.
Proof.
  eexists. split; [reflexivity|].
  destruct (valid_product_invariants ref_runtime 13%N (date 2024 3 1) new_cream _ eq_refl)
    as (_ & Hf & _ & _ & _ & Hs).
  split; [exact (proj1 (Hs eq_refl)) | exact Hf].
Defined.
